(** * aqua: resolve / install / exec pipeline, checked against its specification

    A shallow embedding of the parts of the Go sources that the specification
    talks about:

    - [pkg/config/aqua/registry.go]: the registry descriptor, its validation,
      its YAML normalisation and its cache path;
    - the exec controller's retry loop;
    - the package downloader's GitHub-release fallback;
    - the link layout of the package installer;
    - the HTTP registry archive extraction of the registry installer.

    Go values are modelled as follows.  A [string] is a Rocq [string]; an
    [error] is a value of the inductive [error] below and a possibly-nil
    error is an [option error]; a byte is a number below 256 in [N] and a
    byte slice that may be [nil] is an [option (list N)]; interfaces whose
    implementation lives outside the repository (HTTP client, GitHub client,
    process executor, unarchiver) are records of functions or section
    variables. *)

From Stdlib Require Import ZArith NArith Lia Bool Ascii String List.
From stdpp Require Import base option list strings pretty sorting gmap.

Local Open Scope string_scope.

(** ** Go errors *)

(** [errors.New], [fmt.Errorf] with and without [%w], [logerr.WithFields]
    and [ecerror.Wrap] are the only error constructors the modelled code
    uses. *)
Inductive error : Type :=
| ErrNew (msg : string)
| ErrFmt (msg : string)
| ErrWrap (prefix : string) (cause : error)
| ErrWithFields (cause : error) (fields : list (string * string))
| ErrExitCode (cause : error) (code : Z).

(** [errors.Is e target] for the wrappers above: walk the chain of causes. *)
Fixpoint error_eqb (a b : error) : bool :=
  match a, b with
  | ErrNew x, ErrNew y => String.eqb x y
  | ErrFmt x, ErrFmt y => String.eqb x y
  | ErrWrap p x, ErrWrap q y => String.eqb p q && error_eqb x y
  | ErrWithFields x f, ErrWithFields y g =>
      error_eqb x y &&
      bool_decide (f = g)
  | ErrExitCode x c, ErrExitCode y d => error_eqb x y && Z.eqb c d
  | _, _ => false
  end.

Fixpoint errors_Is (e target : error) : bool :=
  error_eqb e target ||
  match e with
  | ErrWrap _ c | ErrWithFields c _ | ErrExitCode c _ => errors_Is c target
  | _ => false
  end.

(** A Go function returning [(T, error)]. *)
Inductive result (A : Type) : Type :=
| Ok (a : A)
| Err (e : error).
Arguments Ok {A} a.
Arguments Err {A} e.

(** ** [strings.Contains] *)

Fixpoint Contains (s substr : string) : bool :=
  if String.prefix substr s then true
  else match s with
       | EmptyString => false
       | String _ s' => Contains s' substr
       end.

(** ** [crypto/sha256] and [encoding/hex]

    [sha256.Sum256] after FIPS 180-4, on 32-bit words kept in [N] with the
    wrap-around written out. *)

Module Sha256.

Local Open Scope N_scope.

Definition mask32 : N := 0xffffffff.
Definition add32 (x y : N) : N := N.land (x + y) mask32.
Definition rotr (n x : N) : N :=
  N.land (N.lor (N.shiftr x n) (N.shiftl x (32 - n))) mask32.
Definition shr (n x : N) : N := N.shiftr x n.

Definition Ch (x y z : N) : N :=
  N.lxor (N.land x y) (N.land (N.lxor x mask32) z).
Definition Maj (x y z : N) : N :=
  N.lxor (N.lxor (N.land x y) (N.land x z)) (N.land y z).
Definition bsig0 (x : N) : N := N.lxor (N.lxor (rotr 2 x) (rotr 13 x)) (rotr 22 x).
Definition bsig1 (x : N) : N := N.lxor (N.lxor (rotr 6 x) (rotr 11 x)) (rotr 25 x).
Definition ssig0 (x : N) : N := N.lxor (N.lxor (rotr 7 x) (rotr 18 x)) (shr 3 x).
Definition ssig1 (x : N) : N := N.lxor (N.lxor (rotr 17 x) (rotr 19 x)) (shr 10 x).

(** The round constants and the initial hash value, in decimal. *)
Definition K : list N :=
  [
    1116352408; 1899447441; 3049323471; 3921009573; 961987163; 1508970993;
    2453635748; 2870763221; 3624381080; 310598401; 607225278; 1426881987;
    1925078388; 2162078206; 2614888103; 3248222580; 3835390401; 4022224774;
    264347078; 604807628; 770255983; 1249150122; 1555081692; 1996064986;
    2554220882; 2821834349; 2952996808; 3210313671; 3336571891; 3584528711;
    113926993; 338241895; 666307205; 773529912; 1294757372; 1396182291;
    1695183700; 1986661051; 2177026350; 2456956037; 2730485921; 2820302411;
    3259730800; 3345764771; 3516065817; 3600352804; 4094571909; 275423344;
    430227734; 506948616; 659060556; 883997877; 958139571; 1322822218;
    1537002063; 1747873779; 1955562222; 2024104815; 2227730452; 2361852424;
    2428436474; 2756734187; 3204031479; 3329325298
  ].

Definition H0 : list N :=
  [
    1779033703; 3144134277; 1013904242; 2773480762;
    1359893119; 2600822924; 528734635; 1541459225
  ].

(** Padding: a [0x80] byte, zero bytes up to 56 modulo 64, then the bit
    length as a 64-bit big-endian integer. *)
Fixpoint be_bytes (n : nat) (x : N) : list N :=
  match n with
  | O => []
  | S n' => N.land (N.shiftr x (8 * N.of_nat n')) 0xff :: be_bytes n' x
  end.

Definition pad (msg : list N) : list N :=
  let len := N.of_nat (length msg) in
  let zeros := N.to_nat ((64 + 55 - len mod 64) mod 64) in
  msg ++ [0x80] ++ repeat 0 zeros ++ be_bytes 8 (8 * len).

Fixpoint be_words (n : nat) (bs : list N) : list N :=
  match n with
  | O => []
  | S n' =>
      match bs with
      | a :: b :: c :: d :: rest =>
          (N.shiftl a 24 + N.shiftl b 16 + N.shiftl c 8 + d) :: be_words n' rest
      | _ => []
      end
  end.

(** The message schedule, most recent word first: [w] holds
    [W(t-1), W(t-2), ...]. *)
Fixpoint schedule (n : nat) (w : list N) : list N :=
  match n with
  | O => w
  | S n' =>
      let wt := add32 (add32 (ssig1 (nth 1 w 0)) (nth 6 w 0))
                      (add32 (ssig0 (nth 14 w 0)) (nth 15 w 0)) in
      schedule n' (wt :: w)
  end.

Record regs : Type := mkRegs { ra : N; rb : N; rc : N; rd : N; re : N; rf : N; rg : N; rh : N }.

Definition round (s : regs) (kw : N * N) : regs :=
  let t1 := add32 (add32 (add32 (rh s) (bsig1 (re s))) (Ch (re s) (rf s) (rg s)))
                  (add32 (fst kw) (snd kw)) in
  let t2 := add32 (bsig0 (ra s)) (Maj (ra s) (rb s) (rc s)) in
  mkRegs (add32 t1 t2) (ra s) (rb s) (rc s) (add32 (rd s) t1) (re s) (rf s) (rg s).

Definition regs_of (h : list N) : regs :=
  mkRegs (nth 0 h 0) (nth 1 h 0) (nth 2 h 0) (nth 3 h 0)
         (nth 4 h 0) (nth 5 h 0) (nth 6 h 0) (nth 7 h 0).

Definition block (h : list N) (bs : list N) : list N :=
  let w := rev (schedule 48 (rev (be_words 16 bs))) in
  let s := fold_left round (combine K w) (regs_of h) in
  zip_with add32 h [ra s; rb s; rc s; rd s; re s; rf s; rg s; rh s].

Fixpoint blocks (n : nat) (h : list N) (bs : list N) : list N :=
  match n with
  | O => h
  | S n' => blocks n' (block h (take 64 bs)) (drop 64 bs)
  end.

(** [sha256.Sum256(data)]: the 32 bytes of the digest. *)
Definition Sum256 (data : list N) : list N :=
  let p := pad data in
  flat_map (be_bytes 4) (blocks (length p / 64)%nat H0 p).

End Sha256.

Definition bytes_of_string (s : string) : list N :=
  map N_of_ascii (list_ascii_of_string s).

Definition hexdigit (n : N) : ascii :=
  nth (N.to_nat n) (list_ascii_of_string "0123456789abcdef") "0"%char.

(** [hex.EncodeToString] *)
Fixpoint hex_EncodeToString (bs : list N) : string :=
  match bs with
  | [] => ""
  | b :: rest =>
      String (hexdigit (N.shiftr b 4))
        (String (hexdigit (N.land b 15)) (hex_EncodeToString rest))
  end.

(** ** [path/filepath] on a Unix-like system (separator [/], no volume) *)

Module Filepath.

Definition Separator : ascii := "/"%char.
Definition IsPathSeparator (c : ascii) : bool := Ascii.eqb c Separator.

(** [Clean] writes into a buffer [out]; here the buffer is kept reversed.
    [backtrack] is the body of the [..] case: drop the last element of
    [out], down to index [dotdot]. *)
Fixpoint backtrack (out : list ascii) (dotdot : nat) : list ascii :=
  match out with
  | [] => []
  | c :: rest =>
      if (dotdot <? length rest)%nat && negb (IsPathSeparator c)
      then backtrack rest dotdot
      else rest
  end.

(** The [..] case of [Clean]: backtrack when possible, else (unrooted)
    append [..] and move the barrier [dotdot] behind it. *)
Definition dotdot_step (rooted : bool) (out : list ascii) (dotdot : nat)
  : list ascii * nat :=
  if (dotdot <? length out)%nat then (backtrack out dotdot, dotdot)
  else if negb rooted then
    let out := if (0 <? length out)%nat then Separator :: out else out in
    let out := "."%char :: "."%char :: out in
    (out, length out)
  else (out, dotdot).

(** The scanning loop of [Clean].  [elem = true] while an ordinary path
    element is being copied; otherwise the scanner stands at the start of
    an element and decides, with one or two bytes of look-ahead, whether
    it is empty, [.], [..] or an ordinary element. *)
Fixpoint clean_loop (rooted : bool) (path : string) (elem : bool)
         (out : list ascii) (dotdot : nat) {struct path} : list ascii :=
  match path with
  | EmptyString => out
  | String c rest =>
      if IsPathSeparator c then clean_loop rooted rest false out dotdot
      else if elem then clean_loop rooted rest true (c :: out) dotdot
      else
        let ordinary :=
          let out :=
            if (rooted && negb (length out =? 1)%nat)
               || (negb rooted && negb (length out =? 0)%nat)
            then Separator :: out else out in
          clean_loop rooted rest true (c :: out) dotdot in
        if Ascii.eqb c "."%char then
          match rest with
          | EmptyString => out
          | String c1 rest1 =>
              if IsPathSeparator c1 then clean_loop rooted rest false out dotdot
              else if Ascii.eqb c1 "."%char then
                match rest1 with
                | EmptyString => fst (dotdot_step rooted out dotdot)
                | String c2 _ =>
                    if IsPathSeparator c2 then
                      let od := dotdot_step rooted out dotdot in
                      clean_loop rooted rest1 false (fst od) (snd od)
                    else ordinary
                end
              else ordinary
          end
        else ordinary
  end.

Definition Clean (path : string) : string :=
  match path with
  | EmptyString => "."
  | String c _ =>
      let rooted := IsPathSeparator c in
      let out := clean_loop rooted path false
                   (if rooted then [Separator] else []) (if rooted then 1 else 0)%nat in
      match out with
      | [] => "."
      | _ => string_of_list_ascii (rev out)
      end
  end.

Fixpoint strings_Join (elems : list string) (sep : string) : string :=
  match elems with
  | [] => ""
  | [e] => e
  | e :: rest => e +:+ sep +:+ strings_Join rest sep
  end.

Fixpoint Join (elem : list string) : string :=
  match elem with
  | [] => ""
  | e :: rest =>
      if String.eqb e "" then Join rest
      else Clean (strings_Join elem "/")
  end.

(** [Base]: strip trailing separators, then keep what follows the last one. *)
Fixpoint strip_trailing_rev (p : list ascii) : list ascii :=
  match p with
  | c :: rest => if IsPathSeparator c then strip_trailing_rev rest else p
  | [] => []
  end.

Fixpoint last_elem_rev (p : list ascii) : list ascii :=
  match p with
  | c :: rest => if IsPathSeparator c then [] else c :: last_elem_rev rest
  | [] => []
  end.

Definition Base (path : string) : string :=
  match path with
  | EmptyString => "."
  | _ =>
      let p := strip_trailing_rev (rev (list_ascii_of_string path)) in
      match last_elem_rev p with
      | [] => "/"
      | e => string_of_list_ascii (rev e)
      end
  end.

(** [Dir]: everything up to the last separator, cleaned. *)
Fixpoint drop_last_elem_rev (p : list ascii) : list ascii :=
  match p with
  | c :: rest => if IsPathSeparator c then p else drop_last_elem_rev rest
  | [] => []
  end.

Definition Dir (path : string) : string :=
  Clean (string_of_list_ascii
           (rev (drop_last_elem_rev (rev (list_ascii_of_string path))))).

End Filepath.

(** * pkg/config/aqua: the registry descriptor *)

Module Aqua.

Record Registry : Type := mkRegistry {
  Name : string;
  Type_ : string;
  RepoOwner : string;
  RepoName : string;
  Ref : string;
  Path : string;
  Private : bool;
  URL : string;
  Version : string;
  Format : string
}.

Definition RegistryTypeGitHubContent : string := "github_content".
Definition RegistryTypeLocal : string := "local".
Definition RegistryTypeStandard : string := "standard".
Definition RegistryTypeHTTP : string := "http".

Definition errInvalidRegistryType : error := ErrNew "registry type is invalid".
Definition errPathIsRequired : error := ErrNew "path is required for local registry".
Definition errRepoOwnerIsRequired : error := ErrNew "repo_owner is required".
Definition errRepoNameIsRequired : error := ErrNew "repo_name is required".
Definition errRefIsRequired : error :=
  ErrNew "ref is required for github_content registry".
Definition errRefCannotBeMainOrMaster : error :=
  ErrNew "ref cannot be 'main' or 'master' for github_content registry".
Definition errURLIsRequired : error := ErrNew "url is required for http registry".
Definition errVersionIsRequired : error :=
  ErrNew "version is required for http registry".
Definition errURLMustContainVersion : error :=
  ErrNew "url must contain '{{.Version}}' template for http registry".

Definition validateLocal (r : Registry) : option error :=
  if String.eqb (Path r) "" then Some errPathIsRequired else None.

Definition validateGitHubContent (r : Registry) : option error :=
  if String.eqb (RepoOwner r) "" then Some errRepoOwnerIsRequired
  else if String.eqb (RepoName r) "" then Some errRepoNameIsRequired
  else if String.eqb (Ref r) "" then Some errRefIsRequired
  else if String.eqb (Ref r) "main" || String.eqb (Ref r) "master"
       then Some errRefCannotBeMainOrMaster
  else None.

Definition validateHTTP (r : Registry) : option error :=
  if String.eqb (URL r) "" then Some errURLIsRequired
  else if String.eqb (Version r) "" then Some errVersionIsRequired
  else if negb (Contains (URL r) "{{.Version}}") then Some errURLMustContainVersion
  else None.

Definition Validate (r : Registry) : option error :=
  if String.eqb (Type_ r) RegistryTypeLocal then validateLocal r
  else if String.eqb (Type_ r) RegistryTypeGitHubContent then validateGitHubContent r
  else if String.eqb (Type_ r) RegistryTypeHTTP then validateHTTP r
  else Some (ErrWithFields errInvalidRegistryType [("registry_type", Type_ r)]).

(** [UnmarshalYAML]: [unmarshal] is the decoder callback handed in by the
    YAML library.  It receives the copy [a] of the receiver and either fails
    or returns that copy with the fields of the YAML node filled in. *)
Definition set_Type (t : string) (a : Registry) : Registry :=
  mkRegistry (Name a) t (RepoOwner a) (RepoName a) (Ref a) (Path a)
             (Private a) (URL a) (Version a) (Format a).
Definition set_Name (n : string) (a : Registry) : Registry :=
  mkRegistry n (Type_ a) (RepoOwner a) (RepoName a) (Ref a) (Path a)
             (Private a) (URL a) (Version a) (Format a).
Definition set_RepoOwner (o : string) (a : Registry) : Registry :=
  mkRegistry (Name a) (Type_ a) o (RepoName a) (Ref a) (Path a)
             (Private a) (URL a) (Version a) (Format a).
Definition set_RepoName (n : string) (a : Registry) : Registry :=
  mkRegistry (Name a) (Type_ a) (RepoOwner a) n (Ref a) (Path a)
             (Private a) (URL a) (Version a) (Format a).
Definition set_Path (p : string) (a : Registry) : Registry :=
  mkRegistry (Name a) (Type_ a) (RepoOwner a) (RepoName a) (Ref a) p
             (Private a) (URL a) (Version a) (Format a).

Definition UnmarshalYAML (r : Registry) (unmarshal : Registry -> result Registry)
  : result Registry :=
  let a := r in
  match unmarshal a with
  | Err err => Err err
  | Ok a =>
      if String.eqb (Type_ a) RegistryTypeStandard then
        let a := set_Type RegistryTypeGitHubContent a in
        let a := if String.eqb (Name a) "" then set_Name RegistryTypeStandard a else a in
        let a := if String.eqb (RepoOwner a) "" then set_RepoOwner "aquaproj" a else a in
        let a := if String.eqb (RepoName a) "" then set_RepoName "aqua-registry" a else a in
        let a := if String.eqb (Path a) "" then set_Path "registry.yaml" a else a in
        Ok a
      else Ok a
  end.

(** Modelled from the spec: [osfile.Abs] is declared in a package that is
    not part of the sources.  A local registry is referenced in place: an
    absolute path as it is, a relative one relative to the directory of the
    configuration file. *)
Definition osfile_Abs (wd p : string) : string :=
  match p with
  | String c _ => if Filepath.IsPathSeparator c then p else Filepath.Join [wd; p]
  | EmptyString => Filepath.Join [wd; p]
  end.

Definition FilePath (r : Registry) (rootDir cfgFilePath : string) : result string :=
  if String.eqb (Type_ r) RegistryTypeLocal then
    Ok (osfile_Abs (Filepath.Dir cfgFilePath) (Path r))
  else if String.eqb (Type_ r) RegistryTypeGitHubContent then
    Ok (Filepath.Join [rootDir; "registries"; Type_ r; "github.com";
                       RepoOwner r; RepoName r; Ref r; Path r])
  else if String.eqb (Type_ r) RegistryTypeHTTP then
    let urlHash := Sha256.Sum256 (bytes_of_string (URL r)) in
    let hashStr := String.substring 0 16 (hex_EncodeToString urlHash) in
    let registryFileName :=
      if negb (String.eqb (Path r) "") then Filepath.Base (Path r)
      else "registry.yaml" in
    Ok (Filepath.Join [rootDir; "registries"; Type_ r; hashStr; Version r;
                       registryFileName])
  else Err errInvalidRegistryType.

End Aqua.

(** * State passing

    Effectful Go code is embedded in a state monad over the part of the world
    it touches; [x <- m ;; k] sequences two steps. *)

Definition State (S A : Type) : Type := S -> A * S.

Definition ret {S A : Type} (a : A) : State S A := fun s => (a, s).

Definition bind {S A B : Type} (m : State S A) (k : A -> State S B) : State S B :=
  fun s => let (a, s') := m s in k a s'.

Declare Scope state_scope.
Delimit Scope state_scope with state.
Notation "'let*' x := m 'in' k" := (bind m (fun x => k))
  (at level 10, x name, m at level 100, k at level 200) : state_scope.
Notation "'let*' ' pat := m 'in' k" := (bind m (fun x => match x with pat => k end))
  (at level 10, pat pattern, m at level 100, k at level 200) : state_scope.
Notation "'do' m 'in' k" := (bind m (fun _ => k))
  (at level 10, m at level 100, k at level 200) : state_scope.

(** * pkg/controller/exec: the retry loop of the exec controller *)

Module Exec.

Local Open Scope state_scope.

(** What the controller does to the outside world, in order. *)
Inductive event : Type :=
| EvExec (exePath : string) (args : list string)
| EvExecXSys (exePath : string) (args : list string)
| EvWait (milliseconds : Z).

(** The world as the loop sees it: a logical clock that advances by one
    with every executor call and every wait, and the log of events. *)
Record World : Type := mkWorld { now : nat; trace : list event }.

(** [context.Context]: the value of [ctx.Err()] at each instant. *)
Definition Context : Type := nat -> option error.

(** The [Executor] interface; the outcome of a call may depend on when it
    is made. *)
Record Executor : Type := mkExecutor {
  Exec : nat -> string -> list string -> Z * option error;
  ExecXSys : nat -> string -> list string -> option error
}.

Record Controller : Type := mkController {
  executor : Executor;
  enabledXSysExec : bool
}.

Definition call_Exec (ex : Executor) (exePath : string) (args : list string)
  : State World (Z * option error) :=
  fun w => (Exec ex (now w) exePath args,
            mkWorld (S (now w)) (trace w ++ [EvExec exePath args])%list).

Definition call_ExecXSys (ex : Executor) (exePath : string) (args : list string)
  : State World (option error) :=
  fun w => (ExecXSys ex (now w) exePath args,
            mkWorld (S (now w)) (trace w ++ [EvExecXSys exePath args])%list).

Definition ctx_Err (ctx : Context) : State World (option error) :=
  fun w => (ctx (now w), w).

(** [wait]: the timer and [ctx.Done()] race; the context wins when it is
    done by the time the timer fires. *)
Definition wait (ctx : Context) (milliseconds : Z) : State World (option error) :=
  fun w => (ctx (S (now w)),
            mkWorld (S (now w)) (trace w ++ [EvWait milliseconds])%list).

Definition errFailedToStartProcess : error := ErrNew "it failed to start the process".

Definition execCommand (ctrl : Controller) (ctx : Context) (exePath : string)
           (args : list string) : State World (bool * option error) :=
  if enabledXSysExec ctrl then
    let* err := call_ExecXSys (executor ctrl) exePath args in
    match err with
    | Some err => ret (true, Some (ErrWrap "call execve(2)" err))
    | None => ret (false, None)
    end
  else
    let* '(exitCode, err) := call_Exec (executor ctrl) exePath args in
    match err with
    | Some err =>
        let* ctxErr := ctx_Err ctx in
        if (exitCode =? -1)%Z && bool_decide (ctxErr = None)
        then ret (true, Some (ErrWrap "execute a command" err))
        else ret (false, Some (ErrExitCode err exitCode))
    | None => ret (false, None)
    end.

(** The [for i := 0; i < 10; i++] loop, by the number of iterations left. *)
Fixpoint retry_loop (ctrl : Controller) (ctx : Context) (exePath : string)
         (args : list string) (left : nat) : State World (option error) :=
  match left with
  | O => ret (Some errFailedToStartProcess)
  | S left' =>
      let* '(retried, err) := execCommand ctrl ctx exePath args in
      if negb retried then ret err
      else
        let* werr := wait ctx 10 in
        match werr with
        | Some werr => ret (Some werr)
        | None => retry_loop ctrl ctx exePath args left'
        end
  end.

Definition execCommandWithRetry (ctrl : Controller) (ctx : Context)
           (exePath : string) (args : list string) : State World (option error) :=
  retry_loop ctrl ctx exePath args 10.

End Exec.

(** * pkg/download: GitHub release assets *)

Module Download.

Local Open Scope state_scope.

(** An [io.ReadCloser] is identified with the bytes it yields. *)
Definition ReadCloser : Type := string.

(** [github.ReleaseAsset]: both fields are pointers; the getters return the
    zero value for [nil]. *)
Record ReleaseAsset : Type := mkAsset { ID : option Z; Name : option string }.
Definition GetName (a : ReleaseAsset) : string := default "" (Name a).
Definition GetID (a : ReleaseAsset) : Z := default 0%Z (ID a).

Record RepositoryRelease : Type := mkRelease { Assets : list ReleaseAsset }.

(** The [HTTPDownloader] and [RepositoryService] interfaces. *)
Record HTTPDownloader : Type := mkHTTP {
  http_Download : string -> option ReadCloser * option error
}.

Record RepositoryService : Type := mkGitHub {
  gh_GetReleaseByTag : string -> string -> string -> result RepositoryRelease;
  gh_DownloadReleaseAsset :
    string -> string -> Z -> option ReadCloser * string * option error
}.

Record pkgDownloader : Type := mkDownloader {
  github : option RepositoryService;
  http : HTTPDownloader
}.

(** The calls made on the two interfaces, in order. *)
Inductive event : Type :=
| EvHTTPDownload (url : string)
| EvClose (body : ReadCloser)
| EvGetReleaseByTag (owner repoName version : string)
| EvDownloadReleaseAsset (owner repoName : string) (assetID : Z).

Definition emit (e : event) : State (list event) unit :=
  fun t => (tt, (t ++ [e])%list).

Definition call_Download (h : HTTPDownloader) (url : string)
  : State (list event) (option ReadCloser * option error) :=
  do emit (EvHTTPDownload url) in ret (http_Download h url).

Definition close_if_open (b : option ReadCloser) : State (list event) unit :=
  match b with
  | Some b => emit (EvClose b)
  | None => ret tt
  end.

(** Modelled from the spec: the [GitHubTokenRequired] error of the error
    taxonomy.  The variable [errGitHubTokenIsRequired] is declared in a file
    that is not part of the sources; only its identity matters here. *)
Definition errGitHubTokenIsRequired : error := ErrNew "GitHubTokenRequired".

Fixpoint getAssetIDFromAssets (assets : list ReleaseAsset) (assetName : string)
  : result Z :=
  match assets with
  | [] => Err (ErrFmt ("the asset isn't found: " +:+ assetName))
  | asset :: rest =>
      if String.eqb (GetName asset) assetName then Ok (GetID asset)
      else getAssetIDFromAssets rest assetName
  end.

Definition release_url (owner repoName version assetName : string) : string :=
  "https://github.com/" +:+ owner +:+ "/" +:+ repoName +:+
  "/releases/download/" +:+ version +:+ "/" +:+ assetName.

(** The Go function returns [(io.ReadCloser, error)]; both components are
    kept, [None] standing for [nil]. *)
Definition downloadFromGitHubRelease (downloader : pkgDownloader)
           (owner repoName version assetName : string)
  : State (list event) (option ReadCloser * option error) :=
  let* '(b, err) := call_Download (http downloader)
                      (release_url owner repoName version assetName) in
  match err with
  | None => ret (b, None)
  | Some _ =>
      do close_if_open b in
      match github downloader with
      | None => ret (None, Some errGitHubTokenIsRequired)
      | Some gh =>
          do emit (EvGetReleaseByTag owner repoName version) in
          match gh_GetReleaseByTag gh owner repoName version with
          | Err err => ret (None, Some (ErrWrap "get the GitHub Release by Tag" err))
          | Ok release =>
              match getAssetIDFromAssets (Assets release) assetName with
              | Err err => ret (None, Some err)
              | Ok assetID =>
                  do emit (EvDownloadReleaseAsset owner repoName assetID) in
                  match gh_DownloadReleaseAsset gh owner repoName assetID with
                  | (_, _, Some err) =>
                      ret (None,
                           Some (ErrWrap ("download the release asset (asset id: "
                                          +:+ pretty assetID +:+ ")") err))
                  | (Some body, _, None) => ret (Some body, None)
                  | (None, redirectURL, None) =>
                      let* '(b, err) := call_Download (http downloader) redirectURL in
                      match err with
                      | Some err =>
                          do close_if_open b in
                          ret (None, Some (ErrWrap "download asset from redirect URL" err))
                      | None => ret (b, None)
                      end
                  end
              end
          end
      end
  end.

End Download.

(** * The filesystem

    An in-memory filesystem in the style of afero's [MemMapFs], extended
    with the link operations of the [Linker] interface.  Directory entries
    are keyed by the path string exactly as the caller passes it (the code
    below only passes paths built with [filepath.Join]); a regular file is
    an entry pointing at an inode, so that two hard links are two entries
    with the same inode.  An operation fails only for a reason that is
    visible in the map: a missing entry, an entry in the way, a directory
    that is not empty. *)

Module Fs.

Local Open Scope state_scope.

Inductive node : Type :=
| Dir
| NamedPipe
| Regular (ino : N)
| Symlink (target : string)
| Socket.

Global Instance node_eq_dec : EqDecision node.
Proof. solve_decision. Defined.

Record fs : Type := mkFs {
  entries : gmap string node;
  data : gmap N (list N);
  next_ino : N
}.

Definition with_entries (f : fs) (m : gmap string node) : fs :=
  mkFs m (data f) (next_ino f).

(** [os.FileMode] bits. *)
Definition FileMode : Type := N.
Definition ModeDir : FileMode := N.shiftl 1 31.
Definition ModeSymlink : FileMode := N.shiftl 1 27.
Definition ModeDevice : FileMode := N.shiftl 1 26.
Definition ModeNamedPipe : FileMode := N.shiftl 1 25.
Definition ModeSocket : FileMode := N.shiftl 1 24.
Definition ModeCharDevice : FileMode := N.shiftl 1 21.
Definition ModeIrregular : FileMode := N.shiftl 1 19.
Definition ModeType : FileMode :=
  N.lor ModeDir (N.lor ModeSymlink (N.lor ModeNamedPipe (N.lor ModeSocket
    (N.lor ModeDevice (N.lor ModeCharDevice ModeIrregular))))).

Definition IsDir (m : FileMode) : bool := negb (N.land m ModeDir =? 0)%N.
Definition IsRegular (m : FileMode) : bool := (N.land m ModeType =? 0)%N.

(** Permission bits [rwxr-xr-x], [rw-r--r--] and [rwxrwxrwx]. *)
Definition perm755 : FileMode := 0x1ed%N.
Definition perm644 : FileMode := 0x1a4%N.
Definition perm777 : FileMode := 0x1ff%N.

Definition mode_of (n : node) : FileMode :=
  match n with
  | Dir => N.lor ModeDir perm755
  | NamedPipe => N.lor ModeNamedPipe perm644
  | Regular _ => perm644
  | Symlink _ => N.lor ModeSymlink perm777
  | Socket => N.lor ModeSocket perm755
  end.

(** [FileMode.String]: the letters of the type bits that are set, or [-],
    followed by the nine permission bits. *)
Fixpoint mode_letters (letters : list ascii) (bit : nat) (m : FileMode) : list ascii :=
  match letters, bit with
  | c :: rest, S bit' =>
      if N.testbit m (N.of_nat bit') then c :: mode_letters rest bit' m
      else mode_letters rest bit' m
  | _, _ => []
  end.

Fixpoint perm_letters (letters : list ascii) (bit : nat) (m : FileMode) : list ascii :=
  match letters, bit with
  | c :: rest, S bit' =>
      (if N.testbit m (N.of_nat bit') then c else "-"%char) :: perm_letters rest bit' m
  | _, _ => []
  end.

Definition FileMode_String (m : FileMode) : string :=
  let kind := mode_letters (list_ascii_of_string "dalTLDpSugct?") 32 m in
  string_of_list_ascii
    ((match kind with [] => ["-"%char] | _ => kind end)
     ++ perm_letters (list_ascii_of_string "rwxrwxrwx") 9 m).

Definition errNotExist (op path : string) : error :=
  ErrWrap (op +:+ " " +:+ path) (ErrNew "file does not exist").
Definition errExist (op path : string) : error :=
  ErrWrap (op +:+ " " +:+ path) (ErrNew "file already exists").
Definition errInvalid (op path : string) : error :=
  ErrWrap (op +:+ " " +:+ path) (ErrNew "invalid argument").
Definition errNotEmpty (op path : string) : error :=
  ErrWrap (op +:+ " " +:+ path) (ErrNew "directory not empty").

(** [k] is an entry of directory [dir]: joining [dir] with the base name of
    [k] gives [k] back. *)
Definition is_child (dir k : string) : bool :=
  bool_decide (Filepath.Join [dir; Filepath.Base k] = k) && negb (String.eqb k dir).

Definition children (dir : string) (f : fs) : list string :=
  filter (fun k => is_child dir k = true) (map_to_list (entries f)).*1.

(** [Linker.Lstat]: the mode of the entry itself; links are not followed. *)
Definition Lstat (path : string) : State fs (result FileMode) :=
  fun f => (match entries f !! path with
            | Some n => Ok (mode_of n)
            | None => Err (errNotExist "lstat" path)
            end, f).

Definition Readlink (path : string) : State fs (result string) :=
  fun f => (match entries f !! path with
            | Some (Symlink target) => Ok target
            | Some _ => Err (errInvalid "readlink" path)
            | None => Err (errNotExist "readlink" path)
            end, f).

Definition Symlink_ (oldname newname : string) : State fs (option error) :=
  fun f => match entries f !! newname with
           | Some _ => (Some (errExist "symlink" newname), f)
           | None => (None, with_entries f (<[newname := Symlink oldname]> (entries f)))
           end.

Definition Hardlink (oldname newname : string) : State fs (option error) :=
  fun f => match entries f !! oldname with
           | None => (Some (errNotExist "link" oldname), f)
           | Some Dir => (Some (errInvalid "link" oldname), f)
           | Some n =>
               match entries f !! newname with
               | Some _ => (Some (errExist "link" newname), f)
               | None => (None, with_entries f (<[newname := n]> (entries f)))
               end
           end.

Definition Remove (path : string) : State fs (option error) :=
  fun f => match entries f !! path with
           | None => (Some (errNotExist "remove" path), f)
           | Some n =>
               if bool_decide (n = Dir) && negb (bool_decide (children path f = []))
               then (Some (errNotEmpty "remove" path), f)
               else (None, with_entries f (delete path (entries f)))
           end.

(** [afero.Exists] *)
Definition Exists (path : string) : State fs (bool * option error) :=
  fun f => ((bool_decide (is_Some (entries f !! path)), None), f).

Definition string_le (a b : string) : Prop := String.leb a b = true.
Global Instance string_le_dec : RelDecision string_le.
Proof. intros a b. unfold string_le. apply _. Defined.

(** [afero.ReadDir]: the names of the entries of a directory, sorted. *)
Definition ReadDir (dir : string) : State fs (result (list string)) :=
  fun f => (match entries f !! dir with
            | Some Dir => Ok (merge_sort string_le (Filepath.Base <$> children dir f))
            | Some _ => Err (errInvalid "readdir" dir)
            | None => Err (errNotExist "open" dir)
            end, f).

(** [Fs.Create]: create or truncate a regular file. *)
Definition Create (path : string) : State fs (option error) :=
  fun f => match entries f !! path with
           | None =>
               (None, mkFs (<[path := Regular (next_ino f)]> (entries f))
                           (<[next_ino f := []]> (data f)) (N.succ (next_ino f)))
           | Some (Regular i) => (None, mkFs (entries f) (<[i := []]> (data f)) (next_ino f))
           | Some _ => (Some (errInvalid "open" path), f)
           end.

(** [afero.WriteFile] *)
Definition WriteFile (path : string) (content : list N) : State fs (option error) :=
  fun f => match entries f !! path with
           | None =>
               (None, mkFs (<[path := Regular (next_ino f)]> (entries f))
                           (<[next_ino f := content]> (data f)) (N.succ (next_ino f)))
           | Some (Regular i) =>
               (None, mkFs (entries f) (<[i := content]> (data f)) (next_ino f))
           | Some _ => (Some (errInvalid "open" path), f)
           end.

(** [afero.ReadFile]: on success the slice is never [nil], also for an
    empty file. *)
Definition ReadFile (path : string) : State fs (option (list N) * option error) :=
  fun f => (match entries f !! path with
            | Some (Regular i) => (Some (default [] (data f !! i)), None)
            | Some _ => (None, Some (errInvalid "read" path))
            | None => (None, Some (errNotExist "open" path))
            end, f).

(** The directory itself and every directory above it. *)
Fixpoint ancestors (fuel : nat) (path : string) : list string :=
  match fuel with
  | O => [path]
  | S fuel' =>
      let parent := Filepath.Dir path in
      if String.eqb parent path then [path] else path :: ancestors fuel' parent
  end.

Definition MkdirAll (path : string) : State fs (option error) :=
  fun f =>
    let dirs := ancestors (String.length path) path in
    if forallb (fun d => match entries f !! d with
                         | None | Some Dir => true
                         | Some _ => false
                         end) dirs
    then (None, with_entries f (foldr (fun d m => <[d := Dir]> m) (entries f) dirs))
    else (Some (errInvalid "mkdir" path), f).

Definition is_under (dir k : string) : bool :=
  String.eqb k dir || String.prefix (dir +:+ "/") k.

Definition RemoveAll (path : string) : State fs (option error) :=
  fun f => (None, with_entries f (filter (fun kv => is_under path kv.1 = false) (entries f))).

End Fs.

(** * pkg/installpackage: the link layout *)

Module InstallPackage.

Import Fs.
Local Open Scope state_scope.

Record File : Type := mkFile { file_Name : string }.
Record PackageInfo : Type := mkPackageInfo { GetFiles : list File }.
Record Package : Type := mkPackage { PackageInfo_ : PackageInfo }.

(** The installer's root directory and [runtime.GOOS]; its [fs] and
    [linker] fields are the filesystem state. *)
Record Installer : Type := mkInstaller { rootDir : string; GOOS : string }.

(** Modelled from the spec: the constant [proxyName] is declared in a file
    that is not part of the sources; the filesystem layout names the proxy
    binary [aqua-proxy], as [replaceWithHardlinks] below does literally. *)
Definition proxyName : string := "aqua-proxy".

(** Modelled from the spec: [isWindows] is declared in a file that is not
    part of the sources; it recognises the Windows value of [GOOS]. *)
Definition isWindows (goos : string) : bool := String.eqb goos "windows".

Definition createHardLink (linkPath linkDest : string) : State fs (option error) :=
  let* err := Hardlink linkDest linkPath in
  match err with
  | Some err => ret (Some (ErrWrap "create a hard link" err))
  | None => ret None
  end.

Definition recreateLink (linkPath linkDest : string) : State fs (option error) :=
  let* r := Readlink linkPath in
  match r with
  | Err err => ret (Some (ErrWrap ("read a symbolic link (" +:+ linkPath +:+ ")") err))
  | Ok lnDest =>
      if String.eqb linkDest lnDest then ret None
      else
        let* err := Remove linkPath in
        match err with
        | Some err =>
            ret (Some (ErrWrap ("remove a symbolic link (" +:+ linkPath +:+ ")") err))
        | None =>
            let* err := Symlink_ linkDest linkPath in
            match err with
            | Some err => ret (Some (ErrWrap "create a symbolic link" err))
            | None => ret None
            end
        end
  end.

Definition createLink (linkPath linkDest : string) : State fs (option error) :=
  let* r := Lstat linkPath in
  match r with
  | Ok mode =>
      if IsDir mode then
        ret (Some (ErrFmt (linkPath +:+ " has already existed and is a directory")))
      else if negb (N.land mode ModeNamedPipe =? 0)%N then
        ret (Some (ErrFmt (linkPath +:+ " has already existed and is a named pipe")))
      else if IsRegular mode then
        let* err := Remove linkPath in
        match err with
        | Some err =>
            ret (Some (ErrWrap ("remove a file to create a symbolic link ("
                                +:+ linkPath +:+ ")") err))
        | None =>
            let* err := Symlink_ linkDest linkPath in
            match err with
            | Some err => ret (Some (ErrWrap "create a symbolic link" err))
            | None => ret None
            end
        end
      else if negb (N.land mode ModeSymlink =? 0)%N then
        recreateLink linkPath linkDest
      else
        ret (Some (ErrFmt ("unexpected file mode " +:+ linkPath +:+ ": "
                           +:+ FileMode_String mode)))
  | Err _ =>
      let* err := Symlink_ linkDest linkPath in
      match err with
      | Some err => ret (Some (ErrWrap "create a symbolic link" err))
      | None => ret None
      end
  end.

(** The inner loop of [createLinks], over the files of one package. *)
Fixpoint createLinks_files (inst : Installer) (files : list File) (failed : bool)
  : State fs bool :=
  match files with
  | [] => ret failed
  | file :: rest =>
      if isWindows (GOOS inst) then
        let* err := createHardLink
                      (Filepath.Join [rootDir inst; "bin"; file_Name file +:+ ".exe"])
                      (Filepath.Join [rootDir inst; proxyName +:+ ".exe"]) in
        createLinks_files inst rest (match err with Some _ => true | None => failed end)
      else
        let* err := createLink (Filepath.Join [rootDir inst; "bin"; file_Name file])
                               (Filepath.Join [".."; proxyName]) in
        createLinks_files inst rest (match err with Some _ => true | None => failed end)
  end.

Fixpoint createLinks_pkgs (inst : Installer) (pkgs : list Package) (failed : bool)
  : State fs bool :=
  match pkgs with
  | [] => ret failed
  | pkg :: rest =>
      let* failed := createLinks_files inst (GetFiles (PackageInfo_ pkg)) failed in
      createLinks_pkgs inst rest failed
  end.

Definition createLinks (inst : Installer) (pkgs : list Package) : State fs bool :=
  createLinks_pkgs inst pkgs false.

(** The loop of [replaceWithHardlinks] over the entries of [bin]. *)
Fixpoint replace_entries (binDir proxy : string) (infos : list string)
  : State fs (option error) :=
  match infos with
  | [] => ret None
  | info :: rest =>
      let p := Filepath.Join [binDir; info] in
      let* err := Remove p in
      match err with
      | Some err =>
          ret (Some (ErrWrap "remove a file to replace it with a hard link" err))
      | None =>
          let* err := Hardlink proxy p in
          match err with
          | Some err => ret (Some (ErrWrap "create a hard link" err))
          | None => replace_entries binDir proxy rest
          end
      end
  end.

Definition replaceWithHardlinks (inst : Installer) : State fs (option error) :=
  let hardlinkFile := Filepath.Join [rootDir inst; "hardlink"] in
  let* '(f, err) := Exists hardlinkFile in
  match err with
  | Some err => ret (Some (ErrWrap "check if a hardlink flag exists" err))
  | None =>
      if f : bool then ret None
      else
        let binDir := Filepath.Join [rootDir inst; "bin"] in
        let* r := ReadDir binDir in
        match r with
        | Err err => ret (Some (ErrWrap "read a bin dir" err))
        | Ok infos =>
            let proxy := Filepath.Join [rootDir inst; "aqua-proxy"] in
            let* err := replace_entries binDir proxy infos in
            match err with
            | Some err => ret (Some err)
            | None =>
                let* err := Create hardlinkFile in
                match err with
                | Some err => ret (Some (ErrWrap "create a hardlink flag" err))
                | None => ret None
                end
            end
        end
  end.

End InstallPackage.

(** * pkg/install-registry: HTTP registries *)

Module InstallRegistry.

Import Fs.
Local Open Scope state_scope.

(** Modelled from the spec: [isJSON] is declared in a file that is not part
    of the sources; a registry file is parsed as JSON when its name ends in
    [.json] and as YAML otherwise. *)
Definition isJSON (path : string) : bool :=
  let n := String.length path in
  (5 <=? n)%nat && String.eqb (String.substring (n - 5) 5 path) ".json".

(** [fmt]'s [%v] of a [[]string]. *)
Definition fmt_v (l : list string) : string :=
  "[" +:+ Filepath.strings_Join l " " +:+ "]".

Section Installer.

(** The parsed registry and the two decoders. *)
Context {Config : Type}.
Variable json_Unmarshal : list N -> result Config.
Variable yaml_Unmarshal : list N -> result Config.

(** [unarchive.Unarchive(ctx, logE, &File{Body, Filename, Type}, dest)]: an
    arbitrary operation on the filesystem, given the path of the archive,
    its declared type and the destination directory. *)
Variable Unarchive : string -> string -> string -> State fs (option error).

(** [template.Execute(url, {"Version": version})], the HTTP download whose
    body [io.ReadAll] then reads or fails to read, and the registry checksum
    check. *)
Variable template_Execute : string -> string -> result string.
Variable http_Download : string -> result (result (list N)).
Context {Checksums : Type}.
Variable CheckRegistry : Aqua.Registry -> Checksums -> list N -> option error.

Definition saveHTTPRegistry (regist : Aqua.Registry) (registryFilePath : string)
           (content : list N) : State fs (result Config) :=
  let* err := WriteFile registryFilePath content in
  match err with
  | Some err => ret (Err (ErrWrap "write the registry file" err))
  | None =>
      if isJSON registryFilePath then
        match json_Unmarshal content with
        | Err err =>
            ret (Err (ErrWrap "parse the registry configuration file as JSON" err))
        | Ok registryContent => ret (Ok registryContent)
        end
      else
        match yaml_Unmarshal content with
        | Err err =>
            ret (Err (ErrWrap "parse the registry configuration file as YAML" err))
        | Ok registryContent => ret (Ok registryContent)
        end
  end.

(** The candidate paths inside the extracted archive. *)
Definition searchPaths (regist : Aqua.Registry) : list string :=
  let registryFileName :=
    if negb (String.eqb (Aqua.Path regist) "") then Filepath.Base (Aqua.Path regist)
    else "registry.yaml" in
  let searchPaths := [registryFileName] in
  if String.eqb (Aqua.Path regist) "" then (searchPaths ++ ["registry.yml"])%list
  else [Aqua.Path regist].

(** The search loop: [extractedContent] and [foundPath] after the loop.
    [None] is the [nil] slice. *)
Fixpoint find_registry_file (extractDir : string) (paths : list string)
  : State fs (option (list N) * string) :=
  match paths with
  | [] => ret (None, "")
  | searchPath :: rest =>
      let fullPath := Filepath.Join [extractDir; searchPath] in
      let* '(data, err) := ReadFile fullPath in
      match err with
      | None => ret (data, fullPath)
      | Some _ => find_registry_file extractDir rest
      end
  end.

Definition errRegistryFileNotFound (paths : list string) : error :=
  ErrFmt ("registry file not found in archive (searched: " +:+ fmt_v paths +:+ ")").

Definition extractHTTPRegistryArchive (regist : Aqua.Registry)
           (registryFilePath : string) (content : list N) : State fs (result Config) :=
  let tempDir := Filepath.Join [Filepath.Dir registryFilePath; ".tmp"] in
  let* err := MkdirAll tempDir in
  match err with
  | Some err => ret (Err (ErrWrap "create temporary directory" err))
  | None =>
      (* defer is.fs.RemoveAll(tempDir) *)
      let* r :=
        (let archiveExt := Aqua.Format regist in
         let tempArchivePath := Filepath.Join [tempDir; "registry." +:+ archiveExt] in
         let* err := WriteFile tempArchivePath content in
         match err with
         | Some err => ret (Err (ErrWrap "write temporary archive file" err))
         | None =>
             let extractDir := Filepath.Join [tempDir; "extract"] in
             let* err := MkdirAll extractDir in
             match err with
             | Some err => ret (Err (ErrWrap "create extraction directory" err))
             | None =>
                 let* err := Unarchive tempArchivePath (Aqua.Format regist) extractDir in
                 match err with
                 | Some err => ret (Err (ErrWrap "unarchive registry" err))
                 | None =>
                     let* '(extractedContent, foundPath) :=
                       find_registry_file extractDir (searchPaths regist) in
                     match extractedContent with
                     | None => ret (Err (errRegistryFileNotFound (searchPaths regist)))
                     | Some extractedContent =>
                         saveHTTPRegistry regist registryFilePath extractedContent
                     end
                 end
             end
         end) in
      do RemoveAll tempDir in
      ret r
  end.

Definition getHTTPRegistry (regist : Aqua.Registry) (registryFilePath : string)
           (checksums : option Checksums) : State fs (result Config) :=
  match template_Execute (Aqua.URL regist) (Aqua.Version regist) with
  | Err err => ret (Err (ErrWrap "render registry URL" err))
  | Ok renderedURL =>
      match http_Download renderedURL with
      | Err err => ret (Err (ErrWrap "download registry from HTTP" err))
      | Ok body =>
          match body with
          | Err err => ret (Err (ErrWrap "read registry content" err))
          | Ok content =>
              match match checksums with
                    | Some checksums => CheckRegistry regist checksums content
                    | None => None
                    end with
              | Some err => ret (Err (ErrWrap "check a registry's checksum" err))
              | None =>
                  let* err := MkdirAll (Filepath.Dir registryFilePath) in
                  match err with
                  | Some err =>
                      ret (Err (ErrWrap
                        "create the parent directory of the registry file" err))
                  | None =>
                      if negb (String.eqb (Aqua.Format regist) "") then
                        extractHTTPRegistryArchive regist registryFilePath content
                      else
                        saveHTTPRegistry regist registryFilePath content
                  end
              end
          end
      end
  end.

End Installer.

End InstallRegistry.

(** * pkg/download: GitHub contents *)

Module DownloadContent.

Import Download.
Local Open Scope state_scope.

(** [github.RepositoryContent], seen through its method [GetContent], and
    the one method of the GitHub client that these functions call,
    [GetContents(ctx, owner, repo, path, {Ref: ref})]: the file, [nil] when
    the path is not a file, and the error. *)
Record RepositoryContent : Type := mkContent { GetContent : result string }.

Record GitHubContentAPI : Type := mkContentAPI {
  gh_GetContents :
    string -> string -> string -> string -> option RepositoryContent * option error
}.

Record registryDownloader : Type := mkRegistryDownloader {
  rd_github : option GitHubContentAPI;
  rd_http : HTTPDownloader
}.

Inductive event : Type :=
| EvDownload (url : string)
| EvCloseBody (body : ReadCloser)
| EvGetContents (owner repoName path ref : string).

Definition emit (e : event) : State (list event) unit :=
  fun t => (tt, (t ++ [e])%list).

Definition call_Download (h : HTTPDownloader) (url : string)
  : State (list event) (option ReadCloser * option error) :=
  do emit (EvDownload url) in ret (http_Download h url).

Definition close_if_open (b : option ReadCloser) : State (list event) unit :=
  match b with
  | Some b => emit (EvCloseBody b)
  | None => ret tt
  end.

(** The variable [errGitHubContentMustBeFile] is declared in a file that is
    not part of the sources; only its identity matters here. *)
Definition errGitHubContentMustBeFile : error := ErrNew "GitHubContentMustBeFile".

Definition raw_url (owner repoName ref path : string) : string :=
  "https://raw.githubusercontent.com/" +:+ owner +:+ "/" +:+ repoName +:+
  "/" +:+ ref +:+ "/" +:+ path.

(** The part that the two functions below share: the Contents API call and
    what is made of its result. *)
Definition get_contents (github : option GitHubContentAPI)
           (owner repoName path ref : string)
  : State (list event) (result string) :=
  match github with
  | None => ret (Err errGitHubTokenIsRequired)
  | Some gh =>
      do emit (EvGetContents owner repoName path ref) in
      match gh_GetContents gh owner repoName path ref with
      | (_, Some err) =>
          ret (Err (ErrWrap
            "get the registry configuration file by Get GitHub Content API" err))
      | (None, None) => ret (Err errGitHubContentMustBeFile)
      | (Some file, None) =>
          match GetContent file with
          | Err err => ret (Err (ErrWrap "get the registry configuration content" err))
          | Ok content => ret (Ok content)
          end
      end
  end.

(** [pkgDownloader.downloadGitHubContent]; [github] and [http] are the
    receiver's two fields.  The reader over the content that the API path
    returns is identified with the content. *)
Definition downloadGitHubContent (github : option GitHubContentAPI)
           (http : HTTPDownloader) (owner repoName version assetName : string)
  : State (list event) (option ReadCloser * option error) :=
  let* '(body, err) := call_Download http (raw_url owner repoName version assetName) in
  match err with
  | None => ret (body, None)
  | Some _ =>
      do close_if_open body in
      let* r := get_contents github owner repoName assetName version in
      match r with
      | Err err => ret (None, Some err)
      | Ok content => ret (Some content, None)
      end
  end.

(** A Go call either returns or panics. *)
Inductive outcome (A : Type) : Type :=
| Returned (a : A)
| Panicked.
Arguments Returned {A} a.
Arguments Panicked {A}.

(** [registryDownloader.GetGitHubContentFile].  [io_ReadAll] is the outcome
    of reading a body to its end.  [defer body.Close()] is registered only
    for a body that is not [nil] and runs when the function returns;
    [io.ReadAll] on a [nil] body panics. *)
Definition GetGitHubContentFile (downloader : registryDownloader)
           (io_ReadAll : ReadCloser -> result string)
           (repoOwner repoName ref path : string)
  : State (list event) (outcome (option string * option error)) :=
  let* '(body, err) := call_Download (rd_http downloader)
                         (raw_url repoOwner repoName ref path) in
  let via_api :=
    let* r := get_contents (rd_github downloader) repoOwner repoName path ref in
    match r with
    | Err err => ret (Returned (None, Some err))
    | Ok content => ret (Returned (Some content, None))
    end in
  let* res :=
    match err with
    | None =>
        match body with
        | None => ret Panicked
        | Some b =>
            match io_ReadAll b with
            | Ok bytes => ret (Returned (Some bytes, None))
            | Err _ => via_api
            end
        end
    | Some _ => via_api
    end in
  do close_if_open body in
  ret res.

End DownloadContent.

(** * pkg/config-finder *)

Module Finder.

(** [strings.Split(s, sep)] for a one-byte separator, and
    [filepath.SplitList] on a Unix-like system. *)
Fixpoint split_on (sep : ascii) (s : string) : list string :=
  match s with
  | EmptyString => [""]
  | String c rest =>
      if Ascii.eqb c sep then "" :: split_on sep rest
      else match split_on sep rest with
           | first :: others => String c first :: others
           | [] => [String c ""]
           end
  end.

Definition SplitList (path : string) : list string :=
  if String.eqb path "" then [] else split_on ":"%char path.

(** The loop of [ParseGlobalConfigFilePaths]: [m] is the set of the paths
    seen, [paths] the result so far. *)
Fixpoint parse_loop (src : list string) (m : gset string) (paths : list string)
  : list string :=
  match src with
  | [] => paths
  | s :: rest =>
      if String.eqb s "" then parse_loop rest m paths
      else if decide (s ∈ m) then parse_loop rest m paths
      else parse_loop rest ({[s]} ∪ m) (paths ++ [s])
  end.

Definition ParseGlobalConfigFilePaths (env : string) : list string :=
  parse_loop (SplitList env) ∅ [].

Definition configFileNames : list string :=
  ["aqua.yaml"; "aqua.yml"; ".aqua.yaml"; ".aqua.yml"].

Definition ErrConfigFileNotFound : error := ErrNew "configuration file isn't found".

(** The finder's [afero.Fs], seen through [Stat]: the error of [Stat(p)],
    and whether an error is a not-exist error. *)
Record FinderFs : Type := mkFinderFs {
  Stat : string -> option error;
  IsNotExist : error -> bool
}.

(** [afero.Exists] *)
Definition afero_Exists (fs : FinderFs) (path : string) : bool * option error :=
  match Stat fs path with
  | None => (true, None)
  | Some err => if IsNotExist fs err then (false, None) else (false, Some err)
  end.

Definition exist (fs : FinderFs) (p : string) : bool :=
  match afero_Exists fs p with
  | (_, Some _) => false
  | (b, None) => b
  end.

Section ConfigFinder.

(** [findconfig.Find] and [findconfig.Finds] of the library go-findconfig,
    given the working directory, the existence test and the file names. *)
Variable findconfig_Find : string -> (string -> bool) -> list string -> string.
Variable findconfig_Finds : string -> (string -> bool) -> list string -> list string.

Fixpoint first_global (fs : FinderFs) (globalConfigFilePaths : list string)
  : result string :=
  match globalConfigFilePaths with
  | [] => Err ErrConfigFileNotFound
  | p :: rest =>
      match Stat fs p with
      | Some _ => first_global fs rest
      | None => Ok p
      end
  end.

Definition Find (fs : FinderFs) (wd configFilePath : string)
           (globalConfigFilePaths : list string) : result string :=
  if negb (String.eqb configFilePath "") then Ok configFilePath
  else
    let configFilePath := findconfig_Find wd (exist fs) configFileNames in
    if negb (String.eqb configFilePath "") then Ok configFilePath
    else first_global fs globalConfigFilePaths.

Definition Finds (fs : FinderFs) (wd configFilePath : string) : list string :=
  if String.eqb configFilePath "" then
    findconfig_Finds wd (exist fs) configFileNames
  else
    (configFilePath :: findconfig_Finds wd (exist fs) configFileNames)%list.

End ConfigFinder.

End Finder.

(** * pkg/cli: the arguments of [aqua exec] *)

Module Cli.

Definition errCommandIsRequired : error := ErrNew "command is required".

Definition parseExecArgs (args : list string) : string * list string * option error :=
  match args with
  | [] => ("", [], Some errCommandIsRequired)
  | arg0 :: rest => (Filepath.Base arg0, rest, None)
  end.

End Cli.

(** * The exec controller: resolve, validate, install, execute *)

Module ExecController.

Import Exec.
Local Open Scope state_scope.

(** [config.Package], by the two fields that [Exec] reads for its log
    fields; the inner package pointer is taken not to be [nil]. *)
Record Package : Type := mkPackage { pkg_Name : string; pkg_Version : string }.

(** [domain.FindResult]; [ChecksumEnabled] and [RequireChecksum] are the
    answers of the two methods of its [Config]. *)
Record FindResult : Type := mkFindResult {
  fr_Package : option Package;
  ExePath : string;
  ConfigFilePath : string;
  ChecksumEnabled : bool;
  RequireChecksum : bool
}.

(** The calls that the controller makes on its collaborators, in order. *)
Inductive call : Type :=
| CallWhich (exeName : string)
| CallReadSecurityConfig (cfgFilePath : string)
| CallValidate (pkg : Package)
| CallChecksumFilePath (cfgFilePath : string)
| CallReadChecksums (checksumFilePath : string)
| CallInstallPackage (pkg : option Package) (checksums requireChecksum : bool)
| CallStat (path : string)
| CallUpdateChecksums (checksumFilePath : string).

(** The collaborators, by the outcome of each call.  [fs_Stat] depends on
    the instant, so that a sibling process may finish an installation while
    the controller waits; [IsOwnerExecutable] is [util.IsOwnerExecutable]. *)
Record Services : Type := mkServices {
  which_Which : string -> result FindResult;
  Getenv : string -> string;
  securityConfigReader_Read : string -> option error;
  securityChecker_Validate : Package -> option error;
  GetChecksumFilePathFromConfigFilePath : string -> result string;
  checksums_ReadFile : string -> option error;
  checksums_UpdateFile : string -> option error;
  packageInstaller_InstallPackage : option Package -> bool -> bool -> option error;
  fs_Stat : nat -> string -> result N;
  IsOwnerExecutable : N -> bool
}.

Record Env : Type := mkEnv { world : World; calls : list call }.

Definition emit (c : call) : State Env unit :=
  fun e => (tt, mkEnv (world e) (calls e ++ [c])%list).

Definition lift {A : Type} (m : State World A) : State Env A :=
  fun e => let (a, w) := m (world e) in (a, mkEnv w (calls e)).

Definition call_Stat (sv : Services) (path : string) : State Env (result N) :=
  fun e => (fs_Stat sv (now (world e)) path,
            mkEnv (world e) (calls e ++ [CallStat path])%list).

(** [logerr.WithFields]: [nil] stays [nil]. *)
Definition logerr_WithFields (err : option error) (fields : list (string * string))
  : option error :=
  match err with
  | Some err => Some (ErrWithFields err fields)
  | None => None
  end.

Definition validate (sv : Services) (pkg : Package) : State Env (option error) :=
  let cfgFilePath := Getenv sv "AQUA_SECURITY_CONFIG" in
  if negb (String.eqb cfgFilePath "") then
    do emit (CallReadSecurityConfig cfgFilePath) in
    match securityConfigReader_Read sv cfgFilePath with
    | Some err => ret (Some (ErrWrap "read the security config file" err))
    | None =>
        do emit (CallValidate pkg) in
        match securityChecker_Validate sv pkg with
        | Some err =>
            ret (Some (ErrWrap "validate the installed package for security" err))
        | None => ret None
        end
    end
  else ret None.

(** The [for i := 0; i < 10; i++] loop of [install], by the number of
    iterations left. *)
Fixpoint poll_loop (sv : Services) (ctx : Context) (exePath : string) (left : nat)
  : State Env (option error) :=
  match left with
  | O => ret None
  | S left' =>
      let* st := call_Stat sv exePath in
      let again :=
        let* werr := lift (wait ctx 10) in
        match werr with
        | Some werr => ret (Some werr)
        | None => poll_loop sv ctx exePath left'
        end in
      match st with
      | Ok mode => if IsOwnerExecutable sv mode then ret None else again
      | Err _ => again
      end
  end.

(** What [install] does once the checksums are set up. *)
Definition install_package (sv : Services) (ctx : Context) (findResult : FindResult)
           (checksums : bool) : State Env (option error) :=
  do emit (CallInstallPackage (fr_Package findResult) checksums
             (RequireChecksum findResult)) in
  match packageInstaller_InstallPackage sv (fr_Package findResult) checksums
          (RequireChecksum findResult) with
  | Some err => ret (Some err)
  | None => poll_loop sv ctx (ExePath findResult) 10
  end.

(** [install]; the deferred [UpdateFile] runs when the function returns,
    and its error is only logged. *)
Definition install (sv : Services) (ctx : Context) (findResult : FindResult)
  : State Env (option error) :=
  if ChecksumEnabled findResult then
    do emit (CallChecksumFilePath (ConfigFilePath findResult)) in
    match GetChecksumFilePathFromConfigFilePath sv (ConfigFilePath findResult) with
    | Err err => ret (Some err)
    | Ok checksumFilePath =>
        do emit (CallReadChecksums checksumFilePath) in
        match checksums_ReadFile sv checksumFilePath with
        | Some err => ret (Some (ErrWrap "read a checksum JSON" err))
        | None =>
            let* res := install_package sv ctx findResult true in
            do emit (CallUpdateChecksums checksumFilePath) in
            ret res
        end
    end
  else install_package sv ctx findResult false.

(** The fields of the logger when [Exec] returns. *)
Definition log_fields (exeName : string) (pkg : option Package)
  : list (string * string) :=
  match pkg with
  | Some pkg => [("exe_name", exeName); ("package", pkg_Name pkg);
                 ("package_version", pkg_Version pkg)]
  | None => [("exe_name", exeName)]
  end.

(** [Controller.Exec] *)
Definition Controller_Exec (sv : Services) (ctrl : Controller) (ctx : Context)
           (exeName : string) (args : list string) : State Env (option error) :=
  do emit (CallWhich exeName) in
  match which_Which sv exeName with
  | Err err => ret (Some err)
  | Ok findResult =>
      let fields := log_fields exeName (fr_Package findResult) in
      let run :=
        let* err := lift (execCommandWithRetry ctrl ctx (ExePath findResult) args) in
        ret (logerr_WithFields err fields) in
      match fr_Package findResult with
      | Some pkg =>
          let* verr := validate sv pkg in
          match verr with
          | Some err => ret (Some err)
          | None =>
              let* ierr := install sv ctx findResult in
              match ierr with
              | Some err => ret (Some (ErrWithFields err fields))
              | None => run
              end
          end
      | None => run
      end
  end.

End ExecController.

(** * The generate controller: the entry written for a package *)

Module Generate.

Definition getGeneratePkg (s : string) : string :=
  if negb (Contains s ",") then "standard," +:+ s else s.

(** [registry.PackageInfo], by the fields that the controller reads and the
    answers of its methods [GetName] and [HasRepo]. *)
Record PackageInfo : Type := mkPackageInfo {
  GetName : string;
  HasRepo : bool;
  RepoOwner : string;
  RepoName : string;
  VersionSource : string;
  VersionFilter : option string
}.

Record FindingPackage : Type := mkFindingPackage {
  PackageInfo_ : PackageInfo;
  RegistryName : string
}.

(** [aqua.Package] *)
Record Package : Type := mkPackage {
  Name : string;
  Registry : string;
  Version : string
}.

Record RepositoryRelease : Type := mkRelease {
  GetPrerelease : bool;
  GetTagName : string
}.

(** The GitHub client, by the answer to each request: a page of releases, a
    page of tag names ([None] for the call without options), and the latest
    release. *)
Record RepositoryService : Type := mkService {
  ListReleases : string -> string -> nat -> result (list RepositoryRelease);
  ListTags : string -> string -> option nat -> result (list string);
  GetLatestRelease : string -> string -> result RepositoryRelease
}.

Definition PerPage : nat := 30.

Section Controller.

(** Package [expr]: a compiled version filter and its evaluation on a tag. *)
Variable Program : Type.
Variable CompileVersionFilter : string -> result Program.
Variable EvaluateVersionFilter : Program -> string -> result bool.

Definition accepted (versionFilter : Program) (tagName : string) : bool :=
  match EvaluateVersionFilter versionFilter tagName with
  | Ok f => f
  | Err _ => false
  end.

(** The inner loops: the first release that is no prerelease and passes the
    filter, and the first tag that passes it. *)
Fixpoint scan_releases (versionFilter : Program) (releases : list RepositoryRelease)
  : option string :=
  match releases with
  | [] => None
  | release :: rest =>
      if GetPrerelease release then scan_releases versionFilter rest
      else if accepted versionFilter (GetTagName release)
           then Some (GetTagName release)
           else scan_releases versionFilter rest
  end.

Fixpoint scan_tags (versionFilter : Program) (tags : list string) : option string :=
  match tags with
  | [] => None
  | tagName :: rest =>
      if accepted versionFilter tagName then Some tagName
      else scan_tags versionFilter rest
  end.

(** The outer [for] loops have no bound of their own: [fuel] bounds the
    number of pages requested, and [None] stands for a loop still running
    when the fuel is spent. *)
Fixpoint releases_loop (fuel : nat) (svc : RepositoryService)
         (repoOwner repoName : string) (versionFilter : Program) (page : nat)
  : option string :=
  match fuel with
  | O => None
  | S fuel' =>
      match ListReleases svc repoOwner repoName page with
      | Err _ => Some ""
      | Ok releases =>
          match scan_releases versionFilter releases with
          | Some tagName => Some tagName
          | None =>
              if negb (length releases =? PerPage)%nat then Some ""
              else releases_loop fuel' svc repoOwner repoName versionFilter (S page)
          end
      end
  end.

Fixpoint tags_loop (fuel : nat) (svc : RepositoryService)
         (repoOwner repoName : string) (versionFilter : Program) (page : nat)
  : option string :=
  match fuel with
  | O => None
  | S fuel' =>
      match ListTags svc repoOwner repoName (Some page) with
      | Err _ => Some ""
      | Ok tags =>
          match scan_tags versionFilter tags with
          | Some tagName => Some tagName
          | None =>
              if negb (length tags =? PerPage)%nat then Some ""
              else tags_loop fuel' svc repoOwner repoName versionFilter (S page)
          end
      end
  end.

(** [listAndGetTagName] and [listAndGetTagNameFromTag]; [versionFilter] is
    the string that [pkgInfo.VersionFilter] points to. *)
Definition listAndGetTagName (fuel : nat) (svc : RepositoryService)
           (pkgInfo : PackageInfo) (versionFilter : string) : option string :=
  match CompileVersionFilter versionFilter with
  | Err _ => Some ""
  | Ok program =>
      releases_loop fuel svc (RepoOwner pkgInfo) (RepoName pkgInfo) program 0
  end.

Definition listAndGetTagNameFromTag (fuel : nat) (svc : RepositoryService)
           (pkgInfo : PackageInfo) (versionFilter : string) : option string :=
  match CompileVersionFilter versionFilter with
  | Err _ => Some ""
  | Ok program =>
      tags_loop fuel svc (RepoOwner pkgInfo) (RepoName pkgInfo) program 0
  end.

(** The end of both [getOutputtedGitHubPkg] and
    [getOutputtedGitHubPkgFromTag]: where the tag goes. *)
Definition set_tag (outputPkg : Package) (pkgInfo : PackageInfo) (tagName : string)
  : Package :=
  let repo := RepoOwner pkgInfo +:+ "/" +:+ RepoName pkgInfo in
  if String.eqb (GetName pkgInfo) repo || String.prefix (repo +:+ "/") (GetName pkgInfo)
  then mkPackage (Name outputPkg +:+ "@" +:+ tagName) (Registry outputPkg) ""
  else mkPackage (Name outputPkg) (Registry outputPkg) tagName.

Definition getOutputtedGitHubPkgFromTag (fuel : nat) (svc : RepositoryService)
           (outputPkg : Package) (pkgInfo : PackageInfo) : option Package :=
  match VersionFilter pkgInfo with
  | Some versionFilter =>
      match listAndGetTagNameFromTag fuel svc pkgInfo versionFilter with
      | Some tagName => Some (set_tag outputPkg pkgInfo tagName)
      | None => None
      end
  | None =>
      match ListTags svc (RepoOwner pkgInfo) (RepoName pkgInfo) None with
      | Err _ => Some outputPkg
      | Ok [] => Some outputPkg
      | Ok (tagName :: _) => Some (set_tag outputPkg pkgInfo tagName)
      end
  end.

Definition getOutputtedGitHubPkg (fuel : nat) (svc : RepositoryService)
           (outputPkg : Package) (pkgInfo : PackageInfo) : option Package :=
  if String.eqb (VersionSource pkgInfo) "github_tag" then
    getOutputtedGitHubPkgFromTag fuel svc outputPkg pkgInfo
  else
    match VersionFilter pkgInfo with
    | Some versionFilter =>
        match listAndGetTagName fuel svc pkgInfo versionFilter with
        | Some tagName => Some (set_tag outputPkg pkgInfo tagName)
        | None => None
        end
    | None =>
        match GetLatestRelease svc (RepoOwner pkgInfo) (RepoName pkgInfo) with
        | Err _ => Some outputPkg
        | Ok release => Some (set_tag outputPkg pkgInfo (GetTagName release))
        end
    end.

(** [getOutputtedPkg]; [gitHubRepositoryService] is the controller's field,
    [None] when it is [nil]. *)
Definition getOutputtedPkg (fuel : nat) (gitHubRepositoryService : option RepositoryService)
           (pkg : FindingPackage) : option Package :=
  let outputPkg :=
    mkPackage (GetName (PackageInfo_ pkg)) (RegistryName pkg) "[SET PACKAGE VERSION]" in
  let outputPkg :=
    if String.eqb (Registry outputPkg) "standard"
    then mkPackage (Name outputPkg) "" (Version outputPkg)
    else outputPkg in
  match gitHubRepositoryService with
  | None => Some outputPkg
  | Some svc =>
      if HasRepo (PackageInfo_ pkg)
      then getOutputtedGitHubPkg fuel svc outputPkg (PackageInfo_ pkg)
      else Some outputPkg
  end.

End Controller.

End Generate.

(** * Specification vocabulary *)

(** [s], or [d] when [s] is empty: how [UnmarshalYAML] fills a field of a
    [standard] registry. *)
Definition or_default (s d : string) : string :=
  if String.eqb s "" then d else s.

(** What the specification says [UnmarshalYAML] makes of a decoded [standard]
    registry: the type is rewritten, four fields are defaulted, the others
    are kept. *)
Definition expand_standard (d : Aqua.Registry) : Aqua.Registry :=
  Aqua.mkRegistry (or_default (Aqua.Name d) "standard") "github_content"
                  (or_default (Aqua.RepoOwner d) "aquaproj")
                  (or_default (Aqua.RepoName d) "aqua-registry")
                  (Aqua.Ref d)
                  (or_default (Aqua.Path d) "registry.yaml")
                  (Aqua.Private d) (Aqua.URL d) (Aqua.Version d) (Aqua.Format d).

(** The registry the YAML node [{type: standard, ref: v2.5.0}] decodes to,
    and what the specification expects after reading. *)
Definition standard_v250 : Aqua.Registry :=
  Aqua.mkRegistry "" "standard" "" "" "v2.5.0" "" false "" "" "".
Definition standard_v250_read : Aqua.Registry :=
  Aqua.mkRegistry "standard" "github_content" "aquaproj" "aqua-registry" "v2.5.0"
                  "registry.yaml" false "" "" "".

(** A decoder for a YAML node that sets every field: it overwrites the
    receiver with [d]. *)
Definition decode_as (d : Aqua.Registry) : Aqua.Registry -> result Aqua.Registry :=
  fun _ => Ok d.

Definition empty_registry : Aqua.Registry :=
  Aqua.mkRegistry "" "" "" "" "" "" false "" "" "".

(** The first 16 hexadecimal characters of the SHA-256 digest of [url]. *)
Definition url_hash16 (url : string) : string :=
  String.substring 0 16 (hex_EncodeToString (Sha256.Sum256 (bytes_of_string url))).

Definition is_hex_digit (c : ascii) : bool :=
  existsb (Ascii.eqb c) (list_ascii_of_string "0123456789abcdef").

(** The HTTP registry of the specification's path-hashing scenario. *)
Definition http_example : Aqua.Registry :=
  Aqua.mkRegistry "" "http" "" "" "" "" false
                  "https://example.com/registry/{{.Version}}/registry.tar.gz"
                  "v1.0.0" "".

(** The exec controller.  An attempt made at instant [t] fails to start
    when the executor reports exit code -1 with an error and the context is
    cancelled neither when it is consulted after the call nor by the end of
    the wait that follows. *)
Definition fails_to_start (ex : Exec.Executor) (ctx : Exec.Context)
           (exePath : string) (args : list string) (t : nat) : Prop :=
  exists err, Exec.Exec ex t exePath args = ((-1)%Z, Some err) /\
              ctx (S t) = None /\ ctx (S (S t)) = None.

(** The events of [k] attempts that failed to start, each followed by its
    10 ms wait. *)
Definition failed_attempts (exePath : string) (args : list string) (k : nat)
  : list Exec.event :=
  concat (repeat [Exec.EvExec exePath args; Exec.EvWait 10] k).

Definition is_attempt (e : Exec.event) : bool :=
  match e with
  | Exec.EvExec _ _ | Exec.EvExecXSys _ _ => true
  | Exec.EvWait _ => false
  end.

(** The number of times the executor was called. *)
Definition attempts (t : list Exec.event) : nat := length (filter (fun e => is_attempt e = true) t).

(** A controller whose executor never manages to start the process, one
    whose executor fails to start twice and then reports exit code 3, and a
    context that is never cancelled. *)
Definition never_starts : Exec.Controller :=
  Exec.mkController
    (Exec.mkExecutor (fun _ _ _ => ((-1)%Z, Some (ErrNew "fork/exec: text file busy")))
                     (fun _ _ _ => None))
    false.

Definition starts_third_time : Exec.Controller :=
  Exec.mkController
    (Exec.mkExecutor
       (fun t _ _ => if (t <? 4)%nat
                     then ((-1)%Z, Some (ErrNew "fork/exec: text file busy"))
                     else (3%Z, Some (ErrNew "exit status 3")))
       (fun _ _ _ => None))
    false.

Definition background : Exec.Context := fun _ => None.

(** The package downloader.  [api_called t] holds when the trace contains a
    call on the GitHub client; [closes b] is the trace of closing a body
    that may be [nil]. *)
Definition is_api_call (e : Download.event) : bool :=
  match e with
  | Download.EvGetReleaseByTag _ _ _ | Download.EvDownloadReleaseAsset _ _ _ => true
  | _ => false
  end.

Definition api_called (t : list Download.event) : bool := existsb is_api_call t.

Definition closes (b : option Download.ReadCloser) : list Download.event :=
  match b with
  | Some b => [Download.EvClose b]
  | None => []
  end.

(** The mock of the specification's fallback scenario: every anonymous
    download answers 404; the Releases API knows the release [v1.0.0] of
    [cli/cli] with the asset [gh.tar.gz], id 42, and serves its body. *)
Definition http_404 : Download.HTTPDownloader :=
  Download.mkHTTP (fun _ => (None, Some (ErrNew "status code >= 400: 404"))).

Definition releases_api : Download.RepositoryService :=
  Download.mkGitHub
    (fun _ _ _ => Ok (Download.mkRelease
                        [Download.mkAsset (Some 41%Z) (Some "checksums.txt");
                         Download.mkAsset (Some 42%Z) (Some "gh.tar.gz")]))
    (fun _ _ id => if (id =? 42)%Z then (Some "asset body", "", None)
                   else (None, "", Some (ErrNew "404 Not Found"))).

Definition with_token : Download.pkgDownloader :=
  Download.mkDownloader (Some releases_api) http_404.

Definition without_token : Download.pkgDownloader :=
  Download.mkDownloader None http_404.

(** The link layout: the files of all packages, where the shim of a file
    lives on Unix-like systems and on Windows, and what it links to. *)
Definition all_files (pkgs : list InstallPackage.Package) : list InstallPackage.File :=
  flat_map (fun pkg => InstallPackage.GetFiles (InstallPackage.PackageInfo_ pkg)) pkgs.

Definition shim (inst : InstallPackage.Installer) (file : InstallPackage.File) : string :=
  Filepath.Join [InstallPackage.rootDir inst; "bin"; InstallPackage.file_Name file].

Definition shim_exe (inst : InstallPackage.Installer) (file : InstallPackage.File) : string :=
  Filepath.Join [InstallPackage.rootDir inst; "bin";
                 InstallPackage.file_Name file +:+ ".exe"].

Definition proxy_exe (inst : InstallPackage.Installer) : string :=
  Filepath.Join [InstallPackage.rootDir inst; "aqua-proxy.exe"].

Definition proxy (inst : InstallPackage.Installer) : string :=
  Filepath.Join [InstallPackage.rootDir inst; "aqua-proxy"].

Definition sentinel (inst : InstallPackage.Installer) : string :=
  Filepath.Join [InstallPackage.rootDir inst; "hardlink"].

Definition bin_dir (inst : InstallPackage.Installer) : string :=
  Filepath.Join [InstallPackage.rootDir inst; "bin"].





(** Two installations under [/root/.aqua] on Linux with one shim, [gh]: one
    that has not been migrated, and one that carries the [hardlink]
    sentinel and whose shim has been removed since. *)
Definition fs_of (l : list (string * Fs.node)) : Fs.fs :=
  Fs.mkFs (list_to_map l) ∅ 100.

Definition on_linux : InstallPackage.Installer :=
  InstallPackage.mkInstaller "/root/.aqua" "linux".

Definition gh : InstallPackage.File := InstallPackage.mkFile "gh".

Definition gh_package : InstallPackage.Package :=
  InstallPackage.mkPackage (InstallPackage.mkPackageInfo [gh]).

Definition before_migration : Fs.fs :=
  fs_of [("/root/.aqua", Fs.Dir);
         ("/root/.aqua/aqua-proxy", Fs.Regular 1);
         ("/root/.aqua/bin", Fs.Dir);
         ("/root/.aqua/bin/gh", Fs.Symlink "../aqua-proxy")].

Definition after_migration : Fs.fs :=
  fs_of [("/root/.aqua", Fs.Dir);
         ("/root/.aqua/aqua-proxy", Fs.Regular 1);
         ("/root/.aqua/bin", Fs.Dir);
         ("/root/.aqua/hardlink", Fs.Regular 2)].





(** A stand-in unarchiver for the examples: it unpacks every archive into
    the single file [name] holding the archive's bytes. *)
Definition unpack_as (name : string) (src format dest : string)
  : State Fs.fs (option error) :=
  fun f => match (Fs.ReadFile src f).1 with
           | (Some bytes, None) => Fs.WriteFile (Filepath.Join [dest; name]) bytes f
           | _ => (Some (ErrNew "open the archive"), f)
           end.

Definition tgz_registry : Aqua.Registry :=
  Aqua.mkRegistry "http-registry" "http" "" "" "" "" false
                  "https://example.com/registry/{{.Version}}/registry.tar.gz"
                  "v1.0.0" "tar.gz".

Definition tgz_registry_path : string :=
  "/root/.aqua/registries/http/06eeabea3ca08429/v1.0.0/registry.yaml".



(** A valid [github_content] registry and a registry of an unknown type. *)
Definition pinned_registry : Aqua.Registry :=
  Aqua.mkRegistry "custom" "github_content" "aquaproj" "aqua-registry" "v0.8.0"
                  "foo.yaml" false "" "" "".

(** An attempt through [ExecXSys] made at instant [t] fails and is followed
    by a wait during which the context is not cancelled. *)
Definition execve_fails (ex : Exec.Executor) (ctx : Exec.Context)
           (exePath : string) (args : list string) (t : nat) : Prop :=
  exists err, Exec.ExecXSys ex t exePath args = Some err /\ ctx (S (S t)) = None.

Definition failed_execve (exePath : string) (args : list string) (k : nat)
  : list Exec.event :=
  concat (repeat [Exec.EvExecXSys exePath args; Exec.EvWait 10] k).

(** A controller in x-sys mode whose [execve] fails with [ENOENT], and a
    context that is cancelled from instant 4 on. *)
Definition execve_enoent : Exec.Controller :=
  Exec.mkController
    (Exec.mkExecutor (fun _ _ _ => (0%Z, None))
                     (fun _ _ _ => Some (ErrNew "no such file or directory")))
    true.

Definition cancelled_at_4 : Exec.Context :=
  fun t => if (t <? 4)%nat then None else Some (ErrNew "context canceled").

(** An installation on Windows with the proxy in place and no shim yet, and
    an installation whose [bin] directory is missing. *)
Definition on_windows : InstallPackage.Installer :=
  InstallPackage.mkInstaller "/root/.aqua" "windows".

Definition windows_fs : Fs.fs :=
  fs_of [("/root/.aqua", Fs.Dir);
         ("/root/.aqua/aqua-proxy.exe", Fs.Regular 1);
         ("/root/.aqua/bin", Fs.Dir)].

Definition no_bin_dir : Fs.fs :=
  fs_of [("/root/.aqua", Fs.Dir);
         ("/root/.aqua/aqua-proxy", Fs.Regular 1)].

(** An HTTP registry served as a plain YAML file, and stand-ins for the
    template engine, the HTTP client and the decoders. *)
Definition plain_registry : Aqua.Registry :=
  Aqua.mkRegistry "http-registry" "http" "" "" "" "" false
                  "https://example.com/registry/{{.Version}}/registry.yaml"
                  "v1.0.0" "".

Definition plain_registry_path : string :=
  "/root/.aqua/registries/http/136a89ecf9f4dad9/v1.0.0/registry.yaml".

Definition render_v1 (url version : string) : result string :=
  Ok "https://example.com/registry/v1.0.0/registry.yaml".

Definition serve (content : list N) (url : string) : result (result (list N)) :=
  Ok (Ok content).

Definition keep_bytes (content : list N) : result (list N) := Ok content.

Definition reject_bytes (content : list N) : result (list N) :=
  Err (ErrNew "yaml: unmarshal errors").

Definition no_checksum (r : Aqua.Registry) (c : unit) (content : list N) : option error :=
  None.

(** [x] stands before [y] in the list [l]. *)
Definition precedes {A : Type} (x y : A) (l : list A) : Prop :=
  exists l1 l2 l3, l = (l1 ++ x :: l2 ++ y :: l3)%list.

(** A filesystem in which only [/etc/aqua.yaml] exists, and a
    [findconfig.Find] that finds nothing. *)
Definition only_etc : Finder.FinderFs :=
  Finder.mkFinderFs
    (fun p => if String.eqb p "/etc/aqua.yaml" then None
              else Some (ErrNew "file does not exist"))
    (fun _ => true).

Definition finds_nothing (wd : string) (exist : string -> bool) (names : list string)
  : string := "".

(** The Contents API of the test of [GetGitHubContentFile]: it serves the
    content [foo]; the anonymous download answers 400 with a body. *)
Definition contents_foo : DownloadContent.GitHubContentAPI :=
  DownloadContent.mkContentAPI
    (fun _ _ _ _ => (Some (DownloadContent.mkContent (Ok "foo")), None)).

Definition http_400 : Download.HTTPDownloader :=
  Download.mkHTTP (fun _ => (Some "invalid request", Some (ErrNew "status code >= 400: 400"))).

(** An anonymous download that succeeds, and a body that is read to its end. *)
Definition http_ok : Download.HTTPDownloader :=
  Download.mkHTTP (fun _ => (Some "packages: []", None)).

Definition read_all (body : Download.ReadCloser) : result string := Ok body.

Definition is_close (e : DownloadContent.event) : bool :=
  match e with
  | DownloadContent.EvCloseBody _ => true
  | _ => false
  end.

Definition is_contents_call (e : DownloadContent.event) : bool :=
  match e with
  | DownloadContent.EvGetContents _ _ _ _ => true
  | _ => false
  end.

Definition closes_body (b : option Download.ReadCloser) : list DownloadContent.event :=
  match b with
  | Some b => [DownloadContent.EvCloseBody b]
  | None => []
  end.

(** The exec controller: whether the executable is in place at an instant,
    and the calls of one kind in a log. *)
Definition ready (sv : ExecController.Services) (exePath : string) (t : nat) : bool :=
  match ExecController.fs_Stat sv t exePath with
  | Ok mode => ExecController.IsOwnerExecutable sv mode
  | Err _ => false
  end.

Definition is_stat (c : ExecController.call) : bool :=
  match c with
  | ExecController.CallStat _ => true
  | _ => false
  end.

Definition waits (k : nat) : list Exec.event := repeat (Exec.EvWait 10) k.

(** A package that a sibling process finishes installing at instant 3, with
    no checksum file and no security policy. *)
Definition gh_cli : ExecController.Package := ExecController.mkPackage "cli/cli" "v2.4.0".

Definition found_gh (checksums : bool) : ExecController.FindResult :=
  ExecController.mkFindResult (Some gh_cli) "/root/.aqua/pkgs/gh" "/work/aqua.yaml"
    checksums false.

Definition services (installed_at : nat) (checksums : bool) (policy : string)
           (verdict install : option error) : ExecController.Services :=
  ExecController.mkServices
    (fun exeName => if String.eqb exeName "gh" then Ok (found_gh checksums)
                    else Err (ErrNew "command is not found"))
    (fun _ => policy)
    (fun _ => None)
    (fun _ => verdict)
    (fun _ => Ok "/work/aqua-checksums.json")
    (fun _ => None)
    (fun _ => Some (ErrNew "read-only file system"))
    (fun _ _ _ => install)
    (fun t _ => if (t <? installed_at)%nat then Err (ErrNew "file does not exist")
                else Ok Fs.perm755)
    (fun mode => negb (N.land mode 64 =? 0)%N).

Definition fresh (w : Exec.World) : ExecController.Env := ExecController.mkEnv w [].

(** The generate controller: a release that the search for a version skips,
    and a client and a filter for the examples: the filter accepts the tags
    that start with [v], and every request of the client fails. *)
Definition rejected {Program : Type}
           (EvaluateVersionFilter : Program -> string -> result bool)
           (program : Program) (release : Generate.RepositoryRelease) : Prop :=
  Generate.GetPrerelease release = true \/
  Generate.accepted Program EvaluateVersionFilter program
    (Generate.GetTagName release) = false.

Definition compile_prefix (versionFilter : string) : result string := Ok versionFilter.

Definition evaluate_prefix (program tagName : string) : result bool :=
  Ok (String.prefix program tagName).

Definition offline : Generate.RepositoryService :=
  Generate.mkService
    (fun _ _ _ => Err (ErrNew "connection refused"))
    (fun _ _ _ => Err (ErrNew "connection refused"))
    (fun _ _ => Err (ErrNew "connection refused")).

Definition one_page (releases : list Generate.RepositoryRelease)
  : Generate.RepositoryService :=
  Generate.mkService
    (fun _ _ page => Ok (match page with O => releases | S _ => [] end))
    (fun _ _ _ => Ok [])
    (fun _ _ => Err (ErrNew "not found")).

Definition gh_info (versionFilter : option string) : Generate.PackageInfo :=
  Generate.mkPackageInfo "cli/cli" true "cli" "cli" "" versionFilter.

(** * Theorems *)

(** ** The models of the Go standard library, on its own test vectors *)

Example Clean_vectors :
  map Filepath.Clean
      ["abc"; "abc/def"; "a/b/c"; "."; ".."; "../.."; "../../abc"; "/abc"; "/"; "";
       "abc/"; "abc/def/"; "./"; "../"; "/abc/"; "abc//def//ghi"; "//abc"; "//abc//";
       "abc/./def"; "/./abc/def"; "abc/."; "abc/def/ghi/../jkl"; "abc/def/../ghi/../jkl";
       "abc/def/.."; "abc/def/../.."; "/abc/def/../.."; "abc/def/../../..";
       "/abc/def/../../.."; "abc/def/../../../ghi/jkl/../../../mno"; "/../abc";
       "abc/./../def"; "abc//./../def"; "abc/../../././../def"]
  = ["abc"; "abc/def"; "a/b/c"; "."; ".."; "../.."; "../../abc"; "/abc"; "/"; ".";
     "abc"; "abc/def"; "."; ".."; "/abc"; "abc/def/ghi"; "/abc"; "/abc";
     "abc/def"; "/abc/def"; "abc"; "abc/def/jkl"; "abc/jkl";
     "abc"; "."; "/"; "..";
     "/"; "../../mno"; "/abc";
     "def"; "def"; "../../def"].
Proof. vm_compute. reflexivity. Qed.

Example Base_vectors :
  map Filepath.Base [""; "."; "/."; "/"; "////"; "x/"; "abc"; "abc/def"; "a/b/.x"; "a/b/c."]
  = ["."; "."; "."; "/"; "/"; "x"; "abc"; "def"; ".x"; "c."].
Proof. vm_compute. reflexivity. Qed.

Example Dir_vectors :
  map Filepath.Dir [""; "."; "/."; "/"; "/foo"; "x/"; "abc"; "abc/def"; "a/b/.x"; "a/b/c."]
  = ["."; "."; "/"; "/"; "/"; "x"; "."; "abc"; "a/b"; "a/b"].
Proof. vm_compute. reflexivity. Qed.

Example Join_vectors :
  map Filepath.Join [[]; [""]; ["a"]; ["a"; "b"]; ["a"; ""]; [""; "b"]; ["/"; "a"];
                     ["/"; ""]; ["a/"; "b"]; ["a/"; ""]; [""; ""]; [".."; "aqua-proxy"]]
  = [""; ""; "a"; "a/b"; "a"; "b"; "/a"; "/"; "a/b"; "a"; ""; "../aqua-proxy"].
Proof. vm_compute. reflexivity. Qed.

Example FileMode_String_vectors :
  map (fun n => Fs.FileMode_String (Fs.mode_of n))
      [Fs.Dir; Fs.NamedPipe; Fs.Regular 0; Fs.Symlink ""; Fs.Socket]
  = ["drwxr-xr-x"; "prw-r--r--"; "-rw-r--r--"; "Lrwxrwxrwx"; "Srwxr-xr-x"].
Proof. vm_compute. reflexivity. Qed.

Example Sum256_empty :
  hex_EncodeToString (Sha256.Sum256 [])
  = "e3b0c44298fc1c149afbf4c8996fb92427ae41e4649b934ca495991b7852b855".
Proof. vm_compute. reflexivity. Qed.

Example Sum256_abc :
  hex_EncodeToString (Sha256.Sum256 (bytes_of_string "abc"))
  = "ba7816bf8f01cfea414140de5dae2223b00361a396177a9cb410ff61f20015ad".
Proof. vm_compute. reflexivity. Qed.

Example Sum256_two_blocks :
  hex_EncodeToString
    (Sha256.Sum256
       (bytes_of_string "abcdbcdecdefdefgefghfghighijhijkijkljklmklmnlmnomnopnopq"))
  = "248d6a61d20638b8e5c026930c3e6039a33ce45964ff2167f6ecedd419db06c1".
Proof. vm_compute. reflexivity. Qed.

Example Contains_vectors :
  map (fun p => Contains p.1 p.2)
      [("abc", "bc"); ("abc", "bcd"); ("abc", ""); ("", "a"); ("", "");
       ("https://e/{{.Version}}/r", "{{.Version}}"); ("https://e/v1/r", "{{.Version}}")]
  = [true; false; true; false; true; true; false].
Proof. vm_compute. reflexivity. Qed.

(** ** Strings *)

Lemma eqb_empty_false (s : string) : s <> "" -> String.eqb s "" = false.
Proof. intros H. apply String.eqb_neq. exact H. Qed.

Lemma prefix_spec (p s : string) :
  String.prefix p s = true <-> exists t, s = p +:+ t.
Proof.
  revert s. induction p as [|c p IH]; intros s.
  - split; [intros _; exists s; reflexivity | intros _; destruct s; reflexivity].
  - destruct s as [|d s]; simpl.
    + split; [discriminate | intros [t Ht]; discriminate].
    + destruct (Ascii.ascii_dec c d) as [->|Hne].
      * rewrite IH. split; intros [t Ht]; exists t.
        -- now rewrite Ht.
        -- now inversion Ht.
      * split; [discriminate|]. intros [t Ht]. inversion Ht. congruence.
Qed.

(** [Contains] decides the substring relation. *)
Lemma Contains_spec (s sub : string) :
  Contains s sub = true <-> exists a b, s = a +:+ sub +:+ b.
Proof.
  induction s as [|c s IH]; cbn [Contains].
  - destruct (String.prefix sub "") eqn:Hp.
    + split; [intros _|intros _; reflexivity].
      apply prefix_spec in Hp as [t Ht]. exists "", t. exact Ht.
    + split; [discriminate|]. intros (a & b & Hab).
      destruct a; simpl in Hab; [|discriminate].
      assert (String.prefix sub "" = true) by (apply prefix_spec; eauto).
      congruence.
  - destruct (String.prefix sub (String c s)) eqn:Hp.
    + split; [intros _|intros _; reflexivity].
      apply prefix_spec in Hp as [t Ht]. exists "", t. exact Ht.
    + rewrite IH. split.
      * intros (a & b & ->). exists (String c a), b. reflexivity.
      * intros (a & b & Hab). destruct a as [|d a]; simpl in Hab.
        -- assert (String.prefix sub (String c s) = true) by (apply prefix_spec; eauto).
           congruence.
        -- inversion Hab; subst. eauto.
Qed.

(** ** The digest *)

Lemma be_bytes_length (n : nat) (x : N) : length (Sha256.be_bytes n x) = n.
Proof. induction n as [|n IH]; simpl; [reflexivity | now rewrite IH]. Qed.

Lemma block_length (h bs : list N) : length h = 8%nat -> length (Sha256.block h bs) = 8%nat.
Proof. intros H. unfold Sha256.block. rewrite length_zip_with, H. reflexivity. Qed.

Lemma blocks_length (n : nat) (h bs : list N) :
  length h = 8%nat -> length (Sha256.blocks n h bs) = 8%nat.
Proof.
  revert h bs. induction n as [|n IH]; intros h bs H; simpl; [exact H|].
  apply IH, block_length, H.
Qed.

Lemma flat_map_be_bytes_length (ws : list N) :
  length (flat_map (Sha256.be_bytes 4) ws) = (4 * length ws)%nat.
Proof.
  induction ws as [|w ws IH]; [reflexivity|].
  cbn [flat_map]. rewrite length_app, be_bytes_length, IH. simpl. lia.
Qed.

Lemma Sum256_length (data : list N) : length (Sha256.Sum256 data) = 32%nat.
Proof.
  unfold Sha256.Sum256. rewrite flat_map_be_bytes_length, blocks_length; reflexivity.
Qed.

Lemma hex_length (bs : list N) :
  String.length (hex_EncodeToString bs) = (2 * length bs)%nat.
Proof. induction bs as [|b bs IH]; simpl; [reflexivity | rewrite IH; lia]. Qed.

Lemma substring_length (n : nat) (s : string) :
  (n <= String.length s)%nat -> String.length (String.substring 0 n s) = n.
Proof.
  revert s. induction n as [|n IH]; intros s H.
  - destruct s; reflexivity.
  - destruct s as [|c s]; simpl in *; [lia|]. rewrite IH; [reflexivity | lia].
Qed.

Lemma hexdigit_is_hex (n : N) : is_hex_digit (hexdigit n) = true.
Proof.
  unfold hexdigit. generalize (N.to_nat n) as k. intros k.
  do 16 (destruct k as [|k]; [reflexivity|]).
  rewrite nth_overflow; [reflexivity | simpl; lia].
Qed.

Lemma hex_all_hex (bs : list N) :
  forallb is_hex_digit (list_ascii_of_string (hex_EncodeToString bs)) = true.
Proof.
  induction bs as [|b bs IH]; [reflexivity|].
  cbn [hex_EncodeToString list_ascii_of_string forallb].
  now rewrite !hexdigit_is_hex, IH.
Qed.

Lemma substring_all (P : ascii -> bool) (n : nat) (s : string) :
  forallb P (list_ascii_of_string s) = true ->
  forallb P (list_ascii_of_string (String.substring 0 n s)) = true.
Proof.
  revert s. induction n as [|n IH]; intros s H.
  - destruct s; reflexivity.
  - destruct s as [|c s]; [reflexivity|]. simpl in *.
    apply andb_prop in H as [Hc Hs]. rewrite Hc. simpl. now apply IH.
Qed.

(** ** The registry descriptor *)

Section RegistryFacts.

Import Aqua.

Lemma Validate_github_content (r : Registry) :
  Type_ r = "github_content" -> Validate r = validateGitHubContent r.
Proof. intros H. unfold Validate. rewrite H. reflexivity. Qed.

Lemma Validate_http (r : Registry) :
  Type_ r = "http" -> Validate r = validateHTTP r.
Proof. intros H. unfold Validate. rewrite H. reflexivity. Qed.

Lemma validateGitHubContent_ok (r : Registry) :
  validateGitHubContent r = None <->
  RepoOwner r <> "" /\ RepoName r <> "" /\
  Ref r <> "" /\ Ref r <> "main" /\ Ref r <> "master".
Proof.
  unfold validateGitHubContent.
  destruct (String.eqb_spec (RepoOwner r) ""); [split; [discriminate | tauto]|].
  destruct (String.eqb_spec (RepoName r) ""); [split; [discriminate | tauto]|].
  destruct (String.eqb_spec (Ref r) ""); [split; [discriminate | tauto]|].
  destruct (String.eqb_spec (Ref r) "main"); [split; [discriminate | tauto]|].
  destruct (String.eqb_spec (Ref r) "master"); [split; [discriminate | tauto]|].
  simpl. tauto.
Qed.

Lemma validateHTTP_ok (r : Registry) :
  validateHTTP r = None <->
  URL r <> "" /\ Version r <> "" /\ Contains (URL r) "{{.Version}}" = true.
Proof.
  unfold validateHTTP.
  destruct (String.eqb_spec (URL r) ""); [split; [discriminate | tauto]|].
  destruct (String.eqb_spec (Version r) ""); [split; [discriminate | tauto]|].
  destruct (Contains (URL r) "{{.Version}}"); simpl.
  - tauto.
  - split; [discriminate | intros (_ & _ & ?); discriminate].
Qed.

(** C6, as stated, fails: a [github_content] registry with ref [main] whose
    [repo_owner] is empty is rejected with the repo_owner-is-required error,
    not with the error that ref cannot be 'main' or 'master'. *)
Lemma Validate_ref_main_without_owner :
  let r := mkRegistry "" "github_content" "" "" "main" "" false "" "" "" in
  Type_ r = "github_content" /\ Ref r = "main" /\
  Validate r = Some errRepoOwnerIsRequired /\
  Validate r <> Some errRefCannotBeMainOrMaster.
Proof. cbv zeta. repeat split; discriminate. Qed.

(** C6, amended: for every registry of type [github_content], [Validate]
    succeeds exactly when [repo_owner], [repo_name] and [ref] are non-empty
    and [ref] is neither [main] nor [master]; a registry with ref [main]
    never validates, and once [repo_owner] and [repo_name] are non-empty the
    error is that ref cannot be 'main' or 'master'.  An empty [repo_owner]
    or [repo_name] is reported first: an empty [repo_owner] gives the
    repo_owner-is-required error whatever the other fields are, and an empty
    [repo_name] with a non-empty [repo_owner] gives the
    repo_name-is-required error whatever [ref] is. *)
Theorem Validate_github_content_spec (r : Registry) :
  Type_ r = "github_content" ->
  (Validate r = None <->
   RepoOwner r <> "" /\ RepoName r <> "" /\
   Ref r <> "" /\ Ref r <> "main" /\ Ref r <> "master") /\
  (Ref r = "main" -> Validate r <> None) /\
  (RepoOwner r <> "" -> RepoName r <> "" -> Ref r = "main" \/ Ref r = "master" ->
   Validate r = Some errRefCannotBeMainOrMaster) /\
  (RepoOwner r = "" -> Validate r = Some errRepoOwnerIsRequired) /\
  (RepoOwner r <> "" -> RepoName r = "" -> Validate r = Some errRepoNameIsRequired).
Proof.
  intros Ht. rewrite (Validate_github_content r Ht).
  split; [apply validateGitHubContent_ok|]. split; [|split; [|split]].
  - intros Hmain Hok. apply validateGitHubContent_ok in Hok. tauto.
  - intros Ho Hn Href. unfold validateGitHubContent.
    rewrite (eqb_empty_false _ Ho), (eqb_empty_false _ Hn).
    destruct Href as [-> | ->]; reflexivity.
  - intros Ho. unfold validateGitHubContent. rewrite Ho. reflexivity.
  - intros Ho Hn. unfold validateGitHubContent.
    rewrite (eqb_empty_false _ Ho), Hn. reflexivity.
Qed.

Lemma Validate_github_content_spec_witness :
  let r := mkRegistry "" "github_content" "x" "y" "main" "" false "" "" "" in
  let r' := mkRegistry "" "github_content" "x" "" "main" "" false "" "" "" in
  Type_ r = "github_content" /\ Validate r <> None /\
  Validate r = Some errRefCannotBeMainOrMaster /\
  Validate r' = Some errRepoNameIsRequired.
Proof.
  cbv zeta.
  pose proof (Validate_github_content_spec
                (mkRegistry "" "github_content" "x" "y" "main" "" false "" "" "")
                eq_refl) as (_ & Hfail & Herr & _).
  pose proof (Validate_github_content_spec
                (mkRegistry "" "github_content" "x" "" "main" "" false "" "" "")
                eq_refl) as (_ & _ & _ & _ & Hname).
  split; [reflexivity|]. split; [|split].
  - apply Hfail. reflexivity.
  - apply Herr; [discriminate | discriminate | left; reflexivity].
  - apply Hname; [discriminate | reflexivity].
Defined.

(** C7, as stated, fails: a non-empty URL without the [{{.Version}}] token is
    rejected with the version-is-required error when the version is empty
    too, not with the URL-must-contain-version error. *)
Lemma Validate_http_version_checked_before_token :
  let r := mkRegistry "" "http" "" "" "" "" false "https://e/v1/registry.yaml" "" "" in
  Type_ r = "http" /\ URL r <> "" /\ Contains (URL r) "{{.Version}}" = false /\
  Validate r = Some errVersionIsRequired /\
  Validate r <> Some errURLMustContainVersion.
Proof. cbv zeta. repeat split; discriminate. Qed.

(** C7, amended: for every registry of type [http], [Validate] succeeds
    exactly when URL and Version are non-empty and URL contains the literal
    [{{.Version}}]; the three checks run in this order: an empty URL fails
    with the url-is-required error; otherwise an empty Version fails with
    the version-is-required error; otherwise a URL lacking the token fails
    with the URL-must-contain-version error. *)
Theorem Validate_http_spec (r : Registry) :
  Type_ r = "http" ->
  (Validate r = None <->
   URL r <> "" /\ Version r <> "" /\
   exists a b, URL r = a +:+ "{{.Version}}" +:+ b) /\
  (URL r = "" -> Validate r = Some errURLIsRequired) /\
  (URL r <> "" -> Version r = "" -> Validate r = Some errVersionIsRequired) /\
  (URL r <> "" -> Version r <> "" ->
   (forall a b, URL r <> a +:+ "{{.Version}}" +:+ b) ->
   Validate r = Some errURLMustContainVersion).
Proof.
  intros Ht. rewrite (Validate_http r Ht).
  split; [|split; [|split]].
  - rewrite validateHTTP_ok, Contains_spec. reflexivity.
  - intros Hu. unfold validateHTTP. rewrite Hu. reflexivity.
  - intros Hu Hv. unfold validateHTTP.
    rewrite (eqb_empty_false _ Hu), Hv. reflexivity.
  - intros Hu Hv Hc. unfold validateHTTP.
    rewrite (eqb_empty_false _ Hu), (eqb_empty_false _ Hv).
    destruct (Contains (URL r) "{{.Version}}") eqn:E; [|reflexivity].
    apply Contains_spec in E as (a & b & E). exfalso. exact (Hc a b E).
Qed.

Lemma Validate_http_spec_witness :
  let r := mkRegistry "" "http" "" "" "" "" false
                      "https://example.com/registry/{{.Version}}/registry.yaml"
                      "v1.0.0" "" in
  Type_ r = "http" /\ Validate r = None.
Proof.
  cbv zeta. split; [reflexivity|].
  apply (Validate_http_spec
           (mkRegistry "" "http" "" "" "" "" false
                       "https://example.com/registry/{{.Version}}/registry.yaml"
                       "v1.0.0" "") eq_refl).
  split; [discriminate|]. split; [discriminate|].
  exists "https://example.com/registry/", "/registry.yaml". reflexivity.
Defined.

(** The scenario of the specification: no token, version [v1]. *)
Example Validate_http_missing_template :
  Validate (mkRegistry "" "http" "" "" "" "" false "https://e/v1/registry.yaml" "v1" "")
  = Some errURLMustContainVersion.
Proof. reflexivity. Qed.

Lemma UnmarshalYAML_standard (r0 d : Registry) unmarshal :
  unmarshal r0 = Ok d -> Type_ d = "standard" ->
  UnmarshalYAML r0 unmarshal = Ok (expand_standard d).
Proof.
  intros Hd Ht. destruct d as [n t o rn rf pa pr u v f]. simpl in Ht. subst t.
  unfold UnmarshalYAML, expand_standard, or_default. rewrite Hd. cbn.
  destruct (String.eqb n ""); cbn;
    destruct (String.eqb o ""); cbn;
    destruct (String.eqb rn ""); cbn;
    destruct (String.eqb pa ""); reflexivity.
Qed.

Lemma UnmarshalYAML_other (r0 d : Registry) unmarshal :
  unmarshal r0 = Ok d -> Type_ d <> "standard" ->
  UnmarshalYAML r0 unmarshal = Ok d.
Proof.
  intros Hd Ht. unfold UnmarshalYAML. rewrite Hd.
  apply String.eqb_neq in Ht. unfold RegistryTypeStandard. rewrite Ht. reflexivity.
Qed.

(** C4: [UnmarshalYAML] rewrites a decoded registry of type [standard] to
    type [github_content], fills name, repo_owner, repo_name and path with
    [standard], [aquaproj], [aqua-registry] and [registry.yaml] where they
    are empty, and keeps ref and every field that is set; a registry of any
    other type is returned exactly as decoded; and [{type: standard, ref:
    v2.5.0}] reads as the registry the specification gives. *)
Theorem UnmarshalYAML_standard_expansion (r0 d : Registry) unmarshal :
  unmarshal r0 = Ok d ->
  (Type_ d = "standard" ->
   UnmarshalYAML r0 unmarshal =
   Ok (mkRegistry (if String.eqb (Name d) "" then "standard" else Name d)
                  "github_content"
                  (if String.eqb (RepoOwner d) "" then "aquaproj" else RepoOwner d)
                  (if String.eqb (RepoName d) "" then "aqua-registry" else RepoName d)
                  (Ref d)
                  (if String.eqb (Path d) "" then "registry.yaml" else Path d)
                  (Private d) (URL d) (Version d) (Format d))) /\
  (Type_ d <> "standard" -> UnmarshalYAML r0 unmarshal = Ok d) /\
  UnmarshalYAML empty_registry (decode_as standard_v250) = Ok standard_v250_read.
Proof.
  intros Hd. split; [|split].
  - intros Ht. rewrite (UnmarshalYAML_standard r0 d unmarshal Hd Ht). reflexivity.
  - apply UnmarshalYAML_other. exact Hd.
  - reflexivity.
Qed.

Lemma UnmarshalYAML_standard_expansion_witness :
  decode_as standard_v250 empty_registry = Ok standard_v250 /\
  Type_ standard_v250 = "standard" /\
  UnmarshalYAML empty_registry (decode_as standard_v250) = Ok standard_v250_read.
Proof.
  split; [reflexivity|]. split; [reflexivity|].
  exact (proj1 (UnmarshalYAML_standard_expansion empty_registry standard_v250
                  (decode_as standard_v250) eq_refl) eq_refl).
Defined.

(** C10: [Validate] returns the invalid-registry-type error for every
    registry whose type is none of [local], [github_content], [http], the
    type [standard] included; a registry declared [standard] validates only
    through [UnmarshalYAML], which turns it into a [github_content] registry
    that validates exactly when its ref is set and is neither [main] nor
    [master]. *)
Theorem Validate_invalid_type (r : Registry) :
  (Type_ r <> "local" -> Type_ r <> "github_content" -> Type_ r <> "http" ->
   Validate r = Some (ErrWithFields errInvalidRegistryType [("registry_type", Type_ r)])) /\
  (Type_ r = "standard" ->
   exists e, Validate r = Some e /\ errors_Is e errInvalidRegistryType = true) /\
  (forall r0 unmarshal,
     unmarshal r0 = Ok r -> Type_ r = "standard" ->
     exists r', UnmarshalYAML r0 unmarshal = Ok r' /\
                Type_ r' = "github_content" /\
                (Validate r' = None <->
                 Ref r <> "" /\ Ref r <> "main" /\ Ref r <> "master")).
Proof.
  assert (Hinv : Type_ r <> "local" -> Type_ r <> "github_content" ->
                 Type_ r <> "http" ->
                 Validate r = Some (ErrWithFields errInvalidRegistryType
                                      [("registry_type", Type_ r)])).
  { intros Hl Hg Hh. unfold Validate.
    apply String.eqb_neq in Hl, Hg, Hh.
    unfold RegistryTypeLocal, RegistryTypeGitHubContent, RegistryTypeHTTP.
    rewrite Hl, Hg, Hh. reflexivity. }
  split; [exact Hinv|]. split.
  - intros Hs. eexists. split.
    + apply Hinv; rewrite Hs; discriminate.
    + reflexivity.
  - intros r0 unmarshal Hd Hs. exists (expand_standard r).
    split; [now apply UnmarshalYAML_standard|]. split; [reflexivity|].
    rewrite Validate_github_content by reflexivity.
    rewrite validateGitHubContent_ok. cbn [expand_standard RepoOwner RepoName Ref].
    unfold or_default.
    split; [tauto|]. intros H. split; [|split; [|exact H]].
    + destruct (String.eqb_spec (RepoOwner r) ""); [discriminate | assumption].
    + destruct (String.eqb_spec (RepoName r) ""); [discriminate | assumption].
Qed.

Lemma Validate_invalid_type_witness :
  Type_ standard_v250 = "standard" /\
  (exists e, Validate standard_v250 = Some e /\
             errors_Is e errInvalidRegistryType = true) /\
  (exists r', UnmarshalYAML empty_registry (decode_as standard_v250) = Ok r' /\
              Type_ r' = "github_content" /\ Validate r' = None).
Proof.
  pose proof (Validate_invalid_type standard_v250) as (_ & Hstd & Hread).
  split; [reflexivity|]. split; [exact (Hstd eq_refl)|].
  destruct (Hread empty_registry (decode_as standard_v250) eq_refl eq_refl)
    as (r' & Hr' & Ht & Hv).
  exists r'. split; [exact Hr'|]. split; [exact Ht|].
  apply Hv. repeat split; discriminate.
Defined.

(** C5: for a registry of type [http], [FilePath] is the root directory
    joined with [registries], [http], the first 16 hexadecimal characters of
    the SHA-256 digest of the raw URL template, the version, and the base
    name of the path or [registry.yaml] when the path is empty; for the
    registry of the scenario it is
    [/root/.aqua/registries/http/06eeabea3ca08429/v1.0.0/registry.yaml]. *)
Theorem FilePath_http (r : Registry) (rootDir cfgFilePath : string) :
  Type_ r = "http" ->
  FilePath r rootDir cfgFilePath =
  Ok (Filepath.Join [rootDir; "registries"; "http"; url_hash16 (URL r); Version r;
                     if String.eqb (Path r) "" then "registry.yaml"
                     else Filepath.Base (Path r)]) /\
  String.length (url_hash16 (URL r)) = 16%nat /\
  forallb is_hex_digit (list_ascii_of_string (url_hash16 (URL r))) = true /\
  FilePath http_example "/root/.aqua" cfgFilePath =
  Ok "/root/.aqua/registries/http/06eeabea3ca08429/v1.0.0/registry.yaml".
Proof.
  intros Ht. split; [|split; [|split]].
  - unfold FilePath. rewrite Ht. cbn [String.eqb].
    change ("http" =? RegistryTypeLocal)%string with false.
    change ("http" =? RegistryTypeGitHubContent)%string with false.
    change ("http" =? RegistryTypeHTTP)%string with true. cbv iota.
    unfold url_hash16. destruct (String.eqb (Path r) ""); reflexivity.
  - unfold url_hash16. apply substring_length.
    rewrite hex_length, Sum256_length. lia.
  - unfold url_hash16. apply substring_all, hex_all_hex.
  - vm_compute. reflexivity.
Qed.

Lemma FilePath_http_witness :
  Type_ http_example = "http" /\
  FilePath http_example "/root/.aqua" "aqua.yaml" =
  Ok "/root/.aqua/registries/http/06eeabea3ca08429/v1.0.0/registry.yaml".
Proof.
  split; [reflexivity|].
  exact (proj2 (proj2 (proj2 (FilePath_http http_example "/root/.aqua" "aqua.yaml"
                                 eq_refl)))).
Defined.

End RegistryFacts.

(** ** The exec controller *)

Section ExecFacts.

Import Exec.

Variable ctrl : Controller.
Variable ctx : Context.
Variable exePath : string.
Variable args : list string.

Lemma failed_attempts_S (k : nat) :
  failed_attempts exePath args (S k) =
  ([EvExec exePath args; EvWait 10] ++ failed_attempts exePath args k)%list.
Proof. reflexivity. Qed.

(** One iteration that fails to start leads to the next one. *)
Lemma retry_loop_step (n : nat) (w : World) :
  enabledXSysExec ctrl = false ->
  fails_to_start (executor ctrl) ctx exePath args (now w) ->
  retry_loop ctrl ctx exePath args (S n) w =
  retry_loop ctrl ctx exePath args n
    (mkWorld (S (S (now w))) (trace w ++ [EvExec exePath args; EvWait 10])%list).
Proof.
  intros Hx (err & He & Hc & Hw).
  cbn [retry_loop]. unfold bind at 1. unfold execCommand. rewrite Hx.
  unfold bind at 1, call_Exec. rewrite He.
  unfold bind at 1, ctx_Err. cbn [now]. rewrite Hc.
  cbn. unfold bind, wait. cbn [now trace]. rewrite Hw.
  rewrite <- app_assoc. reflexivity.
Qed.

Lemma retry_loop_prefix (k n : nat) (w : World) :
  enabledXSysExec ctrl = false ->
  (k <= n)%nat ->
  (forall j, (j < k)%nat ->
     fails_to_start (executor ctrl) ctx exePath args (now w + 2 * j)) ->
  retry_loop ctrl ctx exePath args n w =
  retry_loop ctrl ctx exePath args (n - k)
    (mkWorld (now w + 2 * k) (trace w ++ failed_attempts exePath args k)%list).
Proof.
  intros Hx. revert n w. induction k as [|k IH]; intros n w Hle Hf.
  - rewrite Nat.sub_0_r, Nat.mul_0_r, Nat.add_0_r.
    unfold failed_attempts. cbn. rewrite app_nil_r. destruct w; reflexivity.
  - destruct n as [|n]; [lia|].
    rewrite retry_loop_step; [|exact Hx|].
    + rewrite IH; [|lia|].
      * cbn [now trace]. rewrite failed_attempts_S, <- app_assoc.
        replace (S (S (now w)) + 2 * k)%nat with (now w + 2 * S k)%nat by lia.
        reflexivity.
      * intros j Hj. cbn [now].
        replace (S (S (now w)) + 2 * j)%nat with (now w + 2 * S j)%nat by lia.
        apply Hf. lia.
    + specialize (Hf 0%nat ltac:(lia)). now rewrite Nat.mul_0_r, Nat.add_0_r in Hf.
Qed.

(** An iteration whose attempt does not fail to start ends the loop. *)
Lemma retry_loop_success (n : nat) (w : World) (code : Z) :
  enabledXSysExec ctrl = false ->
  Exec (executor ctrl) (now w) exePath args = (code, None) ->
  retry_loop ctrl ctx exePath args (S n) w =
  (None, mkWorld (S (now w)) (trace w ++ [EvExec exePath args])%list).
Proof.
  intros Hx He. cbn [retry_loop]. unfold bind at 1. unfold execCommand. rewrite Hx.
  unfold bind at 1, call_Exec. rewrite He. reflexivity.
Qed.

Lemma retry_loop_give_up (n : nat) (w : World) (code : Z) (err : error) :
  enabledXSysExec ctrl = false ->
  Exec (executor ctrl) (now w) exePath args = (code, Some err) ->
  code <> (-1)%Z \/ ctx (S (now w)) <> None ->
  retry_loop ctrl ctx exePath args (S n) w =
  (Some (ErrExitCode err code),
   mkWorld (S (now w)) (trace w ++ [EvExec exePath args])%list).
Proof.
  intros Hx He Hor. cbn [retry_loop]. unfold bind at 1. unfold execCommand. rewrite Hx.
  unfold bind at 1, call_Exec. rewrite He.
  unfold bind at 1, ctx_Err. cbn [now].
  destruct Hor as [Hc | Hc].
  - apply Z.eqb_neq in Hc. rewrite Hc. reflexivity.
  - rewrite (bool_decide_eq_false_2 _ Hc), andb_false_r. reflexivity.
Qed.

Lemma attempts_app (t u : list event) : attempts (t ++ u) = (attempts t + attempts u)%nat.
Proof. unfold attempts. now rewrite filter_app, length_app. Qed.

Lemma attempts_single (e : event) :
  attempts [e] = if is_attempt e then 1%nat else 0%nat.
Proof. destruct e; reflexivity. Qed.

Lemma retry_loop_attempts (n : nat) (w : World) :
  (attempts (trace (retry_loop ctrl ctx exePath args n w).2)
   <= attempts (trace w) + n)%nat.
Proof.
  revert w. induction n as [|n IH]; intros w; [cbn; lia|].
  cbn [retry_loop]. unfold bind at 1.
  destruct (execCommand ctrl ctx exePath args w) as [[retried err] w1] eqn:E.
  assert (H1 : attempts (trace w1) = S (attempts (trace w))).
  { unfold execCommand in E. destruct (enabledXSysExec ctrl).
    - unfold bind, call_ExecXSys in E.
      destruct (ExecXSys (executor ctrl) (now w) exePath args);
        inversion E; subst; cbn [trace];
        rewrite attempts_app, attempts_single; cbn; lia.
    - unfold bind, call_Exec, ctx_Err in E.
      destruct (Exec (executor ctrl) (now w) exePath args) as [c [e|]];
        [cbn in E; destruct ((c =? -1)%Z && bool_decide (ctx (S (now w)) = None))|];
        inversion E; subst; cbn [trace];
        rewrite attempts_app, attempts_single; cbn; lia. }
  destruct retried; cbn [negb].
  - unfold bind, wait, ret.
    destruct (ctx (S (now w1))).
    + cbn [snd trace]. rewrite attempts_app, attempts_single. cbn. lia.
    + etransitivity; [apply IH|]. cbn [trace].
      rewrite attempts_app, attempts_single. cbn. lia.
  - unfold ret. cbn [snd]. lia.
Qed.

Lemma xsys_step (n : nat) (w : World) :
  enabledXSysExec ctrl = true ->
  execve_fails (executor ctrl) ctx exePath args (now w) ->
  retry_loop ctrl ctx exePath args (S n) w =
  retry_loop ctrl ctx exePath args n
    (mkWorld (S (S (now w))) (trace w ++ [EvExecXSys exePath args; EvWait 10])%list).
Proof.
  intros Hx (err & He & Hw).
  cbn [retry_loop]. unfold bind at 1. unfold execCommand. rewrite Hx.
  unfold bind at 1, call_ExecXSys. rewrite He.
  cbn. unfold bind, wait. cbn [now trace]. rewrite Hw.
  rewrite <- app_assoc. reflexivity.
Qed.

Lemma xsys_prefix (k n : nat) (w : World) :
  enabledXSysExec ctrl = true ->
  (k <= n)%nat ->
  (forall j, (j < k)%nat ->
     execve_fails (executor ctrl) ctx exePath args (now w + 2 * j)) ->
  retry_loop ctrl ctx exePath args n w =
  retry_loop ctrl ctx exePath args (n - k)
    (mkWorld (now w + 2 * k) (trace w ++ failed_execve exePath args k)%list).
Proof.
  intros Hx. revert n w. induction k as [|k IH]; intros n w Hle Hf.
  - rewrite Nat.sub_0_r, Nat.mul_0_r, Nat.add_0_r.
    unfold failed_execve. cbn. rewrite app_nil_r. destruct w; reflexivity.
  - destruct n as [|n]; [lia|].
    rewrite xsys_step; [|exact Hx|].
    + rewrite IH; [|lia|].
      * cbn [now trace].
        change (failed_execve exePath args (S k))
          with ([EvExecXSys exePath args; EvWait 10] ++ failed_execve exePath args k)%list.
        rewrite <- app_assoc.
        replace (S (S (now w)) + 2 * k)%nat with (now w + 2 * S k)%nat by lia.
        reflexivity.
      * intros j Hj. cbn [now].
        replace (S (S (now w)) + 2 * j)%nat with (now w + 2 * S j)%nat by lia.
        apply Hf. lia.
    + specialize (Hf 0%nat ltac:(lia)). now rewrite Nat.mul_0_r, Nat.add_0_r in Hf.
Qed.

(** C3, as stated, fails: with x-sys exec disabled, an executor that
    always reports exit code -1 and a context that is cancelled at instant 4.
    The second attempt, made at instant 2, reports exit code -1 while the
    context is not cancelled (instant 3), yet the command is not retried:
    the context is cancelled during the 10 ms wait, and the controller
    returns the context's error after two attempts, neither "it failed to
    start the process" nor an error wrapped with the exit code. *)
Lemma execCommandWithRetry_cancelled_while_waiting :
  let run := execCommandWithRetry never_starts cancelled_at_4 "gh" ["version"]
               (mkWorld 0 []) in
  enabledXSysExec never_starts = false /\
  Exec (executor never_starts) 2 "gh" ["version"] =
    ((-1)%Z, Some (ErrNew "fork/exec: text file busy")) /\
  cancelled_at_4 3 = None /\
  run = (Some (ErrNew "context canceled"),
         mkWorld 4 (failed_attempts "gh" ["version"] 2)) /\
  attempts (trace run.2) = 2%nat /\
  run.1 <> Some errFailedToStartProcess /\
  run.1 <> Some (ErrExitCode (ErrNew "fork/exec: text file busy") (-1)).
Proof.
  cbv zeta. split; [reflexivity|]. split; [reflexivity|]. split; [reflexivity|].
  split; [reflexivity|]. split; [vm_compute; reflexivity|].
  split; vm_compute; discriminate.
Qed.

(** C3, amended: the executor is called at most 10 times.  With x-sys exec
    disabled, when the first [k] attempts fail to start (exit code -1, the
    context cancelled neither when consulted after the call nor by the end
    of the 10 ms wait that follows), each is followed by that wait and the
    next attempt; after the 10th the controller returns "it failed to start
    the process"; an attempt that succeeds returns no error; an attempt that
    fails with another exit code, or while the context is cancelled, returns
    the error wrapped with the exit code at once, with no wait and no
    further attempt; and an attempt that fails with exit code -1 under a
    live context but whose wait the context cuts short returns the context's
    error as it is, with no further attempt.  With x-sys exec enabled there
    is no exit code: every failure of [ExecXSys] is followed by the wait and
    the next attempt, ten failures give "it failed to start the process", a
    call without error returns no error, and a wait that the context cuts
    short returns the context's error. *)
Theorem execCommandWithRetry_spec (w : World) (k : nat) :
  (attempts (trace (execCommandWithRetry ctrl ctx exePath args w).2)
   <= attempts (trace w) + 10)%nat /\
  (enabledXSysExec ctrl = false ->
   (k <= 10)%nat ->
   (forall j, (j < k)%nat ->
      fails_to_start (executor ctrl) ctx exePath args (now w + 2 * j)) ->
   let t := (now w + 2 * k)%nat in
   let waited := (trace w ++ failed_attempts exePath args k)%list in
   let last := (waited ++ [EvExec exePath args])%list in
   (k = 10%nat ->
    execCommandWithRetry ctrl ctx exePath args w =
    (Some errFailedToStartProcess, mkWorld t waited)) /\
   ((k < 10)%nat -> forall code,
      Exec (executor ctrl) t exePath args = (code, None) ->
      execCommandWithRetry ctrl ctx exePath args w = (None, mkWorld (S t) last)) /\
   ((k < 10)%nat -> forall code err,
      Exec (executor ctrl) t exePath args = (code, Some err) ->
      code <> (-1)%Z \/ ctx (S t) <> None ->
      execCommandWithRetry ctrl ctx exePath args w =
      (Some (ErrExitCode err code), mkWorld (S t) last)) /\
   ((k < 10)%nat -> forall err cancelled,
      Exec (executor ctrl) t exePath args = ((-1)%Z, Some err) ->
      ctx (S t) = None ->
      ctx (S (S t)) = Some cancelled ->
      execCommandWithRetry ctrl ctx exePath args w =
      (Some cancelled, mkWorld (S (S t)) (last ++ [EvWait 10])%list))) /\
  (enabledXSysExec ctrl = true ->
   (k <= 10)%nat ->
   (forall j, (j < k)%nat ->
      execve_fails (executor ctrl) ctx exePath args (now w + 2 * j)) ->
   let t := (now w + 2 * k)%nat in
   let waited := (trace w ++ failed_execve exePath args k)%list in
   let last := (waited ++ [EvExecXSys exePath args])%list in
   (k = 10%nat ->
    execCommandWithRetry ctrl ctx exePath args w =
    (Some errFailedToStartProcess, mkWorld t waited)) /\
   ((k < 10)%nat -> ExecXSys (executor ctrl) t exePath args = None ->
    execCommandWithRetry ctrl ctx exePath args w = (None, mkWorld (S t) last)) /\
   ((k < 10)%nat -> forall err cancelled,
      ExecXSys (executor ctrl) t exePath args = Some err ->
      ctx (S (S t)) = Some cancelled ->
      execCommandWithRetry ctrl ctx exePath args w =
      (Some cancelled, mkWorld (S (S t)) (last ++ [EvWait 10])%list))).
Proof.
  split; [apply retry_loop_attempts|]. split.
  - intros Hx Hk Hf t waited last. unfold execCommandWithRetry.
    rewrite (retry_loop_prefix k 10 w Hx Hk Hf). fold t waited.
    split; [|split; [|split]].
    + intros ->. reflexivity.
    + intros Hlt code He.
      destruct (10 - k)%nat as [|n] eqn:E; [lia|].
      rewrite (retry_loop_success n (mkWorld t waited) code Hx He). reflexivity.
    + intros Hlt code err He Hor.
      destruct (10 - k)%nat as [|n] eqn:E; [lia|].
      rewrite (retry_loop_give_up n (mkWorld t waited) code err Hx He Hor). reflexivity.
    + intros Hlt err cancelled He Hc Hw.
      destruct (10 - k)%nat as [|n] eqn:E; [lia|].
      cbn [retry_loop]. unfold bind at 1. unfold execCommand. rewrite Hx.
      unfold bind at 1, call_Exec. cbn [now trace]. rewrite He.
      unfold bind at 1, ctx_Err. cbn [now]. rewrite Hc.
      cbn. unfold bind, wait. cbn [now trace]. rewrite Hw.
      subst last. rewrite <- !app_assoc. reflexivity.
  - intros Hx Hk Hf t waited last. unfold execCommandWithRetry.
    rewrite (xsys_prefix k 10 w Hx Hk Hf). fold t waited.
    split; [|split].
    + intros ->. reflexivity.
    + intros Hlt He. destruct (10 - k)%nat as [|n] eqn:E; [lia|].
      cbn [retry_loop]. unfold bind at 1. unfold execCommand. rewrite Hx.
      unfold bind at 1, call_ExecXSys. cbn [now trace]. rewrite He. reflexivity.
    + intros Hlt err cancelled He Hc. destruct (10 - k)%nat as [|n] eqn:E; [lia|].
      cbn [retry_loop]. unfold bind at 1. unfold execCommand. rewrite Hx.
      unfold bind at 1, call_ExecXSys. cbn [now trace]. rewrite He.
      cbn. unfold bind, wait. cbn [now trace]. rewrite Hc.
      subst last. rewrite <- !app_assoc. reflexivity.
Qed.

End ExecFacts.

Lemma execCommandWithRetry_spec_witness :
  Exec.enabledXSysExec never_starts = false /\
  Exec.execCommandWithRetry never_starts background "gh" ["version"] (Exec.mkWorld 0 []) =
  (Some Exec.errFailedToStartProcess,
   Exec.mkWorld 20 (failed_attempts "gh" ["version"] 10)) /\
  Exec.execCommandWithRetry starts_third_time background "gh" ["version"]
    (Exec.mkWorld 0 []) =
  (Some (ErrExitCode (ErrNew "exit status 3") 3),
   Exec.mkWorld 5 (failed_attempts "gh" ["version"] 2
                   ++ [Exec.EvExec "gh" ["version"]])%list) /\
  Exec.execCommandWithRetry never_starts cancelled_at_4 "gh" ["version"]
    (Exec.mkWorld 0 []) =
  (Some (ErrNew "context canceled"),
   Exec.mkWorld 4 (failed_attempts "gh" ["version"] 1
                   ++ [Exec.EvExec "gh" ["version"]] ++ [Exec.EvWait 10])%list) /\
  Exec.execCommandWithRetry execve_enoent background "gh" ["version"]
    (Exec.mkWorld 0 []) =
  (Some Exec.errFailedToStartProcess,
   Exec.mkWorld 20 (failed_execve "gh" ["version"] 10)).
Proof.
  split; [reflexivity|]. split; [|split; [|split]].
  - refine (proj1 (proj1 (proj2 (execCommandWithRetry_spec never_starts background
                            "gh" ["version"] (Exec.mkWorld 0 []) 10))
                     eq_refl _ _) eq_refl).
    + lia.
    + intros j _. eexists. repeat split.
  - refine (proj1 (proj2 (proj2 (proj1 (proj2 (execCommandWithRetry_spec
                            starts_third_time background
                            "gh" ["version"] (Exec.mkWorld 0 []) 2))
                     eq_refl _ _))) _ 3%Z (ErrNew "exit status 3") eq_refl _).
    + lia.
    + intros j Hj. exists (ErrNew "fork/exec: text file busy").
      destruct j as [|[|j]]; [repeat split .. | lia].
    + lia.
    + left. discriminate.
  - refine (proj2 (proj2 (proj2 (proj1 (proj2 (execCommandWithRetry_spec
                            never_starts cancelled_at_4
                            "gh" ["version"] (Exec.mkWorld 0 []) 1))
                     eq_refl _ _))) _ (ErrNew "fork/exec: text file busy")
                     (ErrNew "context canceled") eq_refl eq_refl eq_refl).
    + lia.
    + intros j Hj. exists (ErrNew "fork/exec: text file busy").
      destruct j as [|j]; [repeat split | lia].
    + lia.
  - refine (proj1 (proj2 (proj2 (execCommandWithRetry_spec execve_enoent background
                            "gh" ["version"] (Exec.mkWorld 0 []) 10))
                     eq_refl _ _) eq_refl).
    + lia.
    + intros j _. eexists. split; reflexivity.
Defined.

(** ** The package downloader *)

Section DownloadFacts.

Import Download.

(** [getAssetIDFromAssets] returns the id of the first asset with the
    requested name. *)
Lemma getAssetIDFromAssets_ok (assets : list ReleaseAsset) (assetName : string) (id : Z) :
  getAssetIDFromAssets assets assetName = Ok id <->
  exists before asset after,
    assets = (before ++ asset :: after)%list /\
    GetName asset = assetName /\ GetID asset = id /\
    Forall (fun a => GetName a <> assetName) before.
Proof.
  induction assets as [|a assets IH]; cbn [getAssetIDFromAssets].
  - split; [discriminate|]. intros (before & asset & after & H & _).
    destruct before; discriminate.
  - destruct (String.eqb_spec (GetName a) assetName) as [Heq | Hne].
    + split.
      * intros H. inversion H; subst. exists [], a, assets. repeat split. constructor.
      * intros (before & asset & after & H & Hn & Hi & Hb).
        destruct before as [|b before]; cbn in H; inversion H; subst.
        -- reflexivity.
        -- inversion Hb; subst. contradiction.
    + rewrite IH. split.
      * intros (before & asset & after & -> & Hn & Hi & Hb).
        exists (a :: before), asset, after. repeat split; try assumption.
        constructor; assumption.
      * intros (before & asset & after & H & Hn & Hi & Hb).
        destruct before as [|b before]; cbn in H; inversion H; subst.
        -- contradiction.
        -- inversion Hb; subst. exists before, asset, after. repeat split; assumption.
Qed.

Ltac run_download :=
  unfold downloadFromGitHubRelease, call_Download, close_if_open, emit, bind, ret;
  cbn [fst snd].

(** C1, as stated, fails: with no GitHub client configured, a failed
    anonymous download is not followed by any call to the Releases API; the
    download ends with the token-required error. *)
Lemma downloadFromGitHubRelease_without_client :
  let run := downloadFromGitHubRelease without_token "cli" "cli" "v1.0.0" "gh.tar.gz" [] in
  (http_Download (http without_token)
     (release_url "cli" "cli" "v1.0.0" "gh.tar.gz")).2 <> None /\
  api_called run.2 = false /\
  run = ((None, Some errGitHubTokenIsRequired),
         [EvHTTPDownload "https://github.com/cli/cli/releases/download/v1.0.0/gh.tar.gz"]).
Proof. cbv zeta. split; [discriminate|]. split; reflexivity. Qed.

(** C1, amended: the download starts with an anonymous GET of the release
    URL.  The Releases API is used exactly when that attempt fails and a
    GitHub client is configured; when it succeeds its body is returned; when
    it fails and no client is configured the token-required error is
    returned.  In the fallback the release is fetched by tag, the first
    asset with the requested name gives the id passed to
    [DownloadReleaseAsset], and the result is the body that call returns or,
    when it returns none, the body downloaded from the redirect URL. *)
Theorem downloadFromGitHubRelease_spec (d : pkgDownloader)
        (owner repoName version assetName : string) :
  let url := release_url owner repoName version assetName in
  let run := downloadFromGitHubRelease d owner repoName version assetName [] in
  (exists rest, run.2 = EvHTTPDownload url :: rest) /\
  (api_called run.2 = true <->
   (http_Download (http d) url).2 <> None /\ github d <> None) /\
  (forall b, http_Download (http d) url = (b, None) ->
     run = ((b, None), [EvHTTPDownload url])) /\
  (forall b err, http_Download (http d) url = (b, Some err) -> github d = None ->
     run = ((None, Some errGitHubTokenIsRequired), EvHTTPDownload url :: closes b)) /\
  (forall b err gh release assetID,
     http_Download (http d) url = (b, Some err) ->
     github d = Some gh ->
     gh_GetReleaseByTag gh owner repoName version = Ok release ->
     getAssetIDFromAssets (Assets release) assetName = Ok assetID ->
     let api := (EvHTTPDownload url :: closes b ++
                 [EvGetReleaseByTag owner repoName version;
                  EvDownloadReleaseAsset owner repoName assetID])%list in
     (exists before asset after,
        Assets release = (before ++ asset :: after)%list /\
        GetName asset = assetName /\ GetID asset = assetID /\
        Forall (fun a => GetName a <> assetName) before) /\
     (forall body redirectURL,
        gh_DownloadReleaseAsset gh owner repoName assetID = (Some body, redirectURL, None) ->
        run = ((Some body, None), api)) /\
     (forall redirectURL b',
        gh_DownloadReleaseAsset gh owner repoName assetID = (None, redirectURL, None) ->
        http_Download (http d) redirectURL = (b', None) ->
        run = ((b', None), (api ++ [EvHTTPDownload redirectURL])%list))).
Proof.
  intros url run. subst run. fold url. split; [|split; [|split; [|split]]].
  - run_download. fold url.
    destruct (http_Download (http d) url) as [b [e|]]; [|eexists; reflexivity].
    destruct b, (github d) as [gh|]; cbn; try (eexists; reflexivity);
      destruct (gh_GetReleaseByTag gh owner repoName version) as [rel|];
      try (eexists; reflexivity);
      destruct (getAssetIDFromAssets (Assets rel) assetName);
      try (eexists; reflexivity);
      destruct (gh_DownloadReleaseAsset gh owner repoName a) as [[[body|] red] [e'|]];
      try (eexists; reflexivity);
      destruct (http_Download (http d) red) as [[b'|] [e''|]]; eexists; reflexivity.
  - run_download. fold url.
    destruct (http_Download (http d) url) as [b [e|]]; cbn [snd].
    + destruct (github d) as [gh|].
      * split; [intros _; split; discriminate|]. intros _.
        destruct b;
          destruct (gh_GetReleaseByTag gh owner repoName version) as [rel|];
          try reflexivity;
          destruct (getAssetIDFromAssets (Assets rel) assetName);
          try reflexivity;
          destruct (gh_DownloadReleaseAsset gh owner repoName a) as [[[body|] red] [e'|]];
          try reflexivity;
          destruct (http_Download (http d) red) as [[b'|] [e''|]]; reflexivity.
      * split; [|intros [_ H]; congruence]. destruct b; discriminate.
    + split; [discriminate | intros [H _]; congruence].
  - intros b Hb. run_download. fold url. rewrite Hb. reflexivity.
  - intros b err Hb Hg. run_download. fold url. rewrite Hb, Hg. destruct b; reflexivity.
  - intros b err gh release assetID Hb Hg Hr Ha api. split; [|split].
    + now apply getAssetIDFromAssets_ok.
    + intros body red Hd. subst api. run_download. fold url.
      rewrite Hb, Hg. destruct b; cbn; rewrite Hr, Ha; cbn; rewrite Hd; reflexivity.
    + intros red b' Hd Hb'. subst api. run_download. fold url.
      rewrite Hb, Hg. destruct b; cbn; rewrite Hr, Ha; cbn; rewrite Hd; cbn;
        rewrite Hb'; reflexivity.
Qed.

End DownloadFacts.

Lemma downloadFromGitHubRelease_spec_witness :
  Download.http_Download http_404
    (Download.release_url "cli" "cli" "v1.0.0" "gh.tar.gz")
  = (None, Some (ErrNew "status code >= 400: 404")) /\
  Download.github with_token = Some releases_api /\
  Download.getAssetIDFromAssets
    [Download.mkAsset (Some 41%Z) (Some "checksums.txt");
     Download.mkAsset (Some 42%Z) (Some "gh.tar.gz")] "gh.tar.gz" = Ok 42%Z /\
  Download.downloadFromGitHubRelease with_token "cli" "cli" "v1.0.0" "gh.tar.gz" [] =
  ((Some "asset body", None),
   [Download.EvHTTPDownload "https://github.com/cli/cli/releases/download/v1.0.0/gh.tar.gz";
    Download.EvGetReleaseByTag "cli" "cli" "v1.0.0";
    Download.EvDownloadReleaseAsset "cli" "cli" 42]).
Proof.
  split; [reflexivity|]. split; [reflexivity|]. split; [reflexivity|].
  pose proof (downloadFromGitHubRelease_spec with_token "cli" "cli" "v1.0.0" "gh.tar.gz")
    as (_ & _ & _ & _ & Hapi).
  destruct (Hapi None (ErrNew "status code >= 400: 404") releases_api
                 (Download.mkRelease
                    [Download.mkAsset (Some 41%Z) (Some "checksums.txt");
                     Download.mkAsset (Some 42%Z) (Some "gh.tar.gz")])
                 42%Z eq_refl eq_refl eq_refl eq_refl) as (_ & Hbody & _).
  exact (Hbody "asset body" "" eq_refl).
Defined.

(** ** The link layout *)

Section LinkFacts.

Import Fs InstallPackage.

Ltac run_link :=
  unfold createLink, recreateLink, createHardLink, bind, ret,
    Lstat, Readlink, Remove, Symlink_, Hardlink;
  cbn [entries with_entries data next_ino].

(** Evaluate the tests on a known file mode. *)
Ltac mode_compute :=
  repeat match goal with
    | |- context [IsDir ?m] =>
        let v := eval vm_compute in (IsDir m) in change (IsDir m) with v
    | |- context [IsRegular ?m] =>
        let v := eval vm_compute in (IsRegular m) in change (IsRegular m) with v
    | |- context [(N.land ?m ?b =? 0)%N] =>
        let v := eval vm_compute in (N.land m b =? 0)%N in
        change (N.land m b =? 0)%N with v
    end.

Ltac not_dir :=
  repeat match goal with
    | |- context [bool_decide (?n = Dir)] =>
        rewrite (bool_decide_eq_false_2 (n = Dir)) by discriminate
    end.

Ltac link_case H := run_link; repeat (rewrite ?H; cbn; mode_compute; not_dir; cbn).

Lemma with_entries_insert_delete (f : fs) (k : string) (n : node) :
  with_entries (with_entries f (delete k (entries f)))
               (<[k := n]> (delete k (entries f)))
  = with_entries f (<[k := n]> (entries f)).
Proof. unfold with_entries. cbn. now rewrite insert_delete_eq. Qed.

Lemma createLink_absent (linkPath linkDest : string) (f : fs) :
  entries f !! linkPath = None ->
  createLink linkPath linkDest f =
  (None, with_entries f (<[linkPath := Symlink linkDest]> (entries f))).
Proof. intros H. link_case H. reflexivity. Qed.

Lemma createLink_dir (linkPath linkDest : string) (f : fs) :
  entries f !! linkPath = Some Dir ->
  createLink linkPath linkDest f =
  (Some (ErrFmt (linkPath +:+ " has already existed and is a directory")), f).
Proof. intros H. link_case H. reflexivity. Qed.

Lemma createLink_pipe (linkPath linkDest : string) (f : fs) :
  entries f !! linkPath = Some NamedPipe ->
  createLink linkPath linkDest f =
  (Some (ErrFmt (linkPath +:+ " has already existed and is a named pipe")), f).
Proof. intros H. link_case H. reflexivity. Qed.

Lemma createLink_socket (linkPath linkDest : string) (f : fs) :
  entries f !! linkPath = Some Socket ->
  createLink linkPath linkDest f =
  (Some (ErrFmt ("unexpected file mode " +:+ linkPath +:+ ": Srwxr-xr-x")), f).
Proof. intros H. link_case H. reflexivity. Qed.

Lemma createLink_regular (linkPath linkDest : string) (f : fs) (i : N) :
  entries f !! linkPath = Some (Regular i) ->
  createLink linkPath linkDest f =
  (None, with_entries f (<[linkPath := Symlink linkDest]> (entries f))).
Proof.
  intros H. link_case H.
  rewrite lookup_delete_eq. now rewrite with_entries_insert_delete.
Qed.

Lemma createLink_same (linkPath linkDest : string) (f : fs) :
  entries f !! linkPath = Some (Symlink linkDest) ->
  createLink linkPath linkDest f = (None, f).
Proof.
  intros H. link_case H. now rewrite String.eqb_refl.
Qed.

Lemma createLink_stale (linkPath linkDest target : string) (f : fs) :
  entries f !! linkPath = Some (Symlink target) -> target <> linkDest ->
  createLink linkPath linkDest f =
  (None, with_entries f (<[linkPath := Symlink linkDest]> (entries f))).
Proof.
  intros H Hne.
  assert (E : String.eqb linkDest target = false) by (apply String.eqb_neq; congruence).
  run_link. repeat (rewrite ?H, ?E; cbn; mode_compute; not_dir; cbn).
  rewrite lookup_delete_eq. now rewrite with_entries_insert_delete.
Qed.

(** C9: the case analysis of [createLink] on what exists at [linkPath]: a
    directory or a named pipe makes it fail and leaves the filesystem as it
    was; a regular file is replaced by a symlink to [linkDest]; a symlink
    that already points to [linkDest] is left alone, one that points
    elsewhere is replaced by a symlink to [linkDest]; and when nothing
    exists a symlink to [linkDest] is created. *)
Theorem createLink_spec (linkPath linkDest : string) (f : fs) :
  let linked := with_entries f (<[linkPath := Symlink linkDest]> (entries f)) in
  (entries f !! linkPath = Some Dir ->
   createLink linkPath linkDest f =
   (Some (ErrFmt (linkPath +:+ " has already existed and is a directory")), f)) /\
  (entries f !! linkPath = Some NamedPipe ->
   createLink linkPath linkDest f =
   (Some (ErrFmt (linkPath +:+ " has already existed and is a named pipe")), f)) /\
  (forall i, entries f !! linkPath = Some (Regular i) ->
   createLink linkPath linkDest f = (None, linked)) /\
  (entries f !! linkPath = Some (Symlink linkDest) ->
   createLink linkPath linkDest f = (None, f)) /\
  (forall target, entries f !! linkPath = Some (Symlink target) -> target <> linkDest ->
   createLink linkPath linkDest f = (None, linked)) /\
  (entries f !! linkPath = None ->
   createLink linkPath linkDest f = (None, linked)) /\
  entries linked !! linkPath = Some (Symlink linkDest) /\
  (forall other, other <> linkPath -> entries linked !! other = entries f !! other).
Proof.
  cbv zeta. repeat apply conj.
  - apply createLink_dir.
  - apply createLink_pipe.
  - intros i H. exact (createLink_regular linkPath linkDest f i H).
  - apply createLink_same.
  - intros target H Hne. exact (createLink_stale linkPath linkDest target f H Hne).
  - apply createLink_absent.
  - cbn. apply lookup_insert_eq.
  - intros other Hne. cbn. now apply lookup_insert_ne.
Qed.

(** *** [createLinks] *)

(** What a call of [createLink] can do to the filesystem. *)
Lemma createLink_effect (linkPath linkDest : string) (f f' : fs) (r : option error) :
  createLink linkPath linkDest f = (r, f') ->
  (f' = f /\ (r = None -> entries f !! linkPath = Some (Symlink linkDest))) \/
  (r = None /\ f' = with_entries f (<[linkPath := Symlink linkDest]> (entries f))).
Proof.
  intros E.
  destruct (entries f !! linkPath) as [[| |i|target|]|] eqn:H.
  - rewrite (createLink_dir _ _ _ H) in E. inversion E; subst. left. split; [reflexivity | discriminate].
  - rewrite (createLink_pipe _ _ _ H) in E. inversion E; subst. left. split; [reflexivity | discriminate].
  - rewrite (createLink_regular _ _ _ _ H) in E. inversion E; subst. right. split; reflexivity.
  - destruct (decide (target = linkDest)) as [-> | Hne].
    + rewrite (createLink_same _ _ _ H) in E. inversion E; subst. left. split; [reflexivity | reflexivity].
    + rewrite (createLink_stale _ _ _ _ H Hne) in E. inversion E; subst. right. split; reflexivity.
  - rewrite (createLink_socket _ _ _ H) in E. inversion E; subst. left. split; [reflexivity | discriminate].
  - rewrite (createLink_absent _ _ _ H) in E. inversion E; subst. right. split; reflexivity.
Qed.

Lemma createLink_result (linkPath linkDest : string) (f f' : fs) :
  createLink linkPath linkDest f = (None, f') ->
  entries f' !! linkPath = Some (Symlink linkDest).
Proof.
  intros E. destruct (createLink_effect _ _ _ _ _ E) as [[-> H] | [_ ->]].
  - now apply H.
  - cbn. apply lookup_insert_eq.
Qed.

Lemma createLink_keeps (linkPath linkDest q : string) (f f' : fs) (r : option error) :
  createLink linkPath linkDest f = (r, f') ->
  entries f !! q = Some (Symlink linkDest) ->
  entries f' !! q = Some (Symlink linkDest).
Proof.
  intros E Hq. destruct (createLink_effect _ _ _ _ _ E) as [[-> _] | [_ ->]]; [exact Hq|].
  cbn. destruct (decide (linkPath = q)) as [-> | Hne].
  - apply lookup_insert_eq.
  - now rewrite lookup_insert_ne.
Qed.

Lemma createLink_elsewhere (linkPath linkDest q : string) (f f' : fs) (r : option error) :
  createLink linkPath linkDest f = (r, f') -> q <> linkPath ->
  entries f' !! q = entries f !! q.
Proof.
  intros E Hq. destruct (createLink_effect _ _ _ _ _ E) as [[-> _] | [_ ->]]; [reflexivity|].
  cbn. now rewrite lookup_insert_ne.
Qed.

Lemma createHardLink_effect (linkPath linkDest : string) (f f' : fs) (r : option error) :
  createHardLink linkPath linkDest f = (r, f') ->
  (r <> None /\ f' = f) \/
  (r = None /\ exists n, entries f !! linkDest = Some n /\ n <> Dir /\
                         entries f !! linkPath = None /\
                         f' = with_entries f (<[linkPath := n]> (entries f))).
Proof.
  run_link. intros E.
  destruct (entries f !! linkDest) as [n|] eqn:Hd.
  - destruct (entries f !! linkPath) as [m|] eqn:Hp.
    + left. destruct n; inversion E; subst; split; (discriminate || reflexivity).
    + destruct n; inversion E; subst;
        solve [ left; split; [discriminate | reflexivity]
              | right; split; [reflexivity|]; eexists; repeat split; discriminate ].
  - inversion E; subst. left. split; [discriminate | reflexivity].
Qed.

Lemma createLinks_files_unix (inst : Installer) (files : list File) :
  isWindows (GOOS inst) = false ->
  forall (failed failed' : bool) (f f' : fs),
  createLinks_files inst files failed f = (failed', f') ->
  (forall q, entries f !! q = Some (Symlink "../aqua-proxy") ->
             entries f' !! q = Some (Symlink "../aqua-proxy")) /\
  (forall q, (forall file, file ∈ files -> q <> shim inst file) ->
             entries f' !! q = entries f !! q) /\
  (failed' = false ->
   failed = false /\
   forall file, file ∈ files ->
     entries f' !! shim inst file = Some (Symlink "../aqua-proxy")).
Proof.
  intros Hw. induction files as [|file rest IH]; intros failed failed' f f' E.
  - cbn in E. inversion E; subst. repeat split; try tauto.
    intros file Hin. inversion Hin.
  - cbn [createLinks_files] in E. rewrite Hw in E. unfold bind at 1 in E.
    change (Filepath.Join [".."; proxyName]) with "../aqua-proxy" in E.
    fold (shim inst file) in E.
    destruct (createLink (shim inst file) "../aqua-proxy" f) as [err f1] eqn:E1.
    destruct (IH _ _ _ _ E) as (Hkeep & Hother & Hall).
    split; [|split].
    + intros q Hq. apply Hkeep. exact (createLink_keeps _ _ _ _ _ _ E1 Hq).
    + intros q Hq. rewrite Hother.
      * apply (createLink_elsewhere _ _ _ _ _ _ E1). apply Hq. left.
      * intros file' Hin. apply Hq. now right.
    + intros Hf. destruct (Hall Hf) as [Hfailed Hrest].
      destruct err as [e|]; [discriminate|]. split; [exact Hfailed|].
      intros file' Hin. apply elem_of_cons in Hin as [-> | Hin].
      * apply Hkeep. exact (createLink_result _ _ _ _ E1).
      * now apply Hrest.
Qed.

Lemma createLinks_pkgs_unix (inst : Installer) (pkgs : list Package) :
  isWindows (GOOS inst) = false ->
  forall (failed failed' : bool) (f f' : fs),
  createLinks_pkgs inst pkgs failed f = (failed', f') ->
  (forall q, entries f !! q = Some (Symlink "../aqua-proxy") ->
             entries f' !! q = Some (Symlink "../aqua-proxy")) /\
  (forall q, (forall file, file ∈ all_files pkgs -> q <> shim inst file) ->
             entries f' !! q = entries f !! q) /\
  (failed' = false ->
   failed = false /\
   forall file, file ∈ all_files pkgs ->
     entries f' !! shim inst file = Some (Symlink "../aqua-proxy")).
Proof.
  intros Hw. induction pkgs as [|pkg rest IH]; intros failed failed' f f' E.
  - cbn in E. inversion E; subst. repeat split; try tauto.
    intros file Hin. inversion Hin.
  - cbn [createLinks_pkgs] in E. unfold bind at 1 in E.
    destruct (createLinks_files inst (GetFiles (PackageInfo_ pkg)) failed f)
      as [failed1 f1] eqn:E1.
    destruct (createLinks_files_unix inst _ Hw _ _ _ _ E1) as (Hk1 & Ho1 & Ha1).
    destruct (IH _ _ _ _ E) as (Hk & Ho & Ha).
    cbn [all_files flat_map]. fold (all_files rest).
    split; [|split].
    + intros q Hq. apply Hk, Hk1, Hq.
    + intros q Hq. rewrite Ho, Ho1; [reflexivity| |].
      * intros file Hin. apply Hq. apply elem_of_app. now left.
      * intros file Hin. apply Hq. apply elem_of_app. now right.
    + intros Hf. destruct (Ha Hf) as [Hf1 Hrest]. destruct (Ha1 Hf1) as [Hf0 Hfirst].
      split; [exact Hf0|]. intros file Hin. apply elem_of_app in Hin as [Hin | Hin].
      * apply Hk, Hfirst, Hin.
      * apply Hrest, Hin.
Qed.

Lemma createLinks_files_windows (inst : Installer) (files : list File) :
  isWindows (GOOS inst) = true ->
  forall (failed failed' : bool) (f f' : fs),
  createLinks_files inst files failed f = (failed', f') ->
  (forall q, is_Some (entries f !! q) \/ q = proxy_exe inst ->
             entries f' !! q = entries f !! q) /\
  (failed' = false ->
   failed = false /\
   forall file, file ∈ files ->
     exists n, entries f !! proxy_exe inst = Some n /\ n <> Dir /\
               entries f' !! shim_exe inst file = Some n).
Proof.
  intros Hw. induction files as [|file rest IH]; intros failed failed' f f' E.
  - cbn in E. inversion E; subst. repeat split; try tauto.
    intros file Hin. inversion Hin.
  - cbn [createLinks_files] in E. rewrite Hw in E. unfold bind at 1 in E.
    change (Filepath.Join [rootDir inst; proxyName +:+ ".exe"]) with (proxy_exe inst) in E.
    fold (shim_exe inst file) in E.
    destruct (createHardLink (shim_exe inst file) (proxy_exe inst) f) as [err f1] eqn:E1.
    destruct (IH _ _ _ _ E) as (Hkeep & Hall).
    assert (Hkeep1 : forall q, is_Some (entries f !! q) \/ q = proxy_exe inst ->
                               entries f1 !! q = entries f !! q).
    { intros q Hq.
      destruct (createHardLink_effect _ _ _ _ _ E1)
        as [[_ ->] | (_ & n & Hn & Hd & Hfresh & ->)]; [reflexivity|].
      cbn [entries with_entries]. apply lookup_insert_ne.
      intros <-. destruct Hq as [Hq | Hq].
      - rewrite Hfresh in Hq. now destruct Hq.
      - rewrite <- Hq, Hfresh in Hn. discriminate. }
    split.
    + intros q Hq. rewrite Hkeep; [now apply Hkeep1|].
      destruct Hq as [Hq | Hq]; [left | now right].
      rewrite Hkeep1; [exact Hq | now left].
    + intros Hf. destruct (Hall Hf) as [Hfailed Hrest].
      destruct err as [e|]; [discriminate|]. split; [exact Hfailed|].
      intros file' Hin. apply elem_of_cons in Hin as [-> | Hin].
      * destruct (createHardLink_effect _ _ _ _ _ E1)
          as [[Hne _] | (_ & n & Hn & Hd & Hfresh & Hf1)]; [congruence|].
        exists n. split; [exact Hn|]. split; [exact Hd|].
        assert (Hl : entries f1 !! shim_exe inst file = Some n).
        { rewrite Hf1. cbn [entries with_entries]. apply lookup_insert_eq. }
        rewrite Hkeep; [exact Hl | left; rewrite Hl; eauto].
      * destruct (Hrest _ Hin) as (n' & Hn' & Hd' & Hl). exists n'.
        split; [|split; [exact Hd' | exact Hl]].
        rewrite <- Hn'. symmetry. apply Hkeep1. now right.
Qed.

Lemma createLinks_pkgs_windows (inst : Installer) (pkgs : list Package) :
  isWindows (GOOS inst) = true ->
  forall (failed failed' : bool) (f f' : fs),
  createLinks_pkgs inst pkgs failed f = (failed', f') ->
  (forall q, is_Some (entries f !! q) \/ q = proxy_exe inst ->
             entries f' !! q = entries f !! q) /\
  (failed' = false ->
   failed = false /\
   forall file, file ∈ all_files pkgs ->
     exists n, entries f !! proxy_exe inst = Some n /\ n <> Dir /\
               entries f' !! shim_exe inst file = Some n).
Proof.
  intros Hw. induction pkgs as [|pkg rest IH]; intros failed failed' f f' E.
  - cbn in E. inversion E; subst. repeat split; try tauto.
    intros file Hin. inversion Hin.
  - cbn [createLinks_pkgs] in E. unfold bind at 1 in E.
    destruct (createLinks_files inst (GetFiles (PackageInfo_ pkg)) failed f)
      as [failed1 f1] eqn:E1.
    destruct (createLinks_files_windows inst _ Hw _ _ _ _ E1) as (Hk1 & Ha1).
    destruct (IH _ _ _ _ E) as (Hk & Ha).
    cbn [all_files flat_map]. fold (all_files rest).
    split.
    + intros q Hq. rewrite Hk; [now apply Hk1|].
      destruct Hq as [Hq | Hq]; [left | now right].
      rewrite Hk1; [exact Hq | now left].
    + intros Hf. destruct (Ha Hf) as [Hf1 Hrest]. destruct (Ha1 Hf1) as [Hf0 Hfirst].
      split; [exact Hf0|]. intros file Hin. apply elem_of_app in Hin as [Hin | Hin].
      * destruct (Hfirst _ Hin) as (n & Hn & Hd & Hl). exists n.
        split; [exact Hn|]. split; [exact Hd|].
        rewrite Hk; [exact Hl | left; rewrite Hl; eauto].
      * destruct (Hrest _ Hin) as (n & Hn & Hd & Hl). exists n.
        split; [|split; [exact Hd | exact Hl]].
        rewrite <- Hn. symmetry. apply Hk1. now right.
Qed.

(** *** [replaceWithHardlinks] *)









Lemma replaceWithHardlinks_done (inst : Installer) (f : fs) :
  is_Some (entries f !! sentinel inst) ->
  replaceWithHardlinks inst f = (None, f).
Proof.
  intros H. unfold replaceWithHardlinks, bind, Exists, ret. fold (sentinel inst).
  now rewrite (bool_decide_eq_true_2 _ H).
Qed.


(** *** The outcome of [createLinks], file by file *)









End LinkFacts.

Lemma createLink_spec_witness :
  Fs.entries before_migration !! "/root/.aqua/bin" = Some Fs.Dir /\
  InstallPackage.createLink "/root/.aqua/bin" "../aqua-proxy" before_migration =
  (Some (ErrFmt "/root/.aqua/bin has already existed and is a directory"),
   before_migration) /\
  Fs.entries after_migration !! "/root/.aqua/bin/gh" = None /\
  InstallPackage.createLink "/root/.aqua/bin/gh" "../aqua-proxy" after_migration =
  (None, Fs.with_entries after_migration
           (<["/root/.aqua/bin/gh" := Fs.Symlink "../aqua-proxy"]>
              (Fs.entries after_migration))).
Proof.
  pose proof (createLink_spec "/root/.aqua/bin" "../aqua-proxy" before_migration)
    as (Hdir & _).
  pose proof (createLink_spec "/root/.aqua/bin/gh" "../aqua-proxy" after_migration)
    as (_ & _ & _ & _ & _ & Habsent & _).
  assert (H1 : Fs.entries before_migration !! "/root/.aqua/bin" = Some Fs.Dir)
    by (vm_compute; reflexivity).
  assert (H2 : Fs.entries after_migration !! "/root/.aqua/bin/gh" = None)
    by (vm_compute; reflexivity).
  split; [exact H1|]. split; [exact (Hdir H1)|]. split; [exact H2|]. exact (Habsent H2).
Defined.


(** ** HTTP registry archives *)

Section RegistryArchiveFacts.

Import Fs InstallRegistry.

Context {Config Checksums : Type}.
Variable json_Unmarshal yaml_Unmarshal : list N -> result Config.
Variable Unarchive : string -> string -> string -> State fs (option error).
Variable template_Execute : string -> string -> result string.
Variable http_Download : string -> result (result (list N)).
Variable CheckRegistry : Aqua.Registry -> Checksums -> list N -> option error.






End RegistryArchiveFacts.



(** * Further properties of the modelled code *)

(** ** The registry descriptor *)

Section RegistryMore.

Import Aqua.

(** X1: A registry that passes [Validate] has a cache path: [FilePath] fails
    only for a registry type that [Validate] rejects as invalid. *)
Theorem Validate_then_FilePath (r : Registry) (rootDir cfgFilePath : string) :
  (Validate r = None -> exists p, FilePath r rootDir cfgFilePath = Ok p) /\
  (forall e, FilePath r rootDir cfgFilePath = Err e ->
     e = errInvalidRegistryType /\
     Validate r = Some (ErrWithFields errInvalidRegistryType
                          [("registry_type", Type_ r)])).
Proof.
  unfold Validate, FilePath.
  destruct (String.eqb (Type_ r) RegistryTypeLocal);
    [split; [eauto | discriminate]|].
  destruct (String.eqb (Type_ r) RegistryTypeGitHubContent);
    [split; [eauto | discriminate]|].
  destruct (String.eqb (Type_ r) RegistryTypeHTTP);
    [split; [eauto | discriminate]|].
  split; [discriminate|]. intros e H. inversion H. split; reflexivity.
Qed.

Lemma Validate_then_FilePath_witness :
  Validate pinned_registry = None /\
  exists p, FilePath pinned_registry "/root/.aqua" "aqua.yaml" = Ok p.
Proof.
  split; [reflexivity|].
  exact (proj1 (Validate_then_FilePath pinned_registry "/root/.aqua" "aqua.yaml") eq_refl).
Defined.

(** X2: [UnmarshalYAML] hands a decoder error through, never returns a registry
    of type [standard], and is stable: decoding its own result again
    changes nothing. *)
Theorem UnmarshalYAML_normal_form (r0 : Registry) (unmarshal : Registry -> result Registry) :
  (forall e, unmarshal r0 = Err e -> UnmarshalYAML r0 unmarshal = Err e) /\
  (forall r', UnmarshalYAML r0 unmarshal = Ok r' ->
     Type_ r' <> "standard" /\
     forall r1, UnmarshalYAML r1 (decode_as r') = Ok r').
Proof.
  split.
  - intros e He. unfold UnmarshalYAML. rewrite He. reflexivity.
  - intros r' H.
    assert (Ht : Type_ r' <> "standard").
    { destruct (unmarshal r0) as [d|e] eqn:Hd.
      - destruct (String.eqb_spec (Type_ d) "standard") as [Hs | Hs].
        + rewrite (UnmarshalYAML_standard r0 d unmarshal Hd Hs) in H.
          inversion H; subst. discriminate.
        + rewrite (UnmarshalYAML_other r0 d unmarshal Hd Hs) in H.
          inversion H; subst. exact Hs.
      - unfold UnmarshalYAML in H. rewrite Hd in H. discriminate. }
    split; [exact Ht|]. intros r1. now apply UnmarshalYAML_other.
Qed.

Lemma UnmarshalYAML_normal_form_witness :
  UnmarshalYAML empty_registry (decode_as standard_v250) = Ok standard_v250_read /\
  Type_ standard_v250_read <> "standard" /\
  UnmarshalYAML empty_registry (decode_as standard_v250_read) = Ok standard_v250_read.
Proof.
  destruct (proj2 (UnmarshalYAML_normal_form empty_registry (decode_as standard_v250))
              standard_v250_read eq_refl) as [Ht Hagain].
  split; [reflexivity|]. split; [exact Ht | exact (Hagain empty_registry)].
Defined.

End RegistryMore.

(** ** The exec controller *)

Section ExecMore.

Import Exec.

Variable ctrl : Controller.
Variable ctx : Context.
Variable exePath : string.
Variable args : list string.

(** X3: With x-sys exec enabled every failure of [ExecXSys] is retried after a
    10 ms wait, whatever the state of the context when it fails: ten
    failures give "it failed to start the process", a call that returns
    without error ends the loop with no error, and a wait that the context
    cuts short ends it with the context's error. *)
Theorem execCommandWithRetry_xsys (w : World) (k : nat) :
  enabledXSysExec ctrl = true ->
  (k <= 10)%nat ->
  (forall j, (j < k)%nat ->
     execve_fails (executor ctrl) ctx exePath args (now w + 2 * j)) ->
  let t := (now w + 2 * k)%nat in
  let waited := (trace w ++ failed_execve exePath args k)%list in
  (k = 10%nat ->
   execCommandWithRetry ctrl ctx exePath args w =
   (Some errFailedToStartProcess, mkWorld t waited)) /\
  ((k < 10)%nat -> ExecXSys (executor ctrl) t exePath args = None ->
   execCommandWithRetry ctrl ctx exePath args w =
   (None, mkWorld (S t) (waited ++ [EvExecXSys exePath args])%list)) /\
  ((k < 10)%nat -> forall err cancelled,
     ExecXSys (executor ctrl) t exePath args = Some err ->
     ctx (S (S t)) = Some cancelled ->
     execCommandWithRetry ctrl ctx exePath args w =
     (Some cancelled,
      mkWorld (S (S t)) (waited ++ [EvExecXSys exePath args; EvWait 10])%list)).
Proof.
  intros Hx Hk Hf t waited. unfold execCommandWithRetry.
  rewrite (xsys_prefix ctrl ctx exePath args k 10 w Hx Hk Hf). fold t waited.
  split; [|split].
  - intros ->. reflexivity.
  - intros Hlt He. destruct (10 - k)%nat as [|n] eqn:E; [lia|].
    cbn [retry_loop]. unfold bind at 1. unfold execCommand. rewrite Hx.
    unfold bind at 1, call_ExecXSys. cbn [now trace]. rewrite He. reflexivity.
  - intros Hlt err cancelled He Hc. destruct (10 - k)%nat as [|n] eqn:E; [lia|].
    cbn [retry_loop]. unfold bind at 1. unfold execCommand. rewrite Hx.
    unfold bind at 1, call_ExecXSys. cbn [now trace]. rewrite He.
    cbn. unfold bind, wait. cbn [now trace]. rewrite Hc.
    rewrite <- app_assoc. reflexivity.
Qed.

(** X4: On the [Exec] path, when an attempt fails to start (exit code -1, the
    context live when consulted) but the context is cancelled before the
    10 ms wait is over, the loop ends there: it returns the context's error
    as it is, neither the executor's error nor an exit code, and makes no
    further attempt. *)
Theorem execCommandWithRetry_cancelled_in_wait (w : World) (k : nat)
        (err cancelled : error) :
  enabledXSysExec ctrl = false ->
  (k < 10)%nat ->
  (forall j, (j < k)%nat ->
     fails_to_start (executor ctrl) ctx exePath args (now w + 2 * j)) ->
  let t := (now w + 2 * k)%nat in
  Exec (executor ctrl) t exePath args = ((-1)%Z, Some err) ->
  ctx (S t) = None ->
  ctx (S (S t)) = Some cancelled ->
  execCommandWithRetry ctrl ctx exePath args w =
  (Some cancelled,
   mkWorld (S (S t))
     (trace w ++ failed_attempts exePath args k
      ++ [EvExec exePath args; EvWait 10])%list).
Proof.
  intros Hx Hk Hf t He Hc Hw. unfold execCommandWithRetry.
  rewrite (retry_loop_prefix ctrl ctx exePath args k 10 w Hx ltac:(lia) Hf). fold t.
  destruct (10 - k)%nat as [|n] eqn:E; [lia|].
  cbn [retry_loop]. unfold bind at 1. unfold execCommand. rewrite Hx.
  unfold bind at 1, call_Exec. cbn [now trace]. rewrite He.
  unfold bind at 1, ctx_Err. cbn [now]. rewrite Hc.
  cbn. unfold bind, wait. cbn [now trace]. rewrite Hw.
  rewrite <- !app_assoc. reflexivity.
Qed.

(** X5: Whatever the executor and the context do, the loop returns no error,
    "it failed to start the process", an executor error wrapped with its
    exit code (only with x-sys exec disabled), or an error of the context;
    no other error is returned. *)
Theorem execCommandWithRetry_errors (w : World) (e : error) :
  (execCommandWithRetry ctrl ctx exePath args w).1 = Some e ->
  e = errFailedToStartProcess \/
  (exists t, ctx t = Some e) \/
  (enabledXSysExec ctrl = false /\
   exists t err code, Exec (executor ctrl) t exePath args = (code, Some err) /\
                      e = ErrExitCode err code).
Proof.
  unfold execCommandWithRetry. generalize 10%nat as n. intros n. revert w.
  induction n as [|n IH]; intros w H.
  - cbn in H. inversion H. now left.
  - cbn [retry_loop] in H. unfold bind at 1 in H. unfold execCommand in H.
    destruct (enabledXSysExec ctrl) eqn:Hx.
    + unfold bind at 1, call_ExecXSys in H.
      destruct (ExecXSys (executor ctrl) (now w) exePath args) as [err|]; cbn in H.
      * unfold bind, wait in H. cbn [now trace] in H.
        destruct (ctx (S (S (now w)))) as [c|] eqn:Hc.
        -- cbn in H. inversion H; subst. right. left. eauto.
        -- destruct (IH _ H) as [? | [? | [? _]]]; [now left | now right; left | discriminate].
      * discriminate.
    + unfold bind at 1, call_Exec in H.
      destruct (Exec (executor ctrl) (now w) exePath args) as [code [err|]] eqn:He;
        [|discriminate].
      unfold bind at 1, ctx_Err in H. cbn [now] in H.
      destruct ((code =? -1)%Z && bool_decide (ctx (S (now w)) = None)); cbn in H.
      * unfold bind, wait in H. cbn [now trace] in H.
        destruct (ctx (S (S (now w)))) as [c|] eqn:Hc.
        -- cbn in H. inversion H; subst. right. left. eauto.
        -- apply (IH _ H).
      * inversion H; subst. right. right. split; [reflexivity|]. eauto.
Qed.

End ExecMore.

Lemma execCommandWithRetry_xsys_witness :
  Exec.enabledXSysExec execve_enoent = true /\
  Exec.execCommandWithRetry execve_enoent cancelled_at_4 "gh" [] (Exec.mkWorld 0 []) =
  (Some (ErrNew "context canceled"),
   Exec.mkWorld 4 (failed_execve "gh" [] 1
                   ++ [Exec.EvExecXSys "gh" []; Exec.EvWait 10])%list).
Proof.
  split; [reflexivity|].
  refine (proj2 (proj2 (execCommandWithRetry_xsys execve_enoent cancelled_at_4 "gh" []
                          (Exec.mkWorld 0 []) 1 eq_refl _ _)) _
            (ErrNew "no such file or directory") (ErrNew "context canceled")
            eq_refl eq_refl).
  - lia.
  - intros j Hj. exists (ErrNew "no such file or directory").
    destruct j as [|j]; [split; reflexivity | lia].
  - lia.
Defined.

Lemma execCommandWithRetry_cancelled_in_wait_witness :
  Exec.execCommandWithRetry never_starts cancelled_at_4 "gh" [] (Exec.mkWorld 0 []) =
  (Some (ErrNew "context canceled"),
   Exec.mkWorld 4 (failed_attempts "gh" [] 1
                   ++ [Exec.EvExec "gh" []; Exec.EvWait 10])%list).
Proof.
  refine (execCommandWithRetry_cancelled_in_wait never_starts cancelled_at_4 "gh" []
            (Exec.mkWorld 0 []) 1 (ErrNew "fork/exec: text file busy")
            (ErrNew "context canceled") eq_refl _ _ eq_refl eq_refl eq_refl).
  - lia.
  - intros j Hj. exists (ErrNew "fork/exec: text file busy").
    destruct j as [|j]; [repeat split | lia].
Defined.

Lemma execCommandWithRetry_errors_witness :
  (Exec.execCommandWithRetry never_starts background "gh" [] (Exec.mkWorld 0 [])).1
  = Some Exec.errFailedToStartProcess /\
  (Exec.errFailedToStartProcess = Exec.errFailedToStartProcess \/
   (exists t, background t = Some Exec.errFailedToStartProcess) \/
   (Exec.enabledXSysExec never_starts = false /\
    exists t err code,
      Exec.Exec (Exec.executor never_starts) t "gh" [] = (code, Some err) /\
      Exec.errFailedToStartProcess = ErrExitCode err code)).
Proof.
  split; [reflexivity|].
  exact (execCommandWithRetry_errors never_starts background "gh" []
           (Exec.mkWorld 0 []) Exec.errFailedToStartProcess eq_refl).
Defined.

(** ** The link layout *)

Section LinkMore.

Import Fs InstallPackage.

(** X6: A successful [createLink] changes nothing but the entry at [linkPath],
    and running it again is a no-op. *)
Theorem createLink_idempotent (linkPath linkDest : string) (f f' : fs) :
  createLink linkPath linkDest f = (None, f') ->
  createLink linkPath linkDest f' = (None, f') /\
  (forall q, q <> linkPath -> entries f' !! q = entries f !! q) /\
  data f' = data f /\ next_ino f' = next_ino f.
Proof.
  intros E. split; [|split].
  - apply createLink_same. exact (createLink_result _ _ _ _ E).
  - intros q Hq. exact (createLink_elsewhere _ _ _ _ _ _ E Hq).
  - destruct (createLink_effect _ _ _ _ _ E) as [[-> _] | [_ ->]]; split; reflexivity.
Qed.

Lemma createLinks_files_settled (inst : Installer) (files : list File) (failed : bool) (f : fs) :
  isWindows (GOOS inst) = false ->
  (forall file, file ∈ files ->
     entries f !! shim inst file = Some (Symlink "../aqua-proxy")) ->
  createLinks_files inst files failed f = (failed, f).
Proof.
  intros Hw. induction files as [|file rest IH]; intros Hall; [reflexivity|].
  cbn [createLinks_files]. rewrite Hw. unfold bind at 1.
  change (Filepath.Join [".."; proxyName]) with "../aqua-proxy".
  fold (shim inst file).
  rewrite (createLink_same _ _ _ (Hall file ltac:(left))).
  apply IH. intros file' Hin. apply Hall. now right.
Qed.

Lemma createLinks_pkgs_settled (inst : Installer) (pkgs : list Package) (failed : bool) (f : fs) :
  isWindows (GOOS inst) = false ->
  (forall file, file ∈ all_files pkgs ->
     entries f !! shim inst file = Some (Symlink "../aqua-proxy")) ->
  createLinks_pkgs inst pkgs failed f = (failed, f).
Proof.
  intros Hw. induction pkgs as [|pkg rest IH]; intros Hall; [reflexivity|].
  cbn [createLinks_pkgs]. unfold bind at 1.
  rewrite createLinks_files_settled; [|exact Hw|].
  - apply IH. intros file Hin. apply Hall. cbn [all_files flat_map].
    apply elem_of_app. now right.
  - intros file Hin. apply Hall. cbn [all_files flat_map].
    apply elem_of_app. now left.
Qed.

(** X7: Off Windows, [createLinks] is idempotent: after a run that reported no
    failure, a second run over the same packages reports no failure and
    leaves the filesystem exactly as it is. *)
Theorem createLinks_idempotent (inst : Installer) (pkgs : list Package) (f f' : fs) :
  isWindows (GOOS inst) = false ->
  createLinks inst pkgs f = (false, f') ->
  createLinks inst pkgs f' = (false, f').
Proof.
  intros Hw E. unfold createLinks in *.
  apply createLinks_pkgs_settled; [exact Hw|].
  destruct (createLinks_pkgs_unix inst pkgs Hw _ _ _ _ E) as (_ & _ & Hall).
  apply Hall. reflexivity.
Qed.

Lemma createLinks_files_taken (inst : Installer) (files : list File) :
  isWindows (GOOS inst) = true ->
  forall (failed failed' : bool) (f f' : fs),
  createLinks_files inst files failed f = (failed', f') ->
  failed = true \/ (exists file, file ∈ files /\ is_Some (entries f !! shim_exe inst file)) ->
  failed' = true.
Proof.
  intros Hw. induction files as [|file rest IH]; intros failed failed' f f' E H.
  - cbn in E. inversion E; subst. destruct H as [H | (file & Hin & _)]; [exact H|].
    inversion Hin.
  - cbn [createLinks_files] in E. rewrite Hw in E. unfold bind at 1 in E.
    change (Filepath.Join [rootDir inst; proxyName +:+ ".exe"]) with (proxy_exe inst) in E.
    fold (shim_exe inst file) in E.
    destruct (createHardLink (shim_exe inst file) (proxy_exe inst) f) as [err f1] eqn:E1.
    apply (IH _ _ _ _ E).
    destruct (createHardLink_effect _ _ _ _ _ E1)
      as [[Hne ->] | (-> & n & Hn & Hd & Hfresh & ->)].
    + left. destruct err; [reflexivity | congruence].
    + destruct H as [-> | (file' & Hin & Hex)]; [now left|].
      right. apply elem_of_cons in Hin as [-> | Hin].
      * rewrite Hfresh in Hex. now destruct Hex.
      * exists file'. split; [exact Hin|]. cbn [entries with_entries].
        rewrite lookup_insert_is_Some'. now right.
Qed.

Lemma createLinks_pkgs_taken (inst : Installer) (pkgs : list Package) :
  isWindows (GOOS inst) = true ->
  forall (failed failed' : bool) (f f' : fs),
  createLinks_pkgs inst pkgs failed f = (failed', f') ->
  failed = true \/
  (exists file, file ∈ all_files pkgs /\ is_Some (entries f !! shim_exe inst file)) ->
  failed' = true.
Proof.
  intros Hw. induction pkgs as [|pkg rest IH]; intros failed failed' f f' E H.
  - cbn in E. inversion E; subst. destruct H as [H | (file & Hin & _)]; [exact H|].
    inversion Hin.
  - cbn [createLinks_pkgs] in E. unfold bind at 1 in E.
    destruct (createLinks_files inst (GetFiles (PackageInfo_ pkg)) failed f)
      as [failed1 f1] eqn:E1.
    apply (IH _ _ _ _ E).
    destruct H as [-> | (file & Hin & Hex)].
    + left. apply (createLinks_files_taken inst _ Hw _ _ _ _ E1). now left.
    + cbn [all_files flat_map] in Hin. apply elem_of_app in Hin as [Hin | Hin].
      * left. apply (createLinks_files_taken inst _ Hw _ _ _ _ E1). right. eauto.
      * right. exists file. split; [exact Hin|].
        destruct (createLinks_files_windows inst _ Hw _ _ _ _ E1) as (Hkeep & _).
        rewrite Hkeep; [exact Hex | now left].
Qed.

(** X8: On Windows [createLinks] reports a failure whenever the shim of one of
    the files already exists, since a hard link cannot be created over an
    existing entry; in particular a second run after a successful one over
    at least one file fails. *)
Theorem createLinks_windows_existing_shim (inst : Installer) (pkgs : list Package)
        (f f' : fs) (failed : bool) (file : File) :
  isWindows (GOOS inst) = true ->
  createLinks inst pkgs f = (failed, f') ->
  file ∈ all_files pkgs ->
  (is_Some (entries f !! shim_exe inst file) -> failed = true) /\
  (failed = false -> (createLinks inst pkgs f').1 = true).
Proof.
  intros Hw E Hin. split.
  - intros Hex. apply (createLinks_pkgs_taken inst pkgs Hw _ _ _ _ E). right. eauto.
  - intros ->. unfold createLinks in *.
    destruct (createLinks_pkgs inst pkgs false f') as [failed2 f2] eqn:E2. cbn.
    apply (createLinks_pkgs_taken inst pkgs Hw _ _ _ _ E2). right.
    exists file. split; [exact Hin|].
    destruct (createLinks_pkgs_windows inst pkgs Hw _ _ _ _ E) as (_ & Hall).
    destruct (Hall eq_refl) as [_ Hfiles].
    destruct (Hfiles _ Hin) as (n & _ & _ & Hl). rewrite Hl. eauto.
Qed.

End LinkMore.

Lemma createLink_idempotent_witness :
  exists f',
    InstallPackage.createLink "/root/.aqua/bin/gh" "../aqua-proxy" after_migration
    = (None, f') /\
    InstallPackage.createLink "/root/.aqua/bin/gh" "../aqua-proxy" f' = (None, f').
Proof.
  destruct (InstallPackage.createLink "/root/.aqua/bin/gh" "../aqua-proxy" after_migration)
    as [r f'] eqn:E.
  assert (Hr : r = None) by (vm_compute in E; congruence). subst r.
  exists f'. split; [reflexivity|].
  exact (proj1 (createLink_idempotent _ _ _ _ E)).
Defined.

Lemma createLinks_idempotent_witness :
  InstallPackage.isWindows (InstallPackage.GOOS on_linux) = false /\
  exists f',
    InstallPackage.createLinks on_linux [gh_package] after_migration = (false, f') /\
    InstallPackage.createLinks on_linux [gh_package] f' = (false, f').
Proof.
  split; [reflexivity|].
  destruct (InstallPackage.createLinks on_linux [gh_package] after_migration)
    as [failed f'] eqn:E.
  assert (Hf : failed = false) by (vm_compute in E; congruence). subst failed.
  exists f'. split; [reflexivity|].
  exact (createLinks_idempotent on_linux [gh_package] after_migration f' eq_refl E).
Defined.

Lemma createLinks_windows_existing_shim_witness :
  InstallPackage.isWindows (InstallPackage.GOOS on_windows) = true /\
  exists f',
    InstallPackage.createLinks on_windows [gh_package] windows_fs = (false, f') /\
    (InstallPackage.createLinks on_windows [gh_package] f').1 = true.
Proof.
  split; [reflexivity|].
  destruct (InstallPackage.createLinks on_windows [gh_package] windows_fs)
    as [failed f'] eqn:E.
  assert (Hf : failed = false) by (vm_compute in E; congruence). subst failed.
  exists f'. split; [reflexivity|].
  refine (proj2 (createLinks_windows_existing_shim on_windows [gh_package] windows_fs
                   f' false gh eq_refl E _) eq_refl).
  left.
Defined.

Section MigrationMore.

Import Fs InstallPackage.

(** The loop of the migration never creates an entry at a path where there
    was none. *)
Lemma replace_entries_no_new_path (binDir proxy : string) (infos : list string) :
  forall (f f' : fs) (r : option error) (q : string),
  replace_entries binDir proxy infos f = (r, f') ->
  entries f !! q = None -> entries f' !! q = None.
Proof.
  induction infos as [|info rest IH]; intros f f' r q E Hq.
  - cbn in E. inversion E; subst. exact Hq.
  - cbn [replace_entries] in E. unfold bind at 1 in E.
    set (p := Filepath.Join [binDir; info]) in *.
    unfold Remove in E. destruct (entries f !! p) as [m|] eqn:Hp.
    + destruct (bool_decide (m = Dir) && negb (bool_decide (children p f = []))).
      * cbn in E. inversion E; subst. exact Hq.
      * assert (Hne : p <> q) by congruence.
        unfold bind at 1 in E. unfold Hardlink in E. cbn [entries with_entries] in E.
        destruct (delete p (entries f) !! proxy) as [n|] eqn:Hn.
        -- rewrite lookup_delete_eq in E.
           destruct n; try (cbn in E; inversion E; subst; cbn;
                            now rewrite lookup_delete_ne);
             (eapply IH; [exact E|]; cbn;
              rewrite lookup_insert_ne by exact Hne; now rewrite lookup_delete_ne).
        -- cbn in E. inversion E; subst. cbn. now rewrite lookup_delete_ne.
    + cbn in E. inversion E; subst. exact Hq.
Qed.

(** X9: The migration runs once: after a run without error the sentinel exists
    and a further run returns at once, leaving the filesystem as it is. *)
Theorem replaceWithHardlinks_once (inst : Installer) (f f' : fs) :
  replaceWithHardlinks inst f = (None, f') ->
  is_Some (entries f' !! sentinel inst) /\
  replaceWithHardlinks inst f' = (None, f').
Proof.
  intros E.
  assert (Hs : is_Some (entries f' !! sentinel inst)).
  { unfold replaceWithHardlinks, bind, Exists, ret in E.
    fold (sentinel inst) (bin_dir inst) (proxy inst) in E.
    destruct (bool_decide (is_Some (entries f !! sentinel inst))) eqn:Hex.
    - inversion E; subst. now apply bool_decide_eq_true in Hex.
    - unfold ReadDir in E.
      destruct (entries f !! bin_dir inst) as [[| | | |]|]; try discriminate.
      destruct (replace_entries (bin_dir inst) (proxy inst)
                  (merge_sort string_le (Filepath.Base <$> children (bin_dir inst) f)) f)
        as [[e|] f2]; [discriminate|].
      unfold Create in E.
      destruct (entries f2 !! sentinel inst) as [[| |i| |]|] eqn:Hf2;
        inversion E; subst; cbn [entries].
      + rewrite Hf2. eauto.
      + rewrite lookup_insert_eq. eauto. }
  split; [exact Hs | now apply replaceWithHardlinks_done].
Qed.

(** X10: A migration that fails leaves no sentinel behind, so that the next run
    starts it again; and when [bin] cannot be listed it fails before
    touching the filesystem. *)
Theorem replaceWithHardlinks_failure (inst : Installer) (f f' : fs) (e : error) :
  replaceWithHardlinks inst f = (Some e, f') ->
  entries f !! sentinel inst = None ->
  entries f' !! sentinel inst = None /\
  (entries f !! bin_dir inst <> Some Dir ->
   f' = f /\ exists cause, e = ErrWrap "read a bin dir" cause).
Proof.
  intros E Hs. unfold replaceWithHardlinks, bind, Exists, ret in E.
  fold (sentinel inst) (bin_dir inst) (proxy inst) in E.
  rewrite (bool_decide_eq_false_2 (is_Some (entries f !! sentinel inst))) in E
    by (rewrite Hs; apply is_Some_None).
  unfold ReadDir in E.
  destruct (entries f !! bin_dir inst) as [n|] eqn:Hb.
  - destruct (decide (n = Dir)) as [-> | Hn].
    + destruct (replace_entries (bin_dir inst) (proxy inst)
                  (merge_sort string_le (Filepath.Base <$> children (bin_dir inst) f)) f)
        as [[e2|] f2] eqn:E2.
      * inversion E; subst. split; [|congruence].
        exact (replace_entries_no_new_path _ _ _ _ _ _ _ E2 Hs).
      * pose proof (replace_entries_no_new_path _ _ _ _ _ _ _ E2 Hs) as Hs2.
        unfold Create in E. rewrite Hs2 in E. discriminate.
    + destruct n; try congruence; inversion E; subst;
        (split; [exact Hs|]; intros _; split; [reflexivity | eauto]).
  - inversion E; subst. split; [exact Hs|]. intros _. split; [reflexivity | eauto].
Qed.

End MigrationMore.

Lemma replaceWithHardlinks_once_witness :
  exists f',
    InstallPackage.replaceWithHardlinks on_linux before_migration = (None, f') /\
    is_Some (Fs.entries f' !! sentinel on_linux) /\
    InstallPackage.replaceWithHardlinks on_linux f' = (None, f').
Proof.
  destruct (InstallPackage.replaceWithHardlinks on_linux before_migration)
    as [r f'] eqn:E.
  assert (Hr : r = None) by (vm_compute in E; congruence). subst r.
  exists f'. split; [reflexivity|].
  exact (replaceWithHardlinks_once on_linux before_migration f' E).
Defined.

Lemma replaceWithHardlinks_failure_witness :
  Fs.entries no_bin_dir !! sentinel on_linux = None /\
  Fs.entries no_bin_dir !! bin_dir on_linux <> Some Fs.Dir /\
  exists e f',
    InstallPackage.replaceWithHardlinks on_linux no_bin_dir = (Some e, f') /\
    Fs.entries f' !! sentinel on_linux = None /\ f' = no_bin_dir.
Proof.
  assert (H1 : Fs.entries no_bin_dir !! sentinel on_linux = None)
    by (vm_compute; reflexivity).
  assert (H2 : Fs.entries no_bin_dir !! bin_dir on_linux <> Some Fs.Dir)
    by (vm_compute; discriminate).
  split; [exact H1|]. split; [exact H2|].
  destruct (InstallPackage.replaceWithHardlinks on_linux no_bin_dir) as [r f'] eqn:E.
  destruct r as [e|]; [|vm_compute in E; discriminate].
  exists e, f'. split; [reflexivity|].
  destruct (replaceWithHardlinks_failure on_linux no_bin_dir f' e E H1) as [Hs Hb].
  split; [exact Hs | exact (proj1 (Hb H2))].
Defined.

(** ** HTTP registries *)

Section RegistryMore2.

Import Fs InstallRegistry.

Context {Config Checksums : Type}.
Variable json_Unmarshal yaml_Unmarshal : list N -> result Config.
Variable Unarchive : string -> string -> string -> State fs (option error).
Variable template_Execute : string -> string -> result string.
Variable http_Download : string -> result (result (list N)).
Variable CheckRegistry : Aqua.Registry -> Checksums -> list N -> option error.

Lemma WriteFile_ReadFile (path : string) (content : list N) (f f1 : fs) :
  WriteFile path content f = (None, f1) ->
  ReadFile path f1 = ((Some content, None), f1).
Proof.
  unfold WriteFile, ReadFile. intros E.
  destruct (entries f !! path) as [[| |i| |]|] eqn:Hp; inversion E; subst;
    cbn [entries data].
  - now rewrite Hp, lookup_insert_eq.
  - now rewrite !lookup_insert_eq.
Qed.

Lemma WriteFile_failure (path : string) (content : list N) (f f1 : fs) (e : error) :
  WriteFile path content f = (Some e, f1) -> f1 = f.
Proof.
  unfold WriteFile. intros E.
  destruct (entries f !! path) as [[| |i| |]|]; inversion E; reflexivity.
Qed.

Lemma MkdirAll_failure (path : string) (f f1 : fs) (e : error) :
  MkdirAll path f = (Some e, f1) -> f1 = f.
Proof.
  unfold MkdirAll. intros E. destruct (forallb _ _) in E; inversion E. reflexivity.
Qed.

(** X11: [saveHTTPRegistry] writes before it parses: whenever the write succeeds
    the file holds exactly the given bytes, also when they then fail to
    parse; the result is what the decoder chosen by the file name gives;
    and when the write fails the filesystem is left as it was. *)
Theorem saveHTTPRegistry_writes_first (regist : Aqua.Registry)
        (registryFilePath : string) (content : list N) (f : fs) :
  let run := saveHTTPRegistry json_Unmarshal yaml_Unmarshal regist registryFilePath
               content f in
  let decode := if isJSON registryFilePath then json_Unmarshal else yaml_Unmarshal in
  (forall f1, WriteFile registryFilePath content f = (None, f1) ->
     run.2 = f1 /\
     (ReadFile registryFilePath run.2).1 = (Some content, None) /\
     (forall cfg, run.1 = Ok cfg <-> decode content = Ok cfg)) /\
  (forall e f1, WriteFile registryFilePath content f = (Some e, f1) ->
     run = (Err (ErrWrap "write the registry file" e), f)).
Proof.
  intros run decode. subst run decode. unfold saveHTTPRegistry, bind. split.
  - intros f1 Hw. rewrite Hw.
    assert (Hst : forall r : result Config, (ret r f1).2 = f1) by reflexivity.
    destruct (isJSON registryFilePath).
    + destruct (json_Unmarshal content) as [cfg|e]; cbn [fst snd ret];
        (split; [reflexivity|]); (split; [now rewrite (WriteFile_ReadFile _ _ _ _ Hw)|]);
        intros cfg'; unfold ret; cbn; split; congruence.
    + destruct (yaml_Unmarshal content) as [cfg|e]; cbn [fst snd ret];
        (split; [reflexivity|]); (split; [now rewrite (WriteFile_ReadFile _ _ _ _ Hw)|]);
        intros cfg'; unfold ret; cbn; split; congruence.
  - intros e f1 Hw. rewrite Hw. rewrite (WriteFile_failure _ _ _ _ _ Hw). reflexivity.
Qed.

(** X12: [getHTTPRegistry] touches the filesystem only after the URL has been
    rendered, the body has been downloaded and read in full and, when
    checksums are given, the registry's checksum has been verified. *)
Theorem getHTTPRegistry_verifies_first (regist : Aqua.Registry)
        (registryFilePath : string) (checksums : option Checksums) (f : fs) :
  let run := getHTTPRegistry json_Unmarshal yaml_Unmarshal Unarchive template_Execute
               http_Download CheckRegistry regist registryFilePath checksums f in
  run.2 <> f ->
  exists renderedURL content,
    template_Execute (Aqua.URL regist) (Aqua.Version regist) = Ok renderedURL /\
    http_Download renderedURL = Ok (Ok content) /\
    (forall c, checksums = Some c -> CheckRegistry regist c content = None).
Proof.
  intros run. subst run. unfold getHTTPRegistry.
  destruct (template_Execute (Aqua.URL regist) (Aqua.Version regist)) as [url|e] eqn:Ht;
    [|intros H; now elim H].
  destruct (http_Download url) as [[content|e]|e] eqn:Hd; try (intros H; now elim H).
  destruct checksums as [c|].
  - destruct (CheckRegistry regist c content) as [e|] eqn:Hc; [intros H; now elim H|].
    intros _. exists url, content. split; [reflexivity|]. split; [exact Hd|].
    intros c' Hc'. inversion Hc'; subst. exact Hc.
  - intros _. exists url, content. split; [reflexivity|]. split; [exact Hd|].
    discriminate.
Qed.

(** X13: For a registry without a format, a successful [getHTTPRegistry] leaves
    the downloaded bytes, unchanged, in the registry file. *)
Theorem getHTTPRegistry_plain_file (regist : Aqua.Registry)
        (registryFilePath : string) (checksums : option Checksums) (f : fs)
        (cfg : Config) :
  let run := getHTTPRegistry json_Unmarshal yaml_Unmarshal Unarchive template_Execute
               http_Download CheckRegistry regist registryFilePath checksums f in
  Aqua.Format regist = "" ->
  run.1 = Ok cfg ->
  exists renderedURL content,
    template_Execute (Aqua.URL regist) (Aqua.Version regist) = Ok renderedURL /\
    http_Download renderedURL = Ok (Ok content) /\
    (ReadFile registryFilePath run.2).1 = (Some content, None) /\
    (if isJSON registryFilePath then json_Unmarshal content else yaml_Unmarshal content)
    = Ok cfg.
Proof.
  intros run Hfmt. subst run. unfold getHTTPRegistry.
  destruct (template_Execute (Aqua.URL regist) (Aqua.Version regist)) as [url|e] eqn:Ht;
    [|discriminate].
  destruct (http_Download url) as [[content|e]|e] eqn:Hd; try discriminate.
  destruct (match checksums with
            | Some c => CheckRegistry regist c content
            | None => None
            end); [discriminate|].
  unfold bind.
  destruct (MkdirAll (Filepath.Dir registryFilePath) f) as [[e|] f0]; [discriminate|].
  rewrite Hfmt. cbn [String.eqb negb].
  destruct (WriteFile registryFilePath content f0) as [[e|] f1] eqn:Hw.
  - rewrite (proj2 (saveHTTPRegistry_writes_first regist registryFilePath content f0)
               e f1 Hw). discriminate.
  - destruct (proj1 (saveHTTPRegistry_writes_first regist registryFilePath content f0)
                f1 Hw) as (Hst & Hread & Hdec).
    intros Hok. exists url, content. split; [reflexivity|]. split; [exact Hd|].
    split; [exact Hread|]. apply Hdec in Hok.
    destruct (isJSON registryFilePath); exact Hok.
Qed.

(** X14: Once the temporary directory has been created,
    [extractHTTPRegistryArchive] removes it again however the extraction
    ends: nothing is left at or below [.tmp]; and when it cannot be created
    the filesystem is left as it was. *)
Theorem extractHTTPRegistryArchive_cleans_up (regist : Aqua.Registry)
        (registryFilePath : string) (content : list N) (f : fs) :
  let tempDir := Filepath.Join [Filepath.Dir registryFilePath; ".tmp"] in
  let run := extractHTTPRegistryArchive json_Unmarshal yaml_Unmarshal Unarchive
               regist registryFilePath content f in
  ((MkdirAll tempDir f).1 = None ->
   forall k, is_under tempDir k = true -> entries run.2 !! k = None) /\
  (forall e, (MkdirAll tempDir f).1 = Some e ->
     run = (Err (ErrWrap "create temporary directory" e), f)).
Proof.
  intros tempDir run. subst run. unfold extractHTTPRegistryArchive. fold tempDir.
  split.
  - unfold bind at 1.
    destruct (MkdirAll tempDir f) as [[e|] f1] eqn:Hm; cbn [fst]; [discriminate|].
    intros _ k Hk. unfold bind at 1.
    match goal with |- context [let (a, s') := ?m f1 in _] => destruct (m f1) as [r f5] end.
    unfold bind, RemoveAll, ret. cbn [snd entries with_entries].
    apply map_lookup_filter_None. right. intros x _ Hno. cbn [fst] in Hno. congruence.
  - intros e He. unfold bind at 1.
    destruct (MkdirAll tempDir f) as [[e'|] f1] eqn:Hm; cbn [fst] in He; [|discriminate].
    inversion He; subst. rewrite (MkdirAll_failure _ _ _ _ Hm). reflexivity.
Qed.

End RegistryMore2.

Lemma saveHTTPRegistry_writes_first_witness :
  let content := bytes_of_string "packages: [" in
  let run := InstallRegistry.saveHTTPRegistry keep_bytes reject_bytes plain_registry
               plain_registry_path content (fs_of []) in
  (Fs.WriteFile plain_registry_path content (fs_of [])).1 = None /\
  run.1 = Err (ErrWrap "parse the registry configuration file as YAML"
                 (ErrNew "yaml: unmarshal errors")) /\
  (Fs.ReadFile plain_registry_path run.2).1 = (Some content, None).
Proof.
  intros content run.
  destruct (Fs.WriteFile plain_registry_path content (fs_of [])) as [r f1] eqn:Hw.
  assert (Hr : r = None) by (vm_compute in Hw; congruence). subst r.
  split; [reflexivity|]. split; [vm_compute; reflexivity|].
  exact (proj1 (proj2 (proj1 (saveHTTPRegistry_writes_first keep_bytes reject_bytes
                                plain_registry plain_registry_path content (fs_of []))
                         f1 Hw))).
Defined.

Lemma getHTTPRegistry_verifies_first_witness :
  let content := bytes_of_string "packages: []" in
  let run := InstallRegistry.getHTTPRegistry keep_bytes keep_bytes (unpack_as "registry.yaml")
               render_v1 (serve content) no_checksum plain_registry plain_registry_path
               (Some tt) (fs_of []) in
  run.2 <> fs_of [] /\
  exists renderedURL bytes,
    render_v1 (Aqua.URL plain_registry) (Aqua.Version plain_registry) = Ok renderedURL /\
    serve content renderedURL = Ok (Ok bytes) /\
    (forall c, Some tt = Some c -> no_checksum plain_registry c bytes = None).
Proof.
  intros content run.
  assert (Hne : run.2 <> fs_of []).
  { intros H.
    assert (H' : Fs.entries run.2 !! plain_registry_path
                 = Fs.entries (fs_of []) !! plain_registry_path) by now rewrite H.
    vm_compute in H'. discriminate. }
  split; [exact Hne|].
  exact (getHTTPRegistry_verifies_first keep_bytes keep_bytes (unpack_as "registry.yaml")
           render_v1 (serve content) no_checksum plain_registry plain_registry_path
           (Some tt) (fs_of []) Hne).
Defined.

Lemma getHTTPRegistry_plain_file_witness :
  let content := bytes_of_string "packages: []" in
  let run := InstallRegistry.getHTTPRegistry keep_bytes keep_bytes (unpack_as "registry.yaml")
               render_v1 (serve content) no_checksum plain_registry plain_registry_path
               (Some tt) (fs_of []) in
  Aqua.Format plain_registry = "" /\
  run.1 = Ok content /\
  (Fs.ReadFile plain_registry_path run.2).1 = (Some content, None).
Proof.
  intros content run.
  assert (Hok : run.1 = Ok content) by (vm_compute; reflexivity).
  split; [reflexivity|]. split; [exact Hok|].
  destruct (getHTTPRegistry_plain_file keep_bytes keep_bytes (unpack_as "registry.yaml")
              render_v1 (serve content) no_checksum plain_registry plain_registry_path
              (Some tt) (fs_of []) content eq_refl Hok)
    as (url & bytes & _ & Hd & Hread & _).
  unfold serve in Hd. inversion Hd; subst. exact Hread.
Defined.

Lemma extractHTTPRegistryArchive_cleans_up_witness :
  let content := bytes_of_string "packages: []" in
  let tempDir := "/root/.aqua/registries/http/06eeabea3ca08429/v1.0.0/.tmp" in
  let run := InstallRegistry.extractHTTPRegistryArchive keep_bytes keep_bytes
               (unpack_as "other.txt") tgz_registry tgz_registry_path content (fs_of []) in
  (Fs.MkdirAll tempDir (fs_of [])).1 = None /\
  (exists e, run.1 = Err e) /\
  Fs.entries run.2 !! (tempDir +:+ "/extract/other.txt") = None /\
  Fs.entries run.2 !! tempDir = None.
Proof.
  intros content tempDir run.
  pose proof (proj1 (extractHTTPRegistryArchive_cleans_up keep_bytes keep_bytes
                       (unpack_as "other.txt") tgz_registry tgz_registry_path content
                       (fs_of []))) as H.
  cbv zeta in H.
  assert (Hm : (Fs.MkdirAll tempDir (fs_of [])).1 = None) by (vm_compute; reflexivity).
  split; [exact Hm|]. split; [eexists; vm_compute; reflexivity|].
  split; apply (H Hm); vm_compute; reflexivity.
Defined.

(** ** The config finder *)

Section FinderFacts.

Import Finder.

Lemma precedes_elem_of {A : Type} (x y : A) (l : list A) :
  precedes x y l -> x ∈ l /\ y ∈ l.
Proof.
  intros (l1 & l2 & l3 & ->).
  rewrite !elem_of_app, !elem_of_cons, !elem_of_app, !elem_of_cons. tauto.
Qed.

Lemma precedes_cons {A : Type} (x y z : A) (l : list A) :
  precedes x y (z :: l) -> (x = z /\ y ∈ l) \/ precedes x y l.
Proof.
  intros (l1 & l2 & l3 & H). destruct l1 as [|z' l1]; cbn in H; inversion H; subst.
  - left. split; [reflexivity|]. rewrite elem_of_app, elem_of_cons. tauto.
  - right. exists l1, l2, l3. reflexivity.
Qed.

Lemma parse_loop_spec (src : list string) :
  forall (m : gset string) (paths : list string),
  (forall x, x ∈ m <-> x ∈ paths) -> NoDup paths -> "" ∉ paths ->
  exists new,
    parse_loop src m paths = (paths ++ new)%list /\
    NoDup (paths ++ new) /\
    (forall x, x ∈ new <-> x ∈ src /\ x <> "" /\ x ∉ paths) /\
    (forall x y, precedes x y new ->
       exists s1 s2, src = (s1 ++ x :: s2)%list /\ y ∉ s1).
Proof.
  induction src as [|s rest IH]; intros m paths Hm Hnd Hne.
  - exists []. cbn. rewrite app_nil_r.
    split; [reflexivity|]. split; [exact Hnd|]. split.
    + intros x. rewrite elem_of_nil. tauto.
    + intros x y Hb. apply precedes_elem_of in Hb as [Hb _]. inversion Hb.
  - cbn [parse_loop].
    assert (Hskip : s = "" \/ s ∈ m ->
      exists new,
        parse_loop rest m paths = (paths ++ new)%list /\
        NoDup (paths ++ new) /\
        (forall x, x ∈ new <-> x ∈ s :: rest /\ x <> "" /\ x ∉ paths) /\
        (forall x y, precedes x y new ->
           exists s1 s2, s :: rest = (s1 ++ x :: s2)%list /\ y ∉ s1)).
    { intros Hsk.
      destruct (IH m paths Hm Hnd Hne) as (new & Hr & Hnd' & Hin & Hord).
      exists new. split; [exact Hr|]. split; [exact Hnd'|]. split.
      - intros x. rewrite Hin, elem_of_cons. split; [tauto|].
        intros ([-> | H] & Hx & Hp); [|tauto].
        destruct Hsk as [Hsk | Hsk]; [congruence | apply Hm in Hsk; tauto].
      - intros x y Hb. destruct (Hord x y Hb) as (s1 & s2 & -> & Hy).
        exists (s :: s1), s2. split; [reflexivity|].
        rewrite elem_of_cons. intros [-> | H]; [|tauto].
        apply precedes_elem_of in Hb as [_ Hb]. apply Hin in Hb.
        destruct Hsk as [Hsk | Hsk]; [tauto | apply Hm in Hsk; tauto]. }
    destruct (String.eqb_spec s "") as [Hs | Hs]; [apply Hskip; now left|].
    destruct (decide (s ∈ m)) as [Hsm | Hsm]; [apply Hskip; now right|].
    clear Hskip.
    assert (Hsp : s ∉ paths) by (rewrite <- Hm; exact Hsm).
    destruct (IH ({[s]} ∪ m) (paths ++ [s])%list) as (new & Hr & Hnd' & Hin & Hord).
    + intros x. rewrite elem_of_union, elem_of_singleton, elem_of_app, Hm,
        elem_of_cons, elem_of_nil. tauto.
    + apply NoDup_app. split; [exact Hnd|]. split; [|apply NoDup_singleton].
      intros x Hx Hx'. apply elem_of_cons in Hx' as [-> | H]; [tauto | inversion H].
    + rewrite elem_of_app, elem_of_cons, elem_of_nil. intros [H | [H | []]];
        [tauto | congruence].
    + exists (s :: new). rewrite <- app_assoc in Hr, Hnd'. cbn in Hr, Hnd'.
      split; [exact Hr|]. split; [exact Hnd'|]. split.
      * intros x. rewrite !elem_of_cons, Hin, elem_of_app, elem_of_cons, elem_of_nil.
        split.
        -- intros [-> | (H1 & H2 & H3)]; [split; [now left | tauto] | tauto].
        -- intros ([-> | H1] & H2 & H3); [now left|].
           destruct (decide (x = s)) as [-> | Hxs]; [now left | right; tauto].
      * intros x y Hb. apply precedes_cons in Hb as [[-> Hy] | Hb].
        -- exists [], rest. split; [reflexivity|]. apply not_elem_of_nil.
        -- destruct (Hord x y Hb) as (s1 & s2 & -> & Hy).
           exists (s :: s1), s2. split; [reflexivity|].
           rewrite elem_of_cons. intros [-> | H]; [|tauto].
           apply precedes_elem_of in Hb as [_ Hb]. apply Hin in Hb.
           apply Hb. rewrite elem_of_app, elem_of_cons. right. now left.
Qed.

(** X15: The parsed list of global configuration
    files has no duplicate and no empty path, holds exactly the non-empty
    elements of the split environment variable, and keeps them in the order
    of their first occurrence: when [x] comes before [y] in the result, an
    occurrence of [x] in the variable precedes every occurrence of [y]. *)
Theorem ParseGlobalConfigFilePaths_spec (env : string) :
  let paths := ParseGlobalConfigFilePaths env in
  NoDup paths /\
  (forall x, x ∈ paths <-> x ∈ SplitList env /\ x <> "") /\
  (forall x y, precedes x y paths ->
     exists s1 s2, SplitList env = (s1 ++ x :: s2)%list /\ y ∉ s1).
Proof.
  unfold ParseGlobalConfigFilePaths.
  destruct (parse_loop_spec (SplitList env) ∅ []) as (new & Hr & Hnd & Hin & Hord).
  - intros x. rewrite elem_of_empty, elem_of_nil. tauto.
  - apply NoDup_nil_2.
  - apply not_elem_of_nil.
  - cbn in Hr, Hnd. rewrite Hr. cbn zeta. split; [exact Hnd|]. split; [|exact Hord].
    intros x. rewrite Hin, elem_of_nil. tauto.
Qed.

Section FindFacts.

Variable findconfig_Find : string -> (string -> bool) -> list string -> string.
Variable fs : FinderFs.

Lemma first_global_ok (globals : list string) (p : string) :
  first_global fs globals = Ok p <->
  exists skipped rest,
    globals = (skipped ++ p :: rest)%list /\ Stat fs p = None /\
    Forall (fun q => Stat fs q <> None) skipped.
Proof.
  induction globals as [|g globals IH]; cbn [first_global].
  - split; [discriminate|]. intros (sk & r & H & _). destruct sk; discriminate.
  - destruct (Stat fs g) as [e|] eqn:Hg.
    + rewrite IH. split.
      * intros (sk & r & -> & Hp & Hsk). exists (g :: sk), r.
        split; [reflexivity|]. split; [exact Hp|]. constructor; [congruence | exact Hsk].
      * intros (sk & r & H & Hp & Hsk). destruct sk as [|g' sk]; cbn in H; inversion H; subst.
        -- congruence.
        -- exists sk, r. split; [reflexivity|]. split; [exact Hp|]. now inversion Hsk.
    + split.
      * intros H. inversion H; subst. exists [], globals. now repeat split.
      * intros (sk & r & H & Hp & Hsk). destruct sk as [|g' sk]; cbn in H; inversion H; subst.
        -- reflexivity.
        -- inversion Hsk; subst. congruence.
Qed.

Lemma first_global_err (globals : list string) (e : error) :
  first_global fs globals = Err e <->
  e = ErrConfigFileNotFound /\ Forall (fun q => Stat fs q <> None) globals.
Proof.
  induction globals as [|g globals IH]; cbn [first_global].
  - split; [intros H; inversion H; now split | intros [-> _]; reflexivity].
  - destruct (Stat fs g) as [e'|] eqn:Hg.
    + rewrite IH. split; intros [-> H]; (split; [reflexivity|]).
      * constructor; [congruence | exact H].
      * now inversion H.
    + split; [discriminate|]. intros [_ H]. inversion H; subst. congruence.
Qed.

(** X16: An explicit configuration file path is returned as it is,
    without any existence test; otherwise the file found from the working
    directory wins; otherwise the result is the first global path whose
    [Stat] succeeds, and the only error, [ErrConfigFileNotFound], is returned
    exactly when [Stat] fails on every global path. *)
Theorem Find_spec (wd configFilePath : string) (globals : list string) :
  let found := findconfig_Find wd (exist fs) configFileNames in
  let res := Find findconfig_Find fs wd configFilePath globals in
  (configFilePath <> "" -> res = Ok configFilePath) /\
  (configFilePath = "" -> found <> "" -> res = Ok found) /\
  (configFilePath = "" -> found = "" ->
     (forall p, res = Ok p <->
        exists skipped rest,
          globals = (skipped ++ p :: rest)%list /\ Stat fs p = None /\
          Forall (fun q => Stat fs q <> None) skipped) /\
     (forall e, res = Err e <->
        e = ErrConfigFileNotFound /\ Forall (fun q => Stat fs q <> None) globals)).
Proof.
  cbn zeta. unfold Find. split; [|split].
  - intros H. destruct (String.eqb_spec configFilePath ""); [contradiction | reflexivity].
  - intros -> H. cbn.
    destruct (String.eqb_spec (findconfig_Find wd (exist fs) configFileNames) "");
      [contradiction | reflexivity].
  - intros -> H. cbn. rewrite H. cbn. split.
    + apply first_global_ok.
    + apply first_global_err.
Qed.

(** The existence test handed to [findconfig] treats every [Stat] error,
    whatever its kind, as an absent file. *)
Lemma exist_spec (p : string) : exist fs p = true <-> Stat fs p = None.
Proof.
  unfold exist, afero_Exists. destruct (Stat fs p) as [e|].
  - destruct (IsNotExist fs e); split; discriminate.
  - split; reflexivity.
Qed.

End FindFacts.

End FinderFacts.

Lemma ParseGlobalConfigFilePaths_spec_witness :
  NoDup (Finder.ParseGlobalConfigFilePaths
           "/etc/aqua.yaml::/etc/aqua.yaml:/home/foo/aqua.yaml").
Proof.
  exact (proj1 (ParseGlobalConfigFilePaths_spec
                  "/etc/aqua.yaml::/etc/aqua.yaml:/home/foo/aqua.yaml")).
Defined.

Lemma Find_spec_witness :
  Finder.Find finds_nothing only_etc "/work" ""
    ["/home/foo/aqua.yaml"; "/etc/aqua.yaml"; "/etc/aqua.yml"] = Ok "/etc/aqua.yaml".
Proof.
  destruct (Find_spec finds_nothing only_etc "/work" ""
              ["/home/foo/aqua.yaml"; "/etc/aqua.yaml"; "/etc/aqua.yml"])
    as (_ & _ & H).
  destruct (H eq_refl eq_refl) as [Hok _]. apply Hok.
  exists ["/home/foo/aqua.yaml"], ["/etc/aqua.yml"].
  split; [reflexivity|]. split; [reflexivity|].
  constructor; [discriminate | constructor].
Defined.

(** ** The arguments of [aqua exec] *)

Section CliFacts.

Import Filepath.

Lemma last_elem_rev_no_separator (p : list ascii) :
  Forall (fun c => IsPathSeparator c = false) (last_elem_rev p).
Proof.
  induction p as [|c p IH]; cbn; [constructor|].
  destruct (IsPathSeparator c) eqn:Hc; constructor; assumption.
Qed.

Lemma Base_shape (path : string) :
  Base path <> "" /\
  (Base path = "/" \/
   Forall (fun c => IsPathSeparator c = false) (list_ascii_of_string (Base path))).
Proof.
  unfold Base. destruct path as [|c path]; [split; [discriminate | right]|].
  - repeat constructor.
  - set (p := strip_trailing_rev _).
    pose proof (last_elem_rev_no_separator p) as Hno.
    destruct (last_elem_rev p) as [|e es] eqn:He; [split; [discriminate | now left]|].
    split.
    + intros H. apply (f_equal list_ascii_of_string) in H.
      rewrite list_ascii_of_string_of_list_ascii in H. cbn in H.
      destruct (rev es); discriminate.
    + right. rewrite list_ascii_of_string_of_list_ascii.
      apply Forall_forall. intros x Hx. apply list_elem_of_In, in_rev in Hx.
      apply list_elem_of_In in Hx. revert x Hx. apply Forall_forall. exact Hno.
Qed.

(** X17: The only error is [errCommandIsRequired], returned
    exactly for an empty argument list; otherwise the remaining arguments are
    passed on unchanged and the command name is the base name of the first
    one: never empty, and free of path separators unless it is the root
    itself. *)
Theorem parseExecArgs_spec (args : list string) :
  let '(name, rest, err) := Cli.parseExecArgs args in
  (err <> None <-> args = []) /\
  (err <> None -> err = Some Cli.errCommandIsRequired /\ name = "" /\ rest = []) /\
  (err = None ->
     exists arg0, args = arg0 :: rest /\ name = Base arg0 /\ name <> "" /\
       (name = "/" \/
        Forall (fun c => IsPathSeparator c = false) (list_ascii_of_string name))).
Proof.
  destruct args as [|arg0 rest]; cbn.
  - split; [split; [reflexivity | discriminate]|].
    split; [intros _; repeat split | discriminate].
  - split; [split; [congruence | discriminate]|]. split; [congruence|].
    intros _. exists arg0. destruct (Base_shape arg0) as [H1 H2].
    split; [reflexivity|]. split; [reflexivity|]. split; assumption.
Qed.

End CliFacts.

Lemma parseExecArgs_spec_witness :
  Cli.parseExecArgs ["/usr/local/bin/gh"; "version"] = ("gh", ["version"], None) /\
  Filepath.Base "/usr/local/bin/gh" <> "".
Proof.
  split; [reflexivity|].
  pose proof (parseExecArgs_spec ["/usr/local/bin/gh"; "version"]) as H.
  cbn [Cli.parseExecArgs] in H. destruct H as (_ & _ & H).
  destruct (H eq_refl) as (arg0 & Harg & _ & Hne & _).
  inversion Harg; subst. exact Hne.
Defined.

(** ** Downloading a file of a GitHub repository *)

Section ContentFacts.

Import Download DownloadContent.

Variables (github : option GitHubContentAPI) (http : HTTPDownloader).
Variables (owner repoName ref path : string).

Ltac run_content0 :=
  unfold downloadGitHubContent, GetGitHubContentFile, call_Download,
    close_if_open, emit, bind, ret; cbn [rd_http rd_github].

Ltac run_content :=
  unfold downloadGitHubContent, GetGitHubContentFile, get_contents, call_Download,
    close_if_open, emit, bind, ret; cbn [rd_http rd_github].

Lemma get_contents_run (t0 : list event) :
  let run := get_contents github owner repoName path ref t0 in
  run.2 = (t0 ++ match github with
                 | Some _ => [EvGetContents owner repoName path ref]
                 | None => []
                 end)%list /\
  (github = None -> run.1 = Err errGitHubTokenIsRequired) /\
  (forall content, run.1 = Ok content <->
     exists gh file, github = Some gh /\
       gh_GetContents gh owner repoName path ref = (Some file, None) /\
       GetContent file = Ok content).
Proof.
  cbn zeta. unfold get_contents, emit, bind, ret.
  destruct github as [gh|]; cbn [fst snd].
  - destruct (gh_GetContents gh owner repoName path ref) as [[file|] [e|]] eqn:Hgh;
      cbn [fst snd]; try destruct (GetContent file) as [c|e'] eqn:Hc; cbn [fst snd];
      (split; [reflexivity|]); (split; [discriminate|]); intros content;
      (split;
       [ try discriminate; intros H; inversion H; subst; exists gh, file; now repeat split
       | intros (gh' & file' & H1 & H2 & H3); inversion H1; subst;
         rewrite Hgh in H2; inversion H2; subst; congruence ]).
  - split; [now rewrite app_nil_r|]. split; [reflexivity|].
    intros content. split; [discriminate|]. intros (gh' & f & H & _). discriminate.
Qed.

(** X18: The body of a successful anonymous download
    is returned as it is, and nothing else happens.  After a failed one the
    body, if any, is closed before anything else; without a GitHub client the
    result is [errGitHubTokenIsRequired] and the API is not called; with one,
    the Contents API is called once, with the asset name as the path and the
    version as the ref.  A body is never returned together with an error. *)
Theorem downloadGitHubContent_spec :
  let url := raw_url owner repoName ref path in
  let first := http_Download http url in
  let run := downloadGitHubContent github http owner repoName ref path [] in
  (first.2 = None -> run = ((first.1, None), [EvDownload url])) /\
  (first.2 <> None ->
     run.2 = ([EvDownload url] ++ closes_body first.1 ++
              match github with
              | Some _ => [EvGetContents owner repoName path ref]
              | None => []
              end)%list /\
     (github = None -> run.1 = (None, Some errGitHubTokenIsRequired))) /\
  (run.1.1 <> None -> run.1.2 = None).
Proof.
  cbn zeta. run_content.
  destruct (http_Download http (raw_url owner repoName ref path)) as [b0 [e0|]];
    cbn [fst snd].
  - split; [discriminate|]. destruct b0 as [b|]; cbn [app];
      (destruct github as [gh|]; cbn [fst snd app];
       [destruct (gh_GetContents gh owner repoName path ref) as [[file|] [e|]];
        cbn [fst snd]; try destruct (GetContent file); cbn [fst snd] |]);
      (split; [intros _; split; [reflexivity | try discriminate; reflexivity] |]);
      try reflexivity; try (intros H; now contradiction H).
  - split; [reflexivity|]. split; [intros H; now contradiction H|]. reflexivity.
Qed.

Variable io_ReadAll : ReadCloser -> result string.

(** X19: The function panics exactly when the
    anonymous download returns neither a body nor an error.  In every case a
    body that was returned is closed exactly once, as the last thing the
    function does.  When the download succeeds and its body is read to the
    end, the bytes read are the result and the GitHub API is not called. *)
Theorem GetGitHubContentFile_closes_body :
  let url := raw_url owner repoName ref path in
  let first := http_Download http url in
  let run := GetGitHubContentFile (mkRegistryDownloader github http) io_ReadAll
               owner repoName ref path [] in
  (run.1 = Panicked <-> first = (None, None)) /\
  (exists pre, run.2 = (pre ++ closes_body first.1)%list /\ filter is_close pre = []) /\
  (forall b bytes, first = (Some b, None) -> io_ReadAll b = Ok bytes ->
     run = (Returned (Some bytes, None), [EvDownload url; EvCloseBody b])).
Proof.
  cbn zeta. run_content.
  destruct (http_Download http (raw_url owner repoName ref path)) as [b0 e0];
    cbn [fst snd].
  set (url := raw_url owner repoName ref path).
  destruct b0 as [b|], e0 as [e0|]; cbn [fst snd];
    try destruct (io_ReadAll b) as [bytes|e1] eqn:Hread;
    (destruct github as [gh|]; cbn [fst snd app];
     [destruct (gh_GetContents gh owner repoName path ref) as [[file|] [e|]];
      cbn [fst snd]; try destruct (GetContent file); cbn [fst snd] |]);
    (split; [split; discriminate || reflexivity|]);
    (split;
     [ first [ exists [EvDownload url]; split; reflexivity
             | exists [EvDownload url; EvGetContents owner repoName path ref];
               split; reflexivity ]
     | intros b' bytes'; try discriminate;
       intros H1 H2; inversion H1; subst; congruence ]).
Qed.


(** X20: When the anonymous download fails, or its
    body cannot be read to the end, the GitHub Contents API is the fallback:
    without a client the result is [errGitHubTokenIsRequired] and no call is
    made; with one, exactly one call is made, and content is returned exactly
    when the API answers with a file whose content can be decoded. *)
Theorem GetGitHubContentFile_fallback :
  let url := raw_url owner repoName ref path in
  let first := http_Download http url in
  let run := GetGitHubContentFile (mkRegistryDownloader github http) io_ReadAll
               owner repoName ref path [] in
  first.2 <> None \/ (exists b e, first.1 = Some b /\ io_ReadAll b = Err e) ->
  filter is_contents_call run.2 =
    match github with
    | Some _ => [EvGetContents owner repoName path ref]
    | None => []
    end /\
  (github = None -> run.1 = Returned (None, Some errGitHubTokenIsRequired)) /\
  (forall content, run.1 = Returned (Some content, None) <->
     exists gh file, github = Some gh /\
       gh_GetContents gh owner repoName path ref = (Some file, None) /\
       GetContent file = Ok content).
Proof.
  cbn zeta. run_content0.
  destruct (http_Download http (raw_url owner repoName ref path)) as [b0 e0];
    cbn [fst snd].
  intros Hfall.
  assert (Hcase : e0 <> None \/ exists b e, b0 = Some b /\ e0 = None /\ io_ReadAll b = Err e).
  { destruct e0 as [e0|]; [left; discriminate|].
    destruct Hfall as [H | (b & e & H1 & H2)]; [now contradiction H|].
    right. now exists b, e. }
  clear Hfall.
  assert (Hgoal : forall t0 tl : list event,
    filter is_contents_call t0 = [] -> filter is_contents_call tl = [] ->
    let r := get_contents github owner repoName path ref t0 in
    let res := match r.1 with
               | Ok content => Returned (Some content, None)
               | Err err => Returned (None, Some err)
               end in
    filter is_contents_call (r.2 ++ tl)%list =
      match github with
      | Some _ => [EvGetContents owner repoName path ref]
      | None => []
      end /\
    (github = None -> res = Returned (None, Some errGitHubTokenIsRequired)) /\
    (forall content, res = Returned (Some content, None) <->
       exists gh file, github = Some gh /\
         gh_GetContents gh owner repoName path ref = (Some file, None) /\
         GetContent file = Ok content)).
  { intros t0 tl Ht0 Htl. cbn zeta.
    destruct (get_contents_run t0) as (Ht & Hnone & Hok). split; [|split].
    - rewrite Ht, !filter_app, Ht0, Htl. destruct github; reflexivity.
    - intros H. rewrite (Hnone H). reflexivity.
    - intros content. rewrite <- Hok.
      destruct (get_contents github owner repoName path ref t0).1;
        split; intros H; inversion H; reflexivity. }
  destruct Hcase as [He | (b & e & -> & -> & Hread)].
  - destruct e0 as [e0|]; [|now contradiction He].
    specialize (Hgoal [EvDownload (raw_url owner repoName ref path)] (closes_body b0)
                      eq_refl).
    cbn [app] in *.
    destruct (get_contents github owner repoName path ref
                [EvDownload (raw_url owner repoName ref path)]) as [r t'].
    destruct b0 as [b|]; cbn [closes_body] in Hgoal; specialize (Hgoal eq_refl);
      cbn zeta in Hgoal; cbn [fst snd] in Hgoal; rewrite ?app_nil_r in Hgoal;
      destruct r; cbn [fst snd]; exact Hgoal.
  - rewrite Hread.
    specialize (Hgoal [EvDownload (raw_url owner repoName ref path)] [EvCloseBody b]
                      eq_refl eq_refl).
    cbn [app] in *.
    destruct (get_contents github owner repoName path ref
                [EvDownload (raw_url owner repoName ref path)]) as [r t'].
    cbn zeta in Hgoal; cbn [fst snd] in Hgoal.
    destruct r; cbn [fst snd]; exact Hgoal.
Qed.

End ContentFacts.

Lemma downloadGitHubContent_spec_witness :
  (DownloadContent.downloadGitHubContent (Some contents_foo) http_400
     "aquaproj" "aqua-registry" "v2.16.0" "registry.yaml" []).2 =
  [DownloadContent.EvDownload
     "https://raw.githubusercontent.com/aquaproj/aqua-registry/v2.16.0/registry.yaml";
   DownloadContent.EvCloseBody "invalid request";
   DownloadContent.EvGetContents "aquaproj" "aqua-registry" "registry.yaml" "v2.16.0"].
Proof.
  destruct (downloadGitHubContent_spec (Some contents_foo) http_400
              "aquaproj" "aqua-registry" "v2.16.0" "registry.yaml") as (_ & H & _).
  destruct H as [H _]; [discriminate | exact H].
Defined.

Lemma GetGitHubContentFile_closes_body_witness :
  DownloadContent.GetGitHubContentFile
    (DownloadContent.mkRegistryDownloader None http_ok) read_all
    "aquaproj" "aqua-registry" "v2.16.0" "registry.yaml" [] =
  (DownloadContent.Returned (Some "packages: []", None),
   [DownloadContent.EvDownload
      "https://raw.githubusercontent.com/aquaproj/aqua-registry/v2.16.0/registry.yaml";
    DownloadContent.EvCloseBody "packages: []"]).
Proof.
  destruct (GetGitHubContentFile_closes_body None http_ok
              "aquaproj" "aqua-registry" "v2.16.0" "registry.yaml" read_all)
    as (_ & _ & H).
  exact (H "packages: []" "packages: []" eq_refl eq_refl).
Defined.

Lemma GetGitHubContentFile_fallback_witness :
  (DownloadContent.GetGitHubContentFile
     (DownloadContent.mkRegistryDownloader (Some contents_foo) http_400) read_all
     "aquaproj" "aqua-registry" "v2.16.0" "registry.yaml" []).1 =
  DownloadContent.Returned (Some "foo", None).
Proof.
  destruct (GetGitHubContentFile_fallback (Some contents_foo) http_400
              "aquaproj" "aqua-registry" "v2.16.0" "registry.yaml" read_all)
    as (_ & _ & H); [left; discriminate|].
  apply H. exists contents_foo, (DownloadContent.mkContent (Ok "foo")).
  repeat split.
Defined.

(** ** The asset of a release *)

Section AssetFacts.

Import Download.

(** X21: The id returned is that of the first asset
    of the list that has the wanted name, and the function fails, with an
    error that names the asset, exactly when no asset has it. *)
Theorem getAssetIDFromAssets_spec (assets : list ReleaseAsset) (assetName : string) :
  (forall id, getAssetIDFromAssets assets assetName = Ok id <->
     exists skipped asset rest,
       assets = (skipped ++ asset :: rest)%list /\
       GetName asset = assetName /\ GetID asset = id /\
       Forall (fun a => GetName a <> assetName) skipped) /\
  (forall e, getAssetIDFromAssets assets assetName = Err e <->
     e = ErrFmt ("the asset isn't found: " +:+ assetName) /\
     Forall (fun a => GetName a <> assetName) assets).
Proof.
  split; [intros id; apply getAssetIDFromAssets_ok|].
  induction assets as [|a assets IH]; intros e; cbn [getAssetIDFromAssets].
  - split; [intros H; inversion H; now split | intros [-> _]; reflexivity].
  - destruct (String.eqb_spec (GetName a) assetName) as [Heq | Hne].
    + split; [discriminate|]. intros [_ H]. inversion H; subst. congruence.
    + rewrite IH. split; intros [-> H]; (split; [reflexivity|]).
      * constructor; assumption.
      * now inversion H.
Qed.

End AssetFacts.

(** ** The exec controller: installing before executing *)

Section ExecControllerFacts.

Import Exec ExecController.

Variables (sv : Services) (ctx : Context).

Lemma poll_loop_step (exePath : string) (left : nat) (e : Env) :
  ready sv exePath (now (world e)) = false ->
  ctx (S (now (world e))) = None ->
  poll_loop sv ctx exePath (S left) e =
  poll_loop sv ctx exePath left
    (mkEnv (mkWorld (S (now (world e))) (trace (world e) ++ [EvWait 10])%list)
           (calls e ++ [CallStat exePath])%list).
Proof.
  unfold ready. intros Hready Hctx. cbn [poll_loop].
  unfold bind, call_Stat, lift, wait, ret. cbn [world calls now trace].
  destruct (fs_Stat sv (now (world e)) exePath) as [mode|err];
    [rewrite Hready|]; cbn [world calls]; rewrite Hctx; reflexivity.
Qed.

Lemma poll_loop_prefix (exePath : string) (left k : nat) : forall e : Env,
  (forall i, (i < k)%nat ->
     ready sv exePath (now (world e) + i) = false /\
     ctx (S (now (world e) + i)) = None) ->
  poll_loop sv ctx exePath (k + left) e =
  poll_loop sv ctx exePath left
    (mkEnv (mkWorld (now (world e) + k) (trace (world e) ++ waits k)%list)
           (calls e ++ repeat (CallStat exePath) k)%list).
Proof.
  induction k as [|k IH]; intros e Hk.
  - cbn. rewrite Nat.add_0_r, !app_nil_r. destruct e as [[n t] c]. reflexivity.
  - cbn [Nat.add]. destruct (Hk 0%nat ltac:(lia)) as [Hr Hc].
    rewrite Nat.add_0_r in Hr, Hc. rewrite (poll_loop_step _ _ _ Hr Hc).
    rewrite IH.
    + cbn [world now trace calls]. unfold waits. cbn [repeat].
      rewrite <- !app_assoc. cbn [app].
      replace (S (now (world e)) + k)%nat with (now (world e) + S k)%nat by lia.
      reflexivity.
    + intros i Hi. cbn [world now]. destruct (Hk (S i) ltac:(lia)) as [Hr' Hc'].
      rewrite Nat.add_succ_r in Hr', Hc'. split; assumption.
Qed.

(** Whatever happens, the loop only looks at the executable and waits: it
    never calls the executor, makes at most [left] checks, and takes at most
    [left] waits. *)
Lemma poll_loop_quiet (exePath : string) (left : nat) : forall e : Env,
  let run := poll_loop sv ctx exePath left e in
  exists n k, (k <= n <= left)%nat /\
    calls run.2 = (calls e ++ repeat (CallStat exePath) n)%list /\
    world run.2 = mkWorld (now (world e) + k) (trace (world e) ++ waits k)%list.
Proof.
  induction left as [|left IH]; intros e; cbn zeta.
  - exists 0%nat, 0%nat. split; [lia|]. cbn. rewrite Nat.add_0_r, !app_nil_r.
    destruct e as [[n t] c]. split; reflexivity.
  - cbn [poll_loop]. unfold bind, call_Stat, lift, wait, ret. cbn [world calls now trace].
    assert (Hagain :
      let e1 := mkEnv (mkWorld (S (now (world e))) (trace (world e) ++ [EvWait 10])%list)
                      (calls e ++ [CallStat exePath])%list in
      let run := match ctx (S (now (world e))) with
                 | Some werr => (Some werr, e1)
                 | None => poll_loop sv ctx exePath left e1
                 end in
      exists n k, (k <= n <= S left)%nat /\
        calls run.2 = (calls e ++ repeat (CallStat exePath) n)%list /\
        world run.2 = mkWorld (now (world e) + k) (trace (world e) ++ waits k)%list).
    { cbn zeta. destruct (ctx (S (now (world e)))) as [werr|].
      - exists 1%nat, 1%nat. split; [lia|]. cbn. split; [reflexivity|].
        f_equal. lia.
      - destruct (IH (mkEnv (mkWorld (S (now (world e)))
                               (trace (world e) ++ [EvWait 10])%list)
                            (calls e ++ [CallStat exePath])%list))
          as (n & k & Hle & Hc & Hw).
        exists (S n), (S k). split; [lia|]. cbn [world calls now trace] in Hc, Hw.
        rewrite Hc, Hw. unfold waits. cbn [repeat]. rewrite <- !app_assoc. cbn [app].
        split; [reflexivity|]. f_equal. lia. }
    cbn zeta in Hagain.
    destruct (fs_Stat sv (now (world e)) exePath) as [mode|err].
    + destruct (IsOwnerExecutable sv mode).
      * exists 1%nat, 0%nat. split; [lia|]. cbn. rewrite Nat.add_0_r, app_nil_r.
        destruct e as [[n t] c]. split; reflexivity.
      * cbn [world calls]. destruct (ctx (S (now (world e)))); exact Hagain.
    + cbn [world calls]. destruct (ctx (S (now (world e)))); exact Hagain.
Qed.

Lemma install_as_poll (findResult : FindResult) (e : Env) :
  packageInstaller_InstallPackage sv (fr_Package findResult)
    (ChecksumEnabled findResult) (RequireChecksum findResult) = None ->
  (ChecksumEnabled findResult = true ->
   exists p, GetChecksumFilePathFromConfigFilePath sv (ConfigFilePath findResult) = Ok p /\
             checksums_ReadFile sv p = None) ->
  exists c,
    let p := poll_loop sv ctx (ExePath findResult) 10 (mkEnv (world e) c) in
    (install sv ctx findResult e).1 = p.1 /\
    world (install sv ctx findResult e).2 = world p.2.
Proof.
  intros Hinst Hsetup. unfold install, install_package.
  destruct (ChecksumEnabled findResult).
  - destruct (Hsetup eq_refl) as (p & Hp & Hread). rewrite Hp.
    unfold bind, emit, ret. cbn [world calls]. rewrite Hread. cbn [world calls].
    rewrite Hinst.
    match goal with
    | |- context [poll_loop _ _ _ _ (mkEnv _ ?c)] => exists c
    end.
    cbn zeta.
    destruct (poll_loop sv ctx (ExePath findResult) 10 _) as [r e']. split; reflexivity.
  - unfold bind, emit, ret. cbn [world calls]. rewrite Hinst. eexists. cbn zeta.
    split; reflexivity.
Qed.

(** X22: Once the package installer has returned without error,
    [install] polls for the executable: it returns [nil] as soon as the file
    is there and executable by its owner, taking one 10 ms wait per failed
    check; a wait that the context cuts short ends it with the context's
    error; and after ten failed checks it returns [nil] all the same,
    although the executable is still missing. *)
Theorem install_poll (findResult : FindResult) (e : Env) (k : nat) :
  packageInstaller_InstallPackage sv (fr_Package findResult)
    (ChecksumEnabled findResult) (RequireChecksum findResult) = None ->
  (ChecksumEnabled findResult = true ->
   exists p, GetChecksumFilePathFromConfigFilePath sv (ConfigFilePath findResult) = Ok p /\
             checksums_ReadFile sv p = None) ->
  (k <= 10)%nat ->
  (forall i, (i < k)%nat ->
     ready sv (ExePath findResult) (now (world e) + i) = false /\
     ctx (S (now (world e) + i)) = None) ->
  let run := install sv ctx findResult e in
  let after n := mkWorld (now (world e) + n) (trace (world e) ++ waits n)%list in
  (k = 10%nat -> run.1 = None /\ world run.2 = after 10%nat) /\
  (ready sv (ExePath findResult) (now (world e) + k) = true ->
   (k < 10)%nat -> run.1 = None /\ world run.2 = after k) /\
  (forall err,
     ready sv (ExePath findResult) (now (world e) + k) = false ->
     ctx (S (now (world e) + k)) = Some err ->
     (k < 10)%nat -> run.1 = Some err /\ world run.2 = after (S k)).
Proof.
  intros Hinst Hsetup Hk Hfail. cbn zeta.
  destruct (install_as_poll findResult e Hinst Hsetup) as (c & Hres & Hworld).
  rewrite Hres, Hworld. clear Hres Hworld.
  pose proof (poll_loop_prefix (ExePath findResult) (10 - k) k
                (mkEnv (world e) c) Hfail) as Hrun.
  replace (k + (10 - k))%nat with 10%nat in Hrun by lia.
  rewrite Hrun. clear Hrun. cbn [world calls].
  split; [|split].
  - intros ->. cbn. split; reflexivity.
  - intros Hready Hlt. destruct (10 - k)%nat as [|m] eqn:Hm; [lia|].
    cbn [poll_loop]. unfold bind, call_Stat, ret. cbn [world now calls].
    unfold ready in Hready.
    destruct (fs_Stat sv (now (world e) + k) (ExePath findResult)); [|discriminate].
    rewrite Hready. split; reflexivity.
  - intros err Hready Hctx Hlt. destruct (10 - k)%nat as [|m] eqn:Hm; [lia|].
    cbn [poll_loop]. unfold bind, call_Stat, lift, wait, ret. cbn [world now calls trace].
    unfold ready in Hready.
    destruct (fs_Stat sv (now (world e) + k) (ExePath findResult));
      [rewrite Hready|]; cbn [world now calls trace]; rewrite Hctx; cbn [fst snd world];
      (split; [reflexivity|]); unfold waits;
      rewrite <- app_assoc, <- repeat_cons, Nat.add_succ_r; reflexivity.
Qed.

Lemma elem_of_repeat {A : Type} (x y : A) (n : nat) : y ∈ repeat x n -> y = x.
Proof.
  intros H. apply list_elem_of_In in H. exact (repeat_spec n x y H).
Qed.

Lemma install_package_run (findResult : FindResult) (checksums : bool) (e : Env) :
  let run := install_package sv ctx findResult checksums e in
  exists n k, (k <= n <= 10)%nat /\
    calls run.2 =
      (calls e ++
       CallInstallPackage (fr_Package findResult) checksums (RequireChecksum findResult)
       :: repeat (CallStat (ExePath findResult)) n)%list /\
    world run.2 = mkWorld (now (world e) + k) (trace (world e) ++ waits k)%list.
Proof.
  cbn zeta. unfold install_package, bind, emit, ret. cbn [world calls].
  destruct (packageInstaller_InstallPackage sv _ _ _) as [err|].
  - exists 0%nat, 0%nat. split; [lia|]. cbn. rewrite Nat.add_0_r, app_nil_r.
    destruct e as [[n t] c]. split; reflexivity.
  - destruct (poll_loop_quiet (ExePath findResult) 10
                (mkEnv (world e)
                   (calls e ++ [CallInstallPackage (fr_Package findResult) checksums
                                  (RequireChecksum findResult)])%list))
      as (n & k & Hle & Hc & Hw).
    exists n, k. split; [exact Hle|]. cbn [world calls] in Hc, Hw.
    rewrite Hc, Hw, <- app_assoc. split; reflexivity.
Qed.

Ltac call_cases H :=
  repeat rewrite ?elem_of_app, ?elem_of_cons, ?elem_of_nil in H;
  repeat match type of H with
         | _ \/ _ => destruct H as [H | H]
         | False => destruct H
         end;
  try discriminate H;
  try (apply elem_of_repeat in H; discriminate H).

(** X23: Every call of the package installer is for the package of the
    find result, and it is handed a checksum set exactly when checksums are
    enabled, after the checksum file has been located and read.  Whenever the checksum file was read it is written back as the
    last step, after the installer has been called and whatever the installer
    and the wait for the executable answered. *)
Theorem install_checksum_file (findResult : FindResult) (w : World) :
  let run := install sv ctx findResult (mkEnv w []) in
  let read p :=
    ChecksumEnabled findResult = true /\
    GetChecksumFilePathFromConfigFilePath sv (ConfigFilePath findResult) = Ok p /\
    checksums_ReadFile sv p = None in
  (forall pkg checksums requireChecksum,
     CallInstallPackage pkg checksums requireChecksum ∈ calls run.2 ->
     pkg = fr_Package findResult /\ checksums = ChecksumEnabled findResult /\
     requireChecksum = RequireChecksum findResult /\
     (checksums = true -> exists p, read p)) /\
  (forall p, CallUpdateChecksums p ∈ calls run.2 <-> read p) /\
  (forall p, read p ->
     exists c, calls run.2 = (c ++ [CallUpdateChecksums p])%list /\
       CallInstallPackage (fr_Package findResult) true (RequireChecksum findResult) ∈ c).
Proof.
  cbn zeta. unfold install.
  destruct (ChecksumEnabled findResult) eqn:Hen.
  - destruct (GetChecksumFilePathFromConfigFilePath sv (ConfigFilePath findResult))
      as [p|err] eqn:Hp; unfold bind, emit, ret; cbn [world calls app fst snd].
    + destruct (checksums_ReadFile sv p) as [err|] eqn:Hread;
        cbn [world calls app fst snd].
      * split; [|split].
        -- intros pkg cs rc H. call_cases H.
        -- intros p'. split; [intros H; call_cases H|].
           intros (_ & H1 & H2). inversion H1; subst. congruence.
        -- intros p' (_ & H1 & H2). inversion H1; subst. congruence.
      * destruct (install_package_run findResult true
                    (mkEnv w [CallChecksumFilePath (ConfigFilePath findResult);
                              CallReadChecksums p]))
          as (n & k & _ & Hc & _).
        cbn zeta in Hc. cbn [world calls] in Hc.
        destruct (install_package sv ctx findResult true _) as [res e'].
        cbn [fst snd calls world] in *. rewrite Hc. clear Hc. split; [|split].
        -- intros pkg cs rc H. call_cases H.
           inversion H; subst. split; [reflexivity|]. split; [reflexivity|].
           split; [reflexivity|]. intros _. exists p. now repeat split.
        -- intros p'. split.
           ++ intros H. call_cases H. inversion H; subst. now repeat split.
           ++ intros (_ & H1 & _). inversion H1; subst.
              rewrite elem_of_app, elem_of_cons. right. now left.
        -- intros p' (_ & H1 & _). inversion H1; subst. eexists. split; [reflexivity|].
           rewrite elem_of_app, elem_of_cons. right. now left.
    + split; [|split].
      * intros pkg cs rc H. call_cases H.
      * intros p'. split; [intros H; call_cases H|]. intros (_ & H1 & _). discriminate.
      * intros p' (_ & H1 & _). discriminate.
  - destruct (install_package_run findResult false (mkEnv w [])) as (n & k & _ & Hc & _).
    cbn zeta in Hc. cbn [world calls app] in Hc. rewrite Hc. clear Hc. split; [|split].
    + intros pkg cs rc H. call_cases H.
      inversion H; subst. split; [reflexivity|]. split; [reflexivity|].
      split; [reflexivity|]. discriminate.
    + intros p'. split; [intros H; call_cases H|]. intros (H & _). discriminate.
    + intros p' (H & _). discriminate.
Qed.

Lemma attempts_waits (t : list event) (k : nat) : attempts (t ++ waits k) = attempts t.
Proof.
  rewrite attempts_app. unfold waits.
  induction k as [|k IH]; [cbn; lia|].
  change (repeat (EvWait 10) (S k)) with ([EvWait 10] ++ repeat (EvWait 10) k)%list.
  rewrite attempts_app, attempts_single in *. cbn [is_attempt]. lia.
Qed.

Lemma install_package_ok (findResult : FindResult) (checksums : bool) (e : Env) :
  (install_package sv ctx findResult checksums e).1 = None ->
  packageInstaller_InstallPackage sv (fr_Package findResult) checksums
    (RequireChecksum findResult) = None.
Proof.
  unfold install_package, bind, emit, ret. cbn [world calls].
  destruct (packageInstaller_InstallPackage sv _ _ _); [discriminate | reflexivity].
Qed.

Lemma install_run (findResult : FindResult) (e : Env) :
  let run := install sv ctx findResult e in
  (exists k, (k <= 10)%nat /\
     world run.2 = mkWorld (now (world e) + k) (trace (world e) ++ waits k)%list) /\
  (run.1 = None ->
   packageInstaller_InstallPackage sv (fr_Package findResult)
     (ChecksumEnabled findResult) (RequireChecksum findResult) = None /\
   (ChecksumEnabled findResult = true ->
    exists p, GetChecksumFilePathFromConfigFilePath sv (ConfigFilePath findResult) = Ok p /\
              checksums_ReadFile sv p = None)).
Proof.
  assert (Hidle : exists k, (k <= 10)%nat /\
            world e = mkWorld (now (world e) + k) (trace (world e) ++ waits k)%list).
  { exists 0%nat. split; [lia|]. cbn. rewrite Nat.add_0_r, app_nil_r.
    destruct e as [[n t] c]. reflexivity. }
  cbn zeta. unfold install.
  destruct (ChecksumEnabled findResult) eqn:Hen.
  - destruct (GetChecksumFilePathFromConfigFilePath sv (ConfigFilePath findResult))
      as [p|err] eqn:Hp; unfold bind, emit, ret; cbn [world calls app fst snd];
      [|split; [exact Hidle | discriminate]].
    destruct (checksums_ReadFile sv p) as [err|] eqn:Hread;
      cbn [world calls app fst snd]; [split; [exact Hidle | discriminate]|].
    pose proof (install_package_run findResult true
                  (mkEnv (world e)
                     ((calls e ++ [CallChecksumFilePath (ConfigFilePath findResult)]) ++
                      [CallReadChecksums p])%list)) as (n & k & Hle & _ & Hw).
    pose proof (install_package_ok findResult true
                  (mkEnv (world e)
                     ((calls e ++ [CallChecksumFilePath (ConfigFilePath findResult)]) ++
                      [CallReadChecksums p])%list)) as Hok.
    cbn zeta in Hw. cbn [world calls] in Hw.
    destruct (install_package sv ctx findResult true _) as [res e'].
    cbn [fst snd world] in *. split.
    + exists k. split; [lia | exact Hw].
    + intros Hres. split; [exact (Hok Hres)|]. intros _. now exists p.
  - pose proof (install_package_run findResult false e) as (n & k & Hle & _ & Hw).
    pose proof (install_package_ok findResult false e) as Hok.
    cbn zeta in Hw. split.
    + exists k. split; [lia | exact Hw].
    + intros Hres. split; [exact (Hok Hres) | discriminate].
Qed.

(** X24: The executor is called only after everything before it has
    succeeded.  When [Exec] reaches the executor, [Which] has found the
    command; and when the command belongs to a package, the security policy,
    if one is configured, has been read and has accepted the package, the
    checksum file, if checksums are enabled, has been read, and the package
    installer has returned without error.  A command outside any package is
    executed without validation or installation. *)
Theorem Controller_Exec_checks_first (ctrl : Controller) (exeName : string)
        (args : list string) (w : World) :
  let run := Controller_Exec sv ctrl ctx exeName args (mkEnv w []) in
  let policy := Getenv sv "AQUA_SECURITY_CONFIG" in
  attempts (trace (world run.2)) <> attempts (trace w) ->
  exists findResult,
    which_Which sv exeName = Ok findResult /\
    match fr_Package findResult with
    | None => calls run.2 = [CallWhich exeName]
    | Some pkg =>
        (policy <> "" ->
         securityConfigReader_Read sv policy = None /\
         securityChecker_Validate sv pkg = None) /\
        (ChecksumEnabled findResult = true ->
         exists p,
           GetChecksumFilePathFromConfigFilePath sv (ConfigFilePath findResult) = Ok p /\
           checksums_ReadFile sv p = None) /\
        packageInstaller_InstallPackage sv (Some pkg) (ChecksumEnabled findResult)
          (RequireChecksum findResult) = None
    end.
Proof.
  cbn zeta. unfold Controller_Exec. unfold bind at 1. unfold emit at 1.
  cbn [world calls app].
  destruct (which_Which sv exeName) as [findResult|err];
    [|intros H; now contradiction H].
  intros Hrun. exists findResult. split; [reflexivity|].
  destruct (fr_Package findResult) as [pkg|] eqn:Hpkg.
  - revert Hrun. unfold bind at 1.
    unfold validate.
    destruct (String.eqb_spec (Getenv sv "AQUA_SECURITY_CONFIG") "") as [Hpol | Hpol];
      cbn [negb].
    + unfold ret at 1. cbn [fst snd]. unfold bind at 1.
      pose proof (install_run findResult (mkEnv w [CallWhich exeName])) as [Hw Hok].
      cbn zeta in Hw, Hok.
      destruct (install sv ctx findResult _) as [[err|] e1]; cbn [fst snd] in *.
      * destruct Hw as (k & _ & Hw). unfold ret. cbn [snd]. rewrite Hw. cbn [trace].
        rewrite attempts_waits. intros H; now contradiction H.
      * intros _. destruct (Hok eq_refl) as [Hinst Hsum]. rewrite Hpkg in Hinst.
        split; [intros H; contradiction|]. split; assumption.
    + unfold bind at 1. unfold emit at 1. cbn [world calls].
      destruct (securityConfigReader_Read sv _) as [err|] eqn:Hread.
      * cbn [ret fst snd world]. intros H; now contradiction H.
      * unfold bind at 1. unfold emit at 1. cbn [world calls].
        destruct (securityChecker_Validate sv pkg) as [err|] eqn:Hval.
        -- cbn [ret fst snd world]. intros H; now contradiction H.
        -- unfold ret at 1. cbn [fst snd]. unfold bind at 1.
           pose proof (install_run findResult
                         (mkEnv w (([CallWhich exeName] ++
                                    [CallReadSecurityConfig
                                       (Getenv sv "AQUA_SECURITY_CONFIG")]) ++
                                   [CallValidate pkg])%list)) as [Hw Hok].
           cbn zeta in Hw, Hok.
           destruct (install sv ctx findResult _) as [[err|] e1]; cbn [fst snd] in *.
           ++ destruct Hw as (k & _ & Hw). unfold ret. cbn [snd]. rewrite Hw.
              cbn [trace]. rewrite attempts_waits. intros H; now contradiction H.
           ++ intros _. destruct (Hok eq_refl) as [Hinst Hsum]. rewrite Hpkg in Hinst.
              split; [intros _; split; reflexivity|]. split; assumption.
  - unfold bind, lift, emit, ret. cbn [world calls app].
    destruct (execCommandWithRetry ctrl ctx (ExePath findResult) args w).
    reflexivity.
Qed.

End ExecControllerFacts.

Lemma install_poll_witness :
  (ExecController.install (services 3 false "" None None) background (found_gh false)
     (fresh (Exec.mkWorld 0 []))).1 = None /\
  ExecController.world
    (ExecController.install (services 3 false "" None None) background (found_gh false)
       (fresh (Exec.mkWorld 0 []))).2 = Exec.mkWorld 3 (waits 3).
Proof.
  assert (Hfail : forall i, (i < 3)%nat ->
            ready (services 3 false "" None None) "/root/.aqua/pkgs/gh" (0 + i) = false /\
            background (S (0 + i)) = None).
  { intros i Hi. destruct i as [|[|[|i]]]; [split; reflexivity.. | lia]. }
  destruct (install_poll (services 3 false "" None None) background (found_gh false)
              (fresh (Exec.mkWorld 0 [])) 3 eq_refl) as (_ & H & _).
  - discriminate.
  - lia.
  - exact Hfail.
  - apply H; [reflexivity | lia].
Defined.

Lemma install_checksum_file_witness :
  ExecController.CallUpdateChecksums "/work/aqua-checksums.json" ∈
  ExecController.calls
    (ExecController.install
       (services 0 true "" None (Some (ErrNew "unsupported platform")))
       background (found_gh true) (fresh (Exec.mkWorld 0 []))).2.
Proof.
  apply (install_checksum_file
           (services 0 true "" None (Some (ErrNew "unsupported platform")))
           background (found_gh true) (Exec.mkWorld 0 [])).
  repeat split.
Defined.

Lemma Controller_Exec_checks_first_witness :
  ExecController.packageInstaller_InstallPackage (services 0 false "" None None)
    (Some gh_cli) false false = None.
Proof.
  destruct (Controller_Exec_checks_first (services 0 false "" None None) background
              never_starts "gh" ["version"] (Exec.mkWorld 0 []))
    as (findResult & Hwhich & H).
  - vm_compute. discriminate.
  - inversion Hwhich; subst. destruct H as (_ & _ & H). exact H.
Defined.

(** ** The generate controller *)

Section GenerateFacts.

Import Generate.

(** X25: The result always names a registry, that is, it
    contains a comma; a name that already does is left as it is, any other
    gets the prefix [standard,]; and the function is idempotent. *)
Theorem getGeneratePkg_spec (s : string) :
  Contains (getGeneratePkg s) "," = true /\
  (Contains s "," = true -> getGeneratePkg s = s) /\
  (Contains s "," = false -> getGeneratePkg s = "standard," +:+ s) /\
  getGeneratePkg (getGeneratePkg s) = getGeneratePkg s.
Proof.
  assert (Hstd : Contains ("standard," +:+ s) "," = true).
  { apply Contains_spec. exists "standard", s. reflexivity. }
  unfold getGeneratePkg. destruct (Contains s ",") eqn:Hc; cbn [negb].
  - rewrite Hc. cbn [negb]. repeat split; reflexivity || discriminate.
  - rewrite Hstd. cbn [negb]. repeat split; reflexivity || discriminate.
Qed.

Variable Program : Type.
Variable CompileVersionFilter : string -> result Program.
Variable EvaluateVersionFilter : Program -> string -> result bool.

Lemma scan_releases_none (program : Program) (releases : list RepositoryRelease) :
  scan_releases Program EvaluateVersionFilter program releases = None <->
  Forall (rejected EvaluateVersionFilter program) releases.
Proof.
  unfold rejected. induction releases as [|r releases IH]; cbn [scan_releases].
  - split; [constructor | reflexivity].
  - destruct (GetPrerelease r) eqn:Hpre.
    + rewrite IH. split; [intros H; constructor; [now left | exact H]|].
      intros H. now inversion H.
    + destruct (accepted Program EvaluateVersionFilter program (GetTagName r)) eqn:Hacc.
      * split; [discriminate|]. intros H. inversion H as [|? ? [H1 | H1] ?]; subst;
          congruence.
      * rewrite IH. split; [intros H; constructor; [now right | exact H]|].
        intros H. now inversion H.
Qed.

Lemma scan_releases_some (program : Program) (skipped rest : list RepositoryRelease)
      (release : RepositoryRelease) :
  Forall (rejected EvaluateVersionFilter program) skipped ->
  GetPrerelease release = false ->
  accepted Program EvaluateVersionFilter program (GetTagName release) = true ->
  scan_releases Program EvaluateVersionFilter program (skipped ++ release :: rest) =
  Some (GetTagName release).
Proof.
  unfold rejected. intros Hsk Hpre Hacc.
  induction Hsk as [|r skipped [Hr | Hr] Hsk IH]; cbn [scan_releases app].
  - rewrite Hpre, Hacc. reflexivity.
  - rewrite Hr. exact IH.
  - destruct (GetPrerelease r); [exact IH|]. rewrite Hr. exact IH.
Qed.

Lemma releases_loop_skip (svc : RepositoryService) (repoOwner repoName : string)
      (program : Program) (p : nat) : forall fuel page : nat,
  (forall q, (q < p)%nat ->
     exists releases,
       ListReleases svc repoOwner repoName (page + q) = Ok releases /\
       length releases = PerPage /\
       Forall (rejected EvaluateVersionFilter program) releases) ->
  releases_loop Program EvaluateVersionFilter (p + fuel) svc repoOwner repoName
    program page =
  releases_loop Program EvaluateVersionFilter fuel svc repoOwner repoName
    program (page + p).
Proof.
  induction p as [|p IH]; intros fuel page Hfull.
  - now rewrite Nat.add_0_r.
  - cbn [Nat.add releases_loop].
    destruct (Hfull 0%nat ltac:(lia)) as (releases & Hlist & Hlen & Hrej).
    rewrite Nat.add_0_r in Hlist. rewrite Hlist.
    apply scan_releases_none in Hrej. rewrite Hrej, Hlen, Nat.eqb_refl. cbn [negb].
    rewrite IH; [f_equal; lia|].
    intros q Hq. destruct (Hfull (S q) ltac:(lia)) as (rs & H1 & H2 & H3).
    exists rs. rewrite Nat.add_succ_r in H1. now repeat split.
Qed.

(** X26: The releases are searched page by page, in
    order.  After [p] full pages on which every release is a prerelease or
    fails the version filter, the answer comes from the next page: the tag of
    its first release that is no prerelease and passes the filter; the empty
    string when the request fails, or when the page has no such release and
    is not full.  [p + 1] requests are enough for this answer. *)
Theorem listAndGetTagName_pages (svc : RepositoryService) (pkgInfo : PackageInfo)
        (versionFilter : string) (program : Program) (p fuel : nat) :
  CompileVersionFilter versionFilter = Ok program ->
  (forall q, (q < p)%nat ->
     exists releases,
       ListReleases svc (RepoOwner pkgInfo) (RepoName pkgInfo) q = Ok releases /\
       length releases = PerPage /\
       Forall (rejected EvaluateVersionFilter program) releases) ->
  (p < fuel)%nat ->
  let run := listAndGetTagName Program CompileVersionFilter EvaluateVersionFilter
               fuel svc pkgInfo versionFilter in
  let page := ListReleases svc (RepoOwner pkgInfo) (RepoName pkgInfo) p in
  (forall err, page = Err err -> run = Some "") /\
  (forall skipped release rest,
     page = Ok (skipped ++ release :: rest)%list ->
     Forall (rejected EvaluateVersionFilter program) skipped ->
     GetPrerelease release = false ->
     accepted Program EvaluateVersionFilter program (GetTagName release) = true ->
     run = Some (GetTagName release)) /\
  (forall releases,
     page = Ok releases ->
     Forall (rejected EvaluateVersionFilter program) releases ->
     length releases <> PerPage -> run = Some "").
Proof.
  intros Hcompile Hfull Hfuel. cbn zeta. unfold listAndGetTagName. rewrite Hcompile.
  replace fuel with (p + S (fuel - S p))%nat by lia.
  rewrite (releases_loop_skip svc _ _ program p (S (fuel - S p)) 0%nat Hfull).
  cbn [Nat.add releases_loop]. split; [|split].
  - intros err ->. reflexivity.
  - intros skipped release rest -> Hsk Hpre Hacc.
    rewrite (scan_releases_some program skipped rest release Hsk Hpre Hacc). reflexivity.
  - intros releases -> Hrej Hlen. apply scan_releases_none in Hrej. rewrite Hrej.
    apply Nat.eqb_neq in Hlen. rewrite Hlen. reflexivity.
Qed.

Lemma set_tag_shape (outputPkg : Package) (pkgInfo : PackageInfo) (tagName : string) :
  let out := set_tag outputPkg pkgInfo tagName in
  let repo := RepoOwner pkgInfo +:+ "/" +:+ RepoName pkgInfo in
  Registry out = Registry outputPkg /\
  ((Name out = Name outputPkg /\ Version out = tagName) \/
   (Name out = Name outputPkg +:+ "@" +:+ tagName /\ Version out = "" /\
    (GetName pkgInfo = repo \/ exists rest, GetName pkgInfo = repo +:+ "/" +:+ rest))).
Proof.
  cbn zeta. unfold set_tag.
  destruct (String.eqb_spec (GetName pkgInfo)
              (RepoOwner pkgInfo +:+ "/" +:+ RepoName pkgInfo)) as [Heq | Hne];
    cbn [orb].
  - split; [reflexivity|]. right. split; [reflexivity|]. split; [reflexivity|].
    left. exact Heq.
  - destruct (String.prefix _ (GetName pkgInfo)) eqn:Hpre; cbn [Name Registry Version].
    + split; [reflexivity|]. right. split; [reflexivity|]. split; [reflexivity|].
      right. apply prefix_spec in Hpre as [rest Hrest]. exists rest. rewrite Hrest.
      clear. generalize (RepoOwner pkgInfo +:+ "/" +:+ RepoName pkgInfo) as repo.
      intros repo. induction repo as [|c repo IH]; [reflexivity|].
      change (String c ((repo +:+ "/") +:+ rest) = String c (repo +:+ "/" +:+ rest)).
      now rewrite IH.
    + split; [reflexivity|]. left. split; reflexivity.
Qed.



(** X28: What a failed lookup leaves behind depends on the
    version filter.  For a package with a repository whose version source is
    not [github_tag], when both the list of releases and the latest release
    cannot be fetched: without a version filter the entry keeps the package
    name and the placeholder version; with one, the placeholder is lost and
    the version is empty, the name being the package name, or the package
    name followed by a bare [@]. *)
Theorem getOutputtedPkg_failed_lookup (fuel : nat) (svc : RepositoryService)
        (pkg : FindingPackage) (err err' : error) :
  let info := PackageInfo_ pkg in
  HasRepo info = true ->
  VersionSource info <> "github_tag" ->
  ListReleases svc (RepoOwner info) (RepoName info) 0 = Err err ->
  GetLatestRelease svc (RepoOwner info) (RepoName info) = Err err' ->
  (0 < fuel)%nat ->
  exists out,
    getOutputtedPkg Program CompileVersionFilter EvaluateVersionFilter
      fuel (Some svc) pkg = Some out /\
    match VersionFilter info with
    | None => Name out = GetName info /\ Version out = "[SET PACKAGE VERSION]"
    | Some _ =>
        Version out = "" /\
        (Name out = GetName info \/ Name out = GetName info +:+ "@")
    end.
Proof.
  cbn zeta. intros Hrepo Hsrc Hlist Hlatest Hfuel.
  unfold getOutputtedPkg. rewrite Hrepo. cbn [Registry Name Version].
  set (base := if String.eqb (RegistryName pkg) "standard" then _ else _).
  assert (Hbase : Name base = GetName (PackageInfo_ pkg) /\
                  Version base = "[SET PACKAGE VERSION]").
  { subst base. destruct (String.eqb (RegistryName pkg) "standard"); repeat split. }
  destruct Hbase as (Hname & Hver). clearbody base.
  unfold getOutputtedGitHubPkg.
  destruct (String.eqb_spec (VersionSource (PackageInfo_ pkg)) "github_tag");
    [contradiction|].
  destruct (VersionFilter (PackageInfo_ pkg)) as [vf|].
  - assert (Htag : listAndGetTagName Program CompileVersionFilter EvaluateVersionFilter
                     fuel svc (PackageInfo_ pkg) vf = Some "").
    { unfold listAndGetTagName. destruct (CompileVersionFilter vf); [|reflexivity].
      destruct fuel as [|fuel]; [lia|]. cbn [releases_loop]. rewrite Hlist. reflexivity. }
    rewrite Htag. eexists. split; [reflexivity|].
    destruct (set_tag_shape base (PackageInfo_ pkg) "") as (_ & Hshape).
    cbn zeta in Hshape. rewrite Hname in Hshape.
    destruct Hshape as [[Hn Hv] | (Hn & Hv & _)]; (split; [exact Hv|]);
      [now left | now right].
  - rewrite Hlatest. exists base. split; [reflexivity | now split].
Qed.

End GenerateFacts.

Lemma listAndGetTagName_pages_witness :
  Generate.listAndGetTagName string compile_prefix evaluate_prefix 1
    (one_page [Generate.mkRelease true "v2.5.0-rc1"; Generate.mkRelease false "2.4.1";
               Generate.mkRelease false "v2.4.0"])
    (gh_info (Some "v")) "v" = Some "v2.4.0".
Proof.
  destruct (listAndGetTagName_pages string compile_prefix evaluate_prefix
              (one_page [Generate.mkRelease true "v2.5.0-rc1";
                         Generate.mkRelease false "2.4.1";
                         Generate.mkRelease false "v2.4.0"])
              (gh_info (Some "v")) "v" "v" 0 1 eq_refl) as (_ & H & _).
  - intros q Hq. lia.
  - lia.
  - apply (H [Generate.mkRelease true "v2.5.0-rc1"; Generate.mkRelease false "2.4.1"]
             (Generate.mkRelease false "v2.4.0") []); try reflexivity.
    constructor; [left; reflexivity|]. constructor; [right; reflexivity | constructor].
Defined.


Lemma getOutputtedPkg_failed_lookup_witness :
  exists out,
    Generate.getOutputtedPkg string compile_prefix evaluate_prefix 1 (Some offline)
      (Generate.mkFindingPackage (gh_info (Some "v")) "standard") = Some out /\
    Generate.Version out = "" /\
    (Generate.Name out = "cli/cli" \/ Generate.Name out = "cli/cli@").
Proof.
  apply (getOutputtedPkg_failed_lookup string compile_prefix evaluate_prefix 1 offline
           (Generate.mkFindingPackage (gh_info (Some "v")) "standard")
           (ErrNew "connection refused") (ErrNew "connection refused"));
    try reflexivity; [discriminate | lia].
Defined.
